(** * The ICLR 2017 notebook of Edward, as Python 2 programs

    The repository is one Jupyter notebook, [notebooks/iclr2017.ipynb]
    (kernel: Python 2.7).  Its code cells are short Python programs over
    the external libraries edward, tensorflow, keras and numpy.

    This development has these parts:
    - the abstract syntax of the Python fragment the cells are written in,
      together with the constructs whose absence is at stake (conditionals,
      [while], [try], [class], [lambda]), and the cells themselves,
      transcribed statement by statement;
    - syntactic analyses of the cells: names read and bound, callees and
      where they come from, control constructs;
    - a definitional interpreter for the fragment.  The external libraries
      are not part of the repository: the interpreter is parameterised by
      their behaviour, an arbitrary function from requests to replies, and
      logs the requests it makes;
    - a small program logic to follow a run step by step, the runs of the
      Figure 11, Figure 13 and Variational EM cells, and two properties of
      every run: without [try] nothing catches an exception, and global
      names are bound by top-level statements only;
    - the claims;
    - the runs of the other cells and of the three functions the notebook
      defines, and what they show: which requests are made and in what
      order, what the cells bind, and how the cells fare one after the
      other. *)

From Stdlib Require Import ZArith List Lia Bool.
From Stdlib Require Import Floats.SpecFloat.
From stdpp Require Import base option strings list list_numbers gmap pretty.

Set Warnings "-register-all".
Local Open Scope string_scope.
Local Open Scope Z_scope.
Local Open Scope list_scope.

(** ** Abstract syntax *)

Module Py.

Inductive binop := Add | Sub | Mult | Div.

(** [EFloat m e] is the decimal literal [m * 10^e]: [0.05] is [EFloat 5 (-2)]. *)
Inductive expr :=
| EName (x : string)
| ENone
| EInt (z : Z)
| EFloat (m e : Z)
| EStr (s : string)
| EList (es : list expr)
| ETuple (es : list expr)
| EDict (kvs : list (expr * expr))
| EAttr (e : expr) (a : string)
| ECall (f : expr) (args : list expr) (kwargs : list (string * expr))
| EBinOp (op : binop) (l r : expr)
| ESubscript (e i : expr)
| ESlice (lo hi : option expr)
| EIfExp (c a b : expr)
| ELambda (params : list string) (body : expr).

(** [SImport m a] is [import m as a]; [SFromImport m xs] is
    [from m import x1, ..., xn]; [STry b c h] is [try: b except c: h], a bare
    [except:] when [c] is [None]. *)
Inductive stmt :=
| SImport (m a : string)
| SFromImport (m : string) (names : list string)
| SAssign (target e : expr)
| SExpr (e : expr)
| SDef (name : string) (params : list string) (body : list stmt)
| SReturn (e : expr)
| SFor (x : string) (iter : expr) (body : list stmt)
| SWhile (c : expr) (body : list stmt)
| SIf (c : expr) (thn els : list stmt)
| STry (body : list stmt) (cls : option string) (handler : list stmt)
| SClass (name : string) (bases : list expr) (body : list stmt)
| SPass.

Definition block := list stmt.

End Py.
Export Py.

(** ** The code cells

    Each definition transcribes one code cell of the notebook; the comment
    before a statement is its source text. *)

Module Notebook.

(** Shorthands used by the transcriptions. *)
Definition tf (a : string) : expr := EAttr (EName "tf") a.
Definition ed (a : string) : expr := EAttr (EName "ed") a.
Definition np (a : string) : expr := EAttr (EName "np") a.
Definition call (f : expr) (args : list expr) : expr := ECall f args [].
Definition shape (es : list expr) : expr := EList es.
Definition zeros (es : list expr) : expr := call (tf "zeros") [shape es].
Definition ones (es : list expr) : expr := call (tf "ones") [shape es].
Definition assign (x : string) (e : expr) : stmt := SAssign (EName x) e.
(** [Normal(loc=l, scale=s)] *)
Definition Normal (l s : expr) : expr :=
  ECall (EName "Normal") [] [("loc", l); ("scale", s)].
(** [Dense(n, activation=a)] *)
Definition Dense (n a : expr) : expr :=
  ECall (EName "Dense") [n] [("activation", a)].

(** Figure 1. Beta-Bernoulli program. *)
Definition fig1 : block :=
  [ (* import tensorflow as tf *)
    SImport "tensorflow" "tf";
    (* from edward.models import Bernoulli, Beta *)
    SFromImport "edward.models" ["Bernoulli"; "Beta"];
    (* theta = Beta(1.0, 1.0) *)
    assign "theta" (call (EName "Beta") [EFloat 10 (-1); EFloat 10 (-1)]);
    (* x = Bernoulli(tf.ones(50) * theta) *)
    assign "x" (call (EName "Bernoulli")
                  [EBinOp Mult (call (tf "ones") [EInt 50]) (EName "theta")]) ].

(** Figure 2. Variational auto-encoder. *)
Definition fig2 : block :=
  [ SImport "tensorflow" "tf";
    SFromImport "edward.models" ["Bernoulli"; "Normal"];
    SFromImport "keras.layers" ["Dense"];
    (* N = 55000 *)
    assign "N" (EInt 55000);
    (* d = 50 *)
    assign "d" (EInt 50);
    (* z = Normal(loc=tf.zeros([N, d]), scale=tf.ones([N, d])) *)
    assign "z" (Normal (zeros [EName "N"; EName "d"]) (ones [EName "N"; EName "d"]));
    (* h = Dense(256, activation='relu')(z) *)
    assign "h" (call (Dense (EInt 256) (EStr "relu")) [EName "z"]);
    (* x = Bernoulli(logits=Dense(28 * 28, activation=None)(h)) *)
    assign "x" (ECall (EName "Bernoulli") []
                  [("logits", call (Dense (EBinOp Mult (EInt 28) (EInt 28)) ENone)
                                [EName "h"])]);
    (* qx = tf.placeholder(tf.float32, [N, 28 * 28]) *)
    assign "qx" (call (tf "placeholder")
                   [tf "float32"; shape [EName "N"; EBinOp Mult (EInt 28) (EInt 28)]]);
    (* qh = Dense(256, activation='relu')(qx) *)
    assign "qh" (call (Dense (EInt 256) (EStr "relu")) [EName "qx"]);
    (* qz = Normal(loc=Dense(d, activation=None)(qh),
                   scale=Dense(d, activation='softplus')(qh)) *)
    assign "qz" (Normal (call (Dense (EName "d") ENone) [EName "qh"])
                        (call (Dense (EName "d") (EStr "softplus")) [EName "qh"])) ].

(** Figure 3. Bayesian recurrent neural network. *)
Definition fig3 : block :=
  [ SImport "edward" "ed";
    SImport "tensorflow" "tf";
    SFromImport "edward.models" ["Normal"];
    (* H = 50 *)
    assign "H" (EInt 50);
    (* D = 10 *)
    assign "D" (EInt 10);
    (* def rnn_cell(hprev, xt):
         return tf.tanh(ed.dot(hprev, Wh) + ed.dot(xt, Wx) + bh) *)
    SDef "rnn_cell" ["hprev"; "xt"]
      [ SReturn (call (tf "tanh")
          [EBinOp Add
             (EBinOp Add (call (ed "dot") [EName "hprev"; EName "Wh"])
                         (call (ed "dot") [EName "xt"; EName "Wx"]))
             (EName "bh")]) ];
    (* Wh = Normal(loc=tf.zeros([H, H]), scale=tf.ones([H, H])) *)
    assign "Wh" (Normal (zeros [EName "H"; EName "H"]) (ones [EName "H"; EName "H"]));
    (* Wx = Normal(loc=tf.zeros([D, H]), scale=tf.ones([D, H])) *)
    assign "Wx" (Normal (zeros [EName "D"; EName "H"]) (ones [EName "D"; EName "H"]));
    (* Wy = Normal(loc=tf.zeros([H, 1]), scale=tf.ones([H, 1])) *)
    assign "Wy" (Normal (zeros [EName "H"; EInt 1]) (ones [EName "H"; EInt 1]));
    (* bh = Normal(loc=tf.zeros(H), scale=tf.ones(H)) *)
    assign "bh" (Normal (call (tf "zeros") [EName "H"]) (call (tf "ones") [EName "H"]));
    (* by = Normal(loc=tf.zeros(1), scale=tf.ones(1)) *)
    assign "by" (Normal (call (tf "zeros") [EInt 1]) (call (tf "ones") [EInt 1]));
    (* x = tf.placeholder(tf.float32, [None, D]) *)
    assign "x" (call (tf "placeholder") [tf "float32"; shape [ENone; EName "D"]]);
    (* h = tf.scan(rnn_cell, x, initializer=tf.zeros(H)) *)
    assign "h" (ECall (tf "scan") [EName "rnn_cell"; EName "x"]
                  [("initializer", call (tf "zeros") [EName "H"])]);
    (* y = Normal(loc=tf.matmul(h, Wy) + by, scale=1.0) *)
    assign "y" (Normal (EBinOp Add (call (tf "matmul") [EName "h"; EName "Wy"])
                                   (EName "by"))
                       (EFloat 10 (-1))) ].

(** Figure 5. Hierarchical model. *)
Definition fig5 : block :=
  [ SImport "tensorflow" "tf";
    SFromImport "edward.models" ["Categorical"; "Normal"];
    (* N = 10000 *)
    assign "N" (EInt 10000);
    (* D = 2 *)
    assign "D" (EInt 2);
    (* K = 5 *)
    assign "K" (EInt 5);
    (* beta = Normal(loc=tf.zeros([K, D]), scale=tf.ones([K, D])) *)
    assign "beta" (Normal (zeros [EName "K"; EName "D"]) (ones [EName "K"; EName "D"]));
    (* z = Categorical(logits=tf.zeros([N, K])) *)
    assign "z" (ECall (EName "Categorical") []
                  [("logits", zeros [EName "N"; EName "K"])]);
    (* x = Normal(loc=tf.gather(beta, z), scale=tf.ones([N, D])) *)
    assign "x" (Normal (call (tf "gather") [EName "beta"; EName "z"])
                       (ones [EName "N"; EName "D"])) ].

(** [tf.Variable(tf.zeros(shape))] *)
Definition var_zeros (es : list expr) : expr := call (tf "Variable") [zeros es].

(** Figure 6 (left). Variational inference. *)
Definition fig6_left : block :=
  [ SImport "edward" "ed";
    SImport "numpy" "np";
    SImport "tensorflow" "tf";
    SFromImport "edward.models" ["Categorical"; "Normal"];
    (* x_train = np.zeros([N, D]) *)
    assign "x_train" (call (np "zeros") [shape [EName "N"; EName "D"]]);
    (* qbeta = Normal(loc=tf.Variable(tf.zeros([K, D])),
                      scale=tf.exp(tf.Variable(tf.zeros([K, D])))) *)
    assign "qbeta" (Normal (var_zeros [EName "K"; EName "D"])
                           (call (tf "exp") [var_zeros [EName "K"; EName "D"]]));
    (* qz = Categorical(logits=tf.Variable(tf.zeros([N, K]))) *)
    assign "qz" (ECall (EName "Categorical") []
                   [("logits", var_zeros [EName "N"; EName "K"])]);
    (* inference = ed.VariationalInference({beta: qbeta, z: qz}, data={x: x_train}) *)
    assign "inference"
      (ECall (ed "VariationalInference")
         [EDict [(EName "beta", EName "qbeta"); (EName "z", EName "qz")]]
         [("data", EDict [(EName "x", EName "x_train")])]) ].

(** Figure 6 (right). Monte Carlo. *)
Definition fig6_right : block :=
  [ SImport "edward" "ed";
    SImport "numpy" "np";
    SImport "tensorflow" "tf";
    SFromImport "edward.models" ["Empirical"];
    (* x_train = np.zeros([N, D]) *)
    assign "x_train" (call (np "zeros") [shape [EName "N"; EName "D"]]);
    (* T = 10000 *)
    assign "T" (EInt 10000);
    (* qbeta = Empirical(params=tf.Variable(tf.zeros([T, K, D]))) *)
    assign "qbeta" (ECall (EName "Empirical") []
                      [("params", var_zeros [EName "T"; EName "K"; EName "D"])]);
    (* qz = Empirical(params=tf.Variable(tf.zeros([T, N]))) *)
    assign "qz" (ECall (EName "Empirical") []
                   [("params", var_zeros [EName "T"; EName "N"])]) ].

(** Figure 7. Generative adversarial network. *)
Definition fig7 : block :=
  [ SImport "edward" "ed";
    SImport "numpy" "np";
    SImport "tensorflow" "tf";
    SFromImport "edward.models" ["Normal"];
    SFromImport "keras.layers" ["Dense"];
    (* N = 55000 *)
    assign "N" (EInt 55000);
    (* d = 50 *)
    assign "d" (EInt 50);
    (* def generative_network(eps):
         h = Dense(256, activation='relu')(eps)
         return Dense(28 * 28, activation=None)(h) *)
    SDef "generative_network" ["eps"]
      [ assign "h" (call (Dense (EInt 256) (EStr "relu")) [EName "eps"]);
        SReturn (call (Dense (EBinOp Mult (EInt 28) (EInt 28)) ENone) [EName "h"]) ];
    (* def discriminative_network(x):
         h = Dense(28 * 28, activation='relu')(x)
         return Dense(1, activation=None)(h) *)
    SDef "discriminative_network" ["x"]
      [ assign "h" (call (Dense (EBinOp Mult (EInt 28) (EInt 28)) (EStr "relu"))
                      [EName "x"]);
        SReturn (call (Dense (EInt 1) ENone) [EName "h"]) ];
    (* x_train = np.zeros([N, 28 * 28]) *)
    assign "x_train" (call (np "zeros")
                        [shape [EName "N"; EBinOp Mult (EInt 28) (EInt 28)]]);
    (* eps = Normal(loc=tf.zeros([N, d]), scale=tf.ones([N, d])) *)
    assign "eps" (Normal (zeros [EName "N"; EName "d"]) (ones [EName "N"; EName "d"]));
    (* x = generative_network(eps) *)
    assign "x" (call (EName "generative_network") [EName "eps"]);
    (* inference = ed.GANInference(data={x: x_train},
                                   discriminator=discriminative_network) *)
    assign "inference"
      (ECall (ed "GANInference") []
         [("data", EDict [(EName "x", EName "x_train")]);
          ("discriminator", EName "discriminative_network")]) ].

(** Figure *. Variational EM: the statements before the loop ... *)
Definition variational_em_setup : block :=
  [ SImport "edward" "ed";
    SImport "numpy" "np";
    SImport "tensorflow" "tf";
    SFromImport "edward.models" ["Categorical"; "PointMass"];
    (* x_train = np.zeros([N, D]) *)
    assign "x_train" (call (np "zeros") [shape [EName "N"; EName "D"]]);
    (* qbeta = PointMass(params=tf.Variable(tf.zeros([K, D]))) *)
    assign "qbeta" (ECall (EName "PointMass") []
                      [("params", var_zeros [EName "K"; EName "D"])]);
    (* qz = Categorical(logits=tf.Variable(tf.zeros([N, K]))) *)
    assign "qz" (ECall (EName "Categorical") []
                   [("logits", var_zeros [EName "N"; EName "K"])]);
    (* inference_e = ed.VariationalInference({z: qz}, data={x: x_train, beta: qbeta}) *)
    assign "inference_e"
      (ECall (ed "VariationalInference") [EDict [(EName "z", EName "qz")]]
         [("data", EDict [(EName "x", EName "x_train"); (EName "beta", EName "qbeta")])]);
    (* inference_m = ed.MAP({beta: qbeta}, data={x: x_train, z: qz}) *)
    assign "inference_m"
      (ECall (ed "MAP") [EDict [(EName "beta", EName "qbeta")]]
         [("data", EDict [(EName "x", EName "x_train"); (EName "z", EName "qz")])]);
    (* inference_e.initialize() *)
    SExpr (call (EAttr (EName "inference_e") "initialize") []);
    (* inference_m.initialize() *)
    SExpr (call (EAttr (EName "inference_m") "initialize") []);
    (* tf.initialize_all_variables().run() *)
    SExpr (call (EAttr (call (tf "initialize_all_variables") []) "run") []) ].

(** ... and the loop:
<<
for _ in range(10000):
  inference_e.update()
  inference_m.update()
>> *)
Definition variational_em_loop : stmt :=
  SFor "_" (call (EName "range") [EInt 10000])
    [ SExpr (call (EAttr (EName "inference_e") "update") []);
      SExpr (call (EAttr (EName "inference_m") "update") []) ].

Definition variational_em : block :=
  variational_em_setup ++ [variational_em_loop].

(** Figure *. Data subsampling. *)
Definition data_subsampling : block :=
  [ SImport "edward" "ed";
    SImport "tensorflow" "tf";
    SFromImport "edward.models" ["Categorical"; "Normal"];
    (* N = 10000 *)
    assign "N" (EInt 10000);
    (* M = 128 *)
    assign "M" (EInt 128);
    (* D = 2 *)
    assign "D" (EInt 2);
    (* K = 5 *)
    assign "K" (EInt 5);
    (* x_batch = tf.placeholder(tf.float32, [M, D]) *)
    assign "x_batch" (call (tf "placeholder") [tf "float32"; shape [EName "M"; EName "D"]]);
    (* beta = Normal(loc=tf.zeros([K, D]), scale=tf.ones([K, D])) *)
    assign "beta" (Normal (zeros [EName "K"; EName "D"]) (ones [EName "K"; EName "D"]));
    (* z = Categorical(logits=tf.zeros([M, K])) *)
    assign "z" (ECall (EName "Categorical") []
                  [("logits", zeros [EName "M"; EName "K"])]);
    (* x = Normal(loc=tf.gather(beta, z), scale=tf.ones([M, D])) *)
    assign "x" (Normal (call (tf "gather") [EName "beta"; EName "z"])
                       (ones [EName "M"; EName "D"]));
    (* qbeta = Normal(loc=tf.Variable(tf.zeros([K, D])),
                      scale=tf.nn.softplus(tf.Variable(tf.zeros([K, D])))) *)
    assign "qbeta" (Normal (var_zeros [EName "K"; EName "D"])
                           (call (EAttr (tf "nn") "softplus")
                              [var_zeros [EName "K"; EName "D"]]));
    (* qz = Categorical(logits=tf.Variable(tf.zeros([M, D]))) *)
    assign "qz" (ECall (EName "Categorical") []
                   [("logits", var_zeros [EName "M"; EName "D"])]);
    (* inference = ed.VariationalInference({beta: qbeta, z: qz}, data={x: x_batch}) *)
    assign "inference"
      (ECall (ed "VariationalInference")
         [EDict [(EName "beta", EName "qbeta"); (EName "z", EName "qz")]]
         [("data", EDict [(EName "x", EName "x_batch")])]);
    (* inference.initialize(scale={x: float(N) / M, z: float(N) / M}) *)
    SExpr (ECall (EAttr (EName "inference") "initialize") []
             [("scale",
               EDict [(EName "x", EBinOp Div (call (EName "float") [EName "N"]) (EName "M"));
                      (EName "z", EBinOp Div (call (EName "float") [EName "N"]) (EName "M"))])]) ].

(** Figure 9. Bayesian logistic regression with Hamiltonian Monte Carlo. *)
Definition fig9 : block :=
  [ SImport "edward" "ed";
    SImport "numpy" "np";
    SImport "tensorflow" "tf";
    SFromImport "edward.models" ["Bernoulli"; "Empirical"; "Normal"];
    (* N = 581012 *)
    assign "N" (EInt 581012);
    (* D = 54 *)
    assign "D" (EInt 54);
    (* T = 100 *)
    assign "T" (EInt 100);
    (* x_data = np.zeros([N, D]) *)
    assign "x_data" (call (np "zeros") [shape [EName "N"; EName "D"]]);
    (* y_data = np.zeros([N]) *)
    assign "y_data" (call (np "zeros") [shape [EName "N"]]);
    (* x = tf.Variable(x_data, trainable=False) *)
    assign "x" (ECall (tf "Variable") [EName "x_data"] [("trainable", EName "False")]);
    (* beta = Normal(loc=tf.zeros(D), scale=tf.ones(D)) *)
    assign "beta" (Normal (call (tf "zeros") [EName "D"]) (call (tf "ones") [EName "D"]));
    (* y = Bernoulli(logits=ed.dot(x, beta)) *)
    assign "y" (ECall (EName "Bernoulli") []
                  [("logits", call (ed "dot") [EName "x"; EName "beta"])]);
    (* qbeta = Empirical(params=tf.Variable(tf.zeros([T, D]))) *)
    assign "qbeta" (ECall (EName "Empirical") []
                      [("params", var_zeros [EName "T"; EName "D"])]);
    (* inference = ed.HMC({beta: qbeta}, data={y: y_data}) *)
    assign "inference"
      (ECall (ed "HMC") [EDict [(EName "beta", EName "qbeta")]]
         [("data", EDict [(EName "y", EName "y_data")])]);
    (* inference.run(step_size=0.5 / N, n_steps=10) *)
    SExpr (ECall (EAttr (EName "inference") "run") []
             [("step_size", EBinOp Div (EFloat 5 (-1)) (EName "N"));
              ("n_steps", EInt 10)]) ].

(** Figure 10. Bayesian neural network for classification. *)
Definition fig10 : block :=
  [ SImport "tensorflow" "tf";
    SFromImport "edward.models" ["Bernoulli"; "Normal"];
    (* N = 1000 *)
    assign "N" (EInt 1000);
    (* D = 528 *)
    assign "D" (EInt 528);
    (* H = 256 *)
    assign "H" (EInt 256);
    (* W_0 = Normal(loc=tf.zeros([D, H]), scale=tf.ones([D, H])) *)
    assign "W_0" (Normal (zeros [EName "D"; EName "H"]) (ones [EName "D"; EName "H"]));
    (* W_1 = Normal(loc=tf.zeros([H, 1]), scale=tf.ones([H, 1])) *)
    assign "W_1" (Normal (zeros [EName "H"; EInt 1]) (ones [EName "H"; EInt 1]));
    (* b_0 = Normal(loc=tf.zeros(H), scale=tf.ones(H)) *)
    assign "b_0" (Normal (call (tf "zeros") [EName "H"]) (call (tf "ones") [EName "H"]));
    (* b_1 = Normal(loc=tf.zeros(1), scale=tf.ones(1)) *)
    assign "b_1" (Normal (call (tf "zeros") [EInt 1]) (call (tf "ones") [EInt 1]));
    (* x = tf.placeholder(tf.float32, [N, D]) *)
    assign "x" (call (tf "placeholder") [tf "float32"; shape [EName "N"; EName "D"]]);
    (* y = Bernoulli(logits=tf.matmul(tf.nn.tanh(tf.matmul(x, W_0) + b_0), W_1) + b_1) *)
    assign "y"
      (ECall (EName "Bernoulli") []
         [("logits",
           EBinOp Add
             (call (tf "matmul")
                [call (EAttr (tf "nn") "tanh")
                   [EBinOp Add (call (tf "matmul") [EName "x"; EName "W_0"])
                               (EName "b_0")];
                 EName "W_1"])
             (EName "b_1"))]) ].

(** Figure 11. Latent Dirichlet allocation: the statements before [z = ...], *)
Definition fig11_head : block :=
  [ SImport "tensorflow" "tf";
    SFromImport "edward.models" ["Categorical"; "Dirichlet"];
    (* D = 4 *)
    assign "D" (EInt 4);
    (* N = [11502, 213, 1523, 1351] *)
    assign "N" (EList [EInt 11502; EInt 213; EInt 1523; EInt 1351]);
    (* K = 10 *)
    assign "K" (EInt 10);
    (* V = 100000 *)
    assign "V" (EInt 100000);
    (* theta = Dirichlet(tf.zeros([D, K]) + 0.1) *)
    assign "theta" (call (EName "Dirichlet")
                      [EBinOp Add (zeros [EName "D"; EName "K"]) (EFloat 1 (-1))]);
    (* phi = Dirichlet(tf.zeros([K, V]) + 0.05) *)
    assign "phi" (call (EName "Dirichlet")
                    [EBinOp Add (zeros [EName "K"; EName "V"]) (EFloat 5 (-2))]) ].

(** the statement [z = [[0] * N] * D], *)
Definition fig11_z : stmt :=
  assign "z" (EBinOp Mult (EList [EBinOp Mult (EList [EInt 0]) (EName "N")])
                          (EName "D")).

(** and the rest:
<<
w = [[0] * N] * D
for d in range(D):
  for n in range(N[d]):
    z[d][n] = Categorical(theta[d, :])
    w[d][n] = Categorical(phi[z[d][n], :])
>> *)
Definition fig11_tail : block :=
  [ assign "w" (EBinOp Mult (EList [EBinOp Mult (EList [EInt 0]) (EName "N")])
                            (EName "D"));
    SFor "d" (call (EName "range") [EName "D"])
      [ SFor "n" (call (EName "range") [ESubscript (EName "N") (EName "d")])
          [ SAssign (ESubscript (ESubscript (EName "z") (EName "d")) (EName "n"))
              (call (EName "Categorical")
                 [ESubscript (EName "theta")
                    (ETuple [EName "d"; ESlice None None])]);
            SAssign (ESubscript (ESubscript (EName "w") (EName "d")) (EName "n"))
              (call (EName "Categorical")
                 [ESubscript (EName "phi")
                    (ETuple [ESubscript (ESubscript (EName "z") (EName "d")) (EName "n");
                             ESlice None None])]) ] ] ].

Definition fig11 : block := fig11_head ++ fig11_z :: fig11_tail.

(** Figure 12. Gaussian matrix factorization. *)
Definition fig12 : block :=
  [ SImport "tensorflow" "tf";
    SFromImport "edward.models" ["Normal"];
    (* N = 10 *)
    assign "N" (EInt 10);
    (* M = 10 *)
    assign "M" (EInt 10);
    (* K = 5 *)
    assign "K" (EInt 5);
    (* U = Normal(loc=tf.zeros([M, K]), scale=tf.ones([M, K])) *)
    assign "U" (Normal (zeros [EName "M"; EName "K"]) (ones [EName "M"; EName "K"]));
    (* V = Normal(loc=tf.zeros([N, K]), scale=tf.ones([N, K])) *)
    assign "V" (Normal (zeros [EName "N"; EName "K"]) (ones [EName "N"; EName "K"]));
    (* Y = Normal(loc=tf.matmul(U, V, transpose_b=True), scale=tf.ones([N, M])) *)
    assign "Y" (Normal (ECall (tf "matmul") [EName "U"; EName "V"]
                          [("transpose_b", EName "True")])
                       (ones [EName "N"; EName "M"])) ].

(** Figure 13. Dirichlet process mixture model: the statements before the
    last one, *)
Definition fig13_head : block :=
  [ SImport "tensorflow" "tf";
    SFromImport "edward.models" ["DirichletProcess"; "Normal"];
    (* N = 1000 *)
    assign "N" (EInt 1000);
    (* D = 5 *)
    assign "D" (EInt 5);
    (* dp = DirichletProcess(alpha=1.0, base=Normal(loc=tf.zeros(D), scale=tf.ones(D))) *)
    assign "dp" (ECall (EName "DirichletProcess") []
                   [("alpha", EFloat 10 (-1));
                    ("base", Normal (call (tf "zeros") [EName "D"])
                                    (call (tf "ones") [EName "D"]))]);
    (* mu = dp.sample(N) *)
    assign "mu" (call (EAttr (EName "dp") "sample") [EName "N"]) ].

(** and the last one, [x = Normal(loc=loc, scale=tf.ones([N, D]))]. *)
Definition fig13_last : stmt :=
  assign "x" (Normal (EName "loc") (ones [EName "N"; EName "D"])).

Definition fig13 : block := fig13_head ++ [fig13_last].

(** The code cells in notebook order, with the captions of the markdown
    cells that introduce them. *)
Definition code_cells : list (string * block) :=
  [ ("Figure 1", fig1); ("Figure 2", fig2); ("Figure 3", fig3);
    ("Figure 5", fig5); ("Figure 6 (left)", fig6_left);
    ("Figure 6 (right)", fig6_right); ("Figure 7", fig7);
    ("Variational EM", variational_em); ("Data subsampling", data_subsampling);
    ("Figure 9", fig9); ("Figure 10", fig10); ("Figure 11", fig11);
    ("Figure 12", fig12); ("Figure 13", fig13) ].

Definition cells : list block := map snd code_cells.

End Notebook.
Export Notebook.

(** ** Syntactic analyses *)

Module Static.

Definition mem (x : string) (xs : list string) : bool := existsb (String.eqb x) xs.

Definition opt_list {A} (o : option A) : list A :=
  match o with Some a => [a] | None => [] end.

(** Every subexpression of an expression, itself first, in source order. *)
Fixpoint subexprs (e : expr) : list expr :=
  e :: match e with
       | EName _ | ENone | EInt _ | EFloat _ _ | EStr _ => []
       | EList es | ETuple es => flat_map subexprs es
       | EDict kvs =>
           flat_map (fun kv => let '(k, v) := kv in subexprs k ++ subexprs v) kvs
       | EAttr e1 _ => subexprs e1
       | ECall f args kwargs =>
           subexprs f ++ flat_map subexprs args
           ++ flat_map (fun kv => let '(_, v) := kv in subexprs v) kwargs
       | EBinOp _ l r => subexprs l ++ subexprs r
       | ESubscript e1 i => subexprs e1 ++ subexprs i
       | ESlice lo hi =>
           match lo with Some a => subexprs a | None => [] end
           ++ match hi with Some a => subexprs a | None => [] end
       | EIfExp c a b => subexprs c ++ subexprs a ++ subexprs b
       | ELambda _ body => subexprs body
       end.

(** Every statement of a statement, itself first, bodies included. *)
Fixpoint substmts (s : stmt) : list stmt :=
  s :: match s with
       | SDef _ _ b | SFor _ _ b | SWhile _ b | SClass _ _ b => flat_map substmts b
       | SIf _ a b | STry a _ b => flat_map substmts a ++ flat_map substmts b
       | _ => []
       end.

(** The expressions a statement holds itself (not those of its bodies). *)
Definition stmt_exprs (s : stmt) : list expr :=
  match s with
  | SAssign t e => [t; e]
  | SExpr e | SReturn e | SFor _ e _ | SWhile e _ | SIf e _ _ => [e]
  | SClass _ bases _ => bases
  | _ => []
  end.

Definition all_stmts (b : block) : list stmt := flat_map substmts b.
Definition all_exprs (b : block) : list expr :=
  flat_map subexprs (flat_map stmt_exprs (all_stmts b)).

(** *** Control constructs *)

Definition is_for (s : stmt) : bool := match s with SFor _ _ _ => true | _ => false end.
Definition is_while (s : stmt) : bool := match s with SWhile _ _ => true | _ => false end.
Definition is_if (s : stmt) : bool := match s with SIf _ _ _ => true | _ => false end.
Definition is_try (s : stmt) : bool := match s with STry _ _ _ => true | _ => false end.
Definition is_class (s : stmt) : bool := match s with SClass _ _ _ => true | _ => false end.
Definition is_def (s : stmt) : bool := match s with SDef _ _ _ => true | _ => false end.
Definition is_ifexp (e : expr) : bool := match e with EIfExp _ _ _ => true | _ => false end.
Definition is_lambda (e : expr) : bool := match e with ELambda _ _ => true | _ => false end.
Definition is_binop (e : expr) : bool := match e with EBinOp _ _ _ => true | _ => false end.

Definition has_loop (b : block) : bool :=
  existsb (fun s => is_for s || is_while s) (all_stmts b).
Definition has_conditional (b : block) : bool :=
  existsb (fun s => is_if s || is_while s) (all_stmts b) || existsb is_ifexp (all_exprs b).
Definition has_handler (b : block) : bool := existsb is_try (all_stmts b).
Definition has_class (b : block) : bool := existsb is_class (all_stmts b).

(** The [for] loops of a block, as (target, iterable) pairs. *)
Definition for_heads (b : block) : list (string * expr) :=
  flat_map (fun s => match s with SFor x it _ => [(x, it)] | _ => [] end) (all_stmts b).

(** The functions a block defines with [def], and its lambdas. *)
Definition defined_functions (b : block) : list string :=
  flat_map (fun s => match s with SDef f _ _ => [f] | _ => [] end) (all_stmts b).
Definition lambdas (b : block) : list expr := filter is_lambda (all_exprs b).

(** The operator expressions of a block. *)
Definition binops (b : block) : list expr := filter is_binop (all_exprs b).

(** *** Names bound and read *)

(** The names a block binds in the scope it runs in: targets of imports,
    assignments, [for], [def] and [class]; bodies of [def] and [class] have a
    scope of their own. *)
Fixpoint binds (s : stmt) : list string :=
  match s with
  | SImport _ a => [a]
  | SFromImport _ xs => xs
  | SAssign (EName x) _ => [x]
  | SDef f _ _ | SClass f _ _ => [f]
  | SFor x _ b => x :: flat_map binds b
  | SWhile _ b => flat_map binds b
  | SIf _ a b | STry a _ b => flat_map binds a ++ flat_map binds b
  | _ => []
  end.

Definition bound_names (b : block) : list string := flat_map binds b.


(** The names Python 2.7 has built in, and those among them that the
    interpreter below provides: the ones the cells use. *)
Definition python_builtins : list string :=
  [
    "ArithmeticError"; "AssertionError"; "AttributeError"; "BaseException";
    "BufferError"; "BytesWarning"; "DeprecationWarning"; "EOFError";
    "Ellipsis"; "EnvironmentError"; "Exception"; "False";
    "FloatingPointError"; "FutureWarning"; "GeneratorExit"; "IOError";
    "ImportError"; "ImportWarning"; "IndentationError"; "IndexError";
    "KeyError"; "KeyboardInterrupt"; "LookupError"; "MemoryError";
    "NameError"; "None"; "NotImplemented"; "NotImplementedError"; "OSError";
    "OverflowError"; "PendingDeprecationWarning"; "ReferenceError";
    "RuntimeError"; "RuntimeWarning"; "StandardError"; "StopIteration";
    "SyntaxError"; "SyntaxWarning"; "SystemError"; "SystemExit"; "TabError";
    "True"; "TypeError"; "UnboundLocalError"; "UnicodeDecodeError";
    "UnicodeEncodeError"; "UnicodeError"; "UnicodeTranslateError";
    "UnicodeWarning"; "UserWarning"; "ValueError"; "Warning";
    "ZeroDivisionError"; "__debug__"; "__doc__"; "__import__"; "__name__";
    "__package__"; "abs"; "all"; "any"; "apply"; "basestring"; "bin"; "bool";
    "buffer"; "bytearray"; "bytes"; "callable"; "chr"; "classmethod"; "cmp";
    "coerce"; "compile"; "complex"; "copyright"; "credits"; "delattr"; "dict";
    "dir"; "divmod"; "enumerate"; "eval"; "execfile"; "exit"; "file";
    "filter"; "float"; "format"; "frozenset"; "getattr"; "globals"; "hasattr";
    "hash"; "help"; "hex"; "id"; "input"; "int"; "intern"; "isinstance";
    "issubclass"; "iter"; "len"; "license"; "list"; "locals"; "long"; "map";
    "max"; "memoryview"; "min"; "next"; "object"; "oct"; "open"; "ord"; "pow";
    "print"; "property"; "quit"; "range"; "raw_input"; "reduce"; "reload";
    "repr"; "reversed"; "round"; "set"; "setattr"; "slice"; "sorted";
    "staticmethod"; "str"; "sum"; "super"; "tuple"; "type"; "unichr";
    "unicode"; "vars"; "xrange"; "zip" ].





Fixpoint dedup (xs : list string) : list string :=
  match xs with
  | [] => []
  | x :: xs' => x :: filter (fun y => negb (String.eqb x y)) (dedup xs')
  end.




(** *** Imports and call heads *)

Definition imported_modules (b : block) : list string :=
  flat_map (fun s => match s with
                     | SImport m _ | SFromImport m _ => [m]
                     | _ => []
                     end) (all_stmts b).

(** The aliases a block gives to modules, and the names it imports from them,
    each with the dotted name it stands for. *)
Definition import_table (b : block) : list (string * string) :=
  flat_map (fun s => match s with
                     | SImport m a => [(a, m)]
                     | SFromImport m xs => map (fun x => (x, m +:+ "." +:+ x)) xs
                     | _ => []
                     end) (all_stmts b).

Fixpoint assoc {A} (x : string) (l : list (string * A)) : option A :=
  match l with
  | [] => None
  | (y, a) :: l' => if String.eqb x y then Some a else assoc x l'
  end.

(** The callee expressions of the calls of a block. *)
Definition callees (b : block) : list expr :=
  flat_map (fun e => match e with ECall f _ _ => [f] | _ => [] end) (all_exprs b).

(** The dotted name of a callee that is a name or an attribute chain on a
    name, with its first component resolved through the imports of the block;
    [None] for any other callee, e.g. the result of a call. *)
Fixpoint dotted (tbl : list (string * string)) (e : expr) : option string :=
  match e with
  | EName x => Some (default x (assoc x tbl))
  | EAttr e1 a => (fun p => p +:+ "." +:+ a) <$> dotted tbl e1
  | _ => None
  end.

(** The path of any callee, given what the names stand for: a name, an
    attribute of a path, or the result of a call, written as the path of the
    call followed by "()"; [None] for a callee of another form. *)
Fixpoint callee_path (tbl : list (string * string)) (e : expr) : option string :=
  match e with
  | EName x => Some (default x (assoc x tbl))
  | EAttr e1 a => (fun p => p +:+ "." +:+ a) <$> callee_path tbl e1
  | ECall f _ _ => (fun p => p +:+ "()") <$> callee_path tbl f
  | _ => None
  end.

(** What a statement at the top level of a cell makes a name stand for: a
    module or a name of it for an import, the result of a call for the
    assignment of a call; any other binding makes the name stand for
    itself. *)
Definition bind_path (tbl : list (string * string)) (s : stmt)
    : list (string * string) :=
  match s with
  | SImport m a => (a, m) :: tbl
  | SFromImport m xs => map (fun x => (x, m +:+ "." +:+ x)) xs ++ tbl
  | SAssign (EName x) (ECall f _ _) =>
      (x, default x ((fun p => p +:+ "()") <$> callee_path tbl f)) :: tbl
  | SAssign (EName x) _ | SDef x _ _ | SFor x _ _ | SClass x _ _ => (x, x) :: tbl
  | _ => tbl
  end.

(** The path of the callee of every call of a block, bodies included, in the
    order of [callees]; the names are resolved by the statements before the
    one that holds the call. *)
Fixpoint paths_from (tbl : list (string * string)) (b : block) : list (option string) :=
  match b with
  | [] => []
  | s :: b' => map (callee_path tbl) (callees [s]) ++ paths_from (bind_path tbl s) b'
  end.

Definition call_paths (b : block) : list (option string) := paths_from [] b.
Definition named_paths (b : block) : list string := flat_map opt_list (call_paths b).

(** A path that starts with one of the modules [ms]. *)
Definition rooted_in (ms : list string) (p : string) : bool :=
  existsb (fun m => String.prefix (m +:+ ".") p) ms.

(** *** Where callees and assigned values come from *)

(** The origin of a value, read off the expression that produces it: the
    external libraries, a Python builtin, a function the notebook defines, or
    plain Python data (numbers, strings, lists, tuples, dicts). *)
Inductive origin := FromLibrary | FromBuiltin | FromNotebook | FromData | Unknown.

Definition origin_eqb (a b : origin) : bool :=
  match a, b with
  | FromLibrary, FromLibrary | FromBuiltin, FromBuiltin
  | FromNotebook, FromNotebook | FromData, FromData | Unknown, Unknown => true
  | _, _ => false
  end.

(** [names x] is the origin of the value of the name [x], and [rets f] the
    origin of what the notebook's function [f] returns.  What a library
    object gives (an attribute, an item, the result of a call or of an
    operator) comes from the library. *)
Fixpoint expr_origin (names rets : string -> origin) (e : expr) : origin :=
  match e with
  | EName x => names x
  | ENone | EInt _ | EFloat _ _ | EStr _
  | EList _ | ETuple _ | EDict _ | ESlice _ _ => FromData
  | EAttr e1 _ =>
      match expr_origin names rets e1 with
      | FromLibrary => FromLibrary
      | _ => Unknown
      end
  | ESubscript e1 _ =>
      match expr_origin names rets e1 with
      | FromLibrary => FromLibrary
      | FromData => FromData
      | _ => Unknown
      end
  | ECall f _ _ =>
      match expr_origin names rets f with
      | FromLibrary => FromLibrary
      | FromBuiltin => FromData
      | FromNotebook =>
          match f with
          | EName g => rets g
          | _ => Unknown
          end
      | _ => Unknown
      end
  | EBinOp _ l r =>
      match expr_origin names rets l, expr_origin names rets r with
      | FromLibrary, _ | _, FromLibrary => FromLibrary
      | FromData, FromData => FromData
      | _, _ => Unknown
      end
  | EIfExp _ _ _ => Unknown
  | ELambda _ _ => FromNotebook
  end.

(** The origin of a name from the imports, the definitions and the builtins
    of a cell alone. *)
Definition name_origin0 (c : block) (x : string) : origin :=
  if mem x (map fst (import_table c)) then FromLibrary
  else if mem x (defined_functions c) then FromNotebook
  else if mem x (bound_names c) then Unknown
  else if mem x ["range"; "float"] then FromBuiltin
  else if mem x ["True"; "False"] then FromData
  else Unknown.

(** What a cell assigns to names: [x = e] gives [(x, e)], and [for x in e]
    gives [(x, e)] too, the items of [range(...)] being data like the list. *)
Definition assignments (c : block) : list (string * expr) :=
  flat_map (fun s => match s with
                     | SAssign (EName x) e => [(x, e)]
                     | SFor x e _ => [(x, e)]
                     | _ => []
                     end) (all_stmts c).

(** The origin of a name: a variable has the origin of the expression first
    assigned to it. *)
Definition name_origin (c : block) (x : string) : origin :=
  match name_origin0 c x with
  | Unknown =>
      match assoc x (assignments c) with
      | Some e => expr_origin (name_origin0 c) (fun _ => Unknown) e
      | None => Unknown
      end
  | o => o
  end.

(** The origin of what a function of the notebook returns. *)
Definition return_origin (c : block) (f : string) : origin :=
  match flat_map (fun s => match s with
                           | SDef g _ body =>
                               if String.eqb f g
                               then flat_map (fun t => match t with
                                                       | SReturn e => [e]
                                                       | _ => []
                                                       end) (flat_map substmts body)
                               else []
                           | _ => []
                           end) (all_stmts c) with
  | e :: _ => expr_origin (name_origin c) (fun _ => Unknown) e
  | [] => FromData
  end.

Definition origin_in (c : block) (e : expr) : origin :=
  expr_origin (name_origin c) (return_origin c) e.

(** The callees of a cell with their origins, and the assigned values with
    theirs. *)
Definition callee_origins (c : block) : list (expr * origin) :=
  map (fun f => (f, origin_in c f)) (callees c).

Definition assigned_origins (c : block) : list (expr * origin) :=
  flat_map (fun s => match s with
                     | SAssign t e => [(t, origin_in c e)]
                     | _ => []
                     end) (all_stmts c).

(** The functions of the notebook that a cell passes as an argument, each
    with the dotted name of the callee. *)
Definition functions_passed (c : block) : list (string * string) :=
  flat_map (fun e => match e with
                     | ECall f args kwargs =>
                         flat_map (fun a => match a with
                                            | EName g =>
                                                if mem g (defined_functions c)
                                                then [(default EmptyString
                                                         (dotted (import_table c) f), g)]
                                                else []
                                            | _ => []
                                            end) (args ++ map snd kwargs)
                     | _ => []
                     end) (all_exprs c).

(** *** Names of coordination machinery

    The Python 2.7 standard modules for threads, processes, scheduling,
    network protocols and caching of results, and the entry points of
    tensorflow 1.1 that coordinate threads and queues. *)
Definition coordination_modules : list string :=
  [ "thread"; "threading"; "multiprocessing"; "Queue"; "sched"; "signal";
    "subprocess"; "select"; "socket"; "asyncore"; "asynchat"; "SocketServer";
    "httplib"; "urllib"; "urllib2"; "ftplib"; "smtplib"; "xmlrpclib";
    "atexit"; "weakref"; "shelve"; "linecache" ].

Definition coordination_apis : list string :=
  [ "tensorflow.train.Coordinator"; "tensorflow.train.QueueRunner";
    "tensorflow.train.start_queue_runners"; "tensorflow.train.add_queue_runner";
    "tensorflow.train.Supervisor"; "tensorflow.train.Server";
    "tensorflow.train.ClusterSpec"; "tensorflow.train.batch";
    "tensorflow.train.shuffle_batch"; "tensorflow.FIFOQueue";
    "tensorflow.RandomShuffleQueue"; "tensorflow.PaddingFIFOQueue";
    "tensorflow.PriorityQueue"; "tensorflow.QueueBase"; "tensorflow.device";
    "tensorflow.Session"; "tensorflow.InteractiveSession" ].

(** The statements the cells are made of. *)
Definition is_plain (s : stmt) : bool :=
  match s with
  | SImport _ _ | SFromImport _ _ | SAssign _ _ | SExpr _
  | SDef _ _ _ | SReturn _ | SFor _ _ _ => true
  | _ => false
  end.

(** The operator expressions of a cell whose operands are plain data. *)
Definition data_binops (c : block) : list expr :=
  filter (fun e => origin_eqb (origin_in c e) FromData) (binops c).

End Static.

(** ** Values, and the external libraries *)

Module Sem.
Import Static.

(** A Python exception: its class and its message. *)
Record exn := Exn { exn_class : string; exn_msg : string }.

(** What the libraries hand out is opaque to a cell: an object the library
    returned ([LObj], with a handle the library chose) or an attribute
    selected on one ([LAttr]): [tf.nn.softplus] is
    [LAttr (LAttr m "nn") "softplus"] for the module object [m]. *)
Inductive libref :=
| LObj (h : N)
| LAttr (r : libref) (a : string).

(** Python values.  Lists are mutable and shared, so a list value is a
    reference into the heap of the interpreter state.  Floats are IEEE 754
    binary64. *)
Inductive value :=
| VNone
| VBool (b : bool)
| VInt (z : Z)
| VFloat (f : spec_float)
| VStr (s : string)
| VTuple (vs : list value)
| VSlice (lo hi : value)
| VDict (kvs : list (value * value))
| VList (a : nat)
| VFunc (name : string) (params : list string) (body : block)
| VBuiltin (name : string)
| VLib (r : libref).

Definition heap_t := list (list value).

(** What a cell asks of the libraries. *)
Inductive request :=
| RImport (m : string)
| RCall (f : libref) (args : list value) (kwargs : list (string * value))
| RBinOp (op : binop) (a b : value)
| RGetItem (o : libref) (i : value)
| RSetItem (o : libref) (i v : value).

Inductive reply :=
| Returned (h : N)
| Threw (e : exn).

(** *** Numbers *)

Definition prec : Z := 53.
Definition emax : Z := 1024.

Definition float_of_Z (z : Z) : spec_float := binary_normalize prec emax z 0 false.

(** The float nearest to the decimal [m * 10^e] (for a negative [e]: as long
    as [m] and [10^-e] are floats themselves, which holds up to 15 digits). *)
Definition float_of_literal (m e : Z) : spec_float :=
  if Z.leb 0 e then float_of_Z (m * 10 ^ e)
  else SFdiv prec emax (float_of_Z m) (float_of_Z (10 ^ (- e))).

Definition is_zero (f : spec_float) : bool :=
  match f with S754_zero _ => true | _ => false end.
Definition is_infinite (f : spec_float) : bool :=
  match f with S754_infinity _ => true | _ => false end.

Definition as_index (v : value) : option Z :=
  match v with
  | VInt z => Some z
  | VBool b => Some (if b then 1 else 0)
  | _ => None
  end.

Definition type_name (v : value) : string :=
  match v with
  | VNone => "NoneType" | VBool _ => "bool" | VInt _ => "int"
  | VFloat _ => "float" | VStr _ => "str" | VTuple _ => "tuple"
  | VSlice _ _ => "slice" | VDict _ => "dict" | VList _ => "list"
  | VFunc _ _ _ => "function" | VBuiltin _ => "builtin_function_or_method"
  | VLib _ => "object"
  end.

Definition op_symbol (op : binop) : string :=
  match op with Add => "+" | Sub => "-" | Mult => "*" | Div => "/" end.

(** The one-character string holding a double quote. *)
Definition dquote : string :=
  String (Ascii.Ascii false true false false false true false false) EmptyString.

Definition name_error (x : string) : exn :=
  Exn "NameError" ("name '" +:+ x +:+ "' is not defined").
Definition global_name_error (x : string) : exn :=
  Exn "NameError" ("global name '" +:+ x +:+ "' is not defined").
Definition unbound_local_error (x : string) : exn :=
  Exn "UnboundLocalError"
      ("local variable '" +:+ x +:+ "' referenced before assignment").
Definition type_error (msg : string) : exn := Exn "TypeError" msg.
Definition seq_repeat_error (v : value) : exn :=
  type_error ("can't multiply sequence by non-int of type '" +:+ type_name v +:+ "'").
Definition operand_error (op : binop) (a b : value) : exn :=
  type_error ("unsupported operand type(s) for " +:+ op_symbol op +:+ ": '"
              +:+ type_name a +:+ "' and '" +:+ type_name b +:+ "'").

(** ** The interpreter state and its monad *)

(** The frame of a running function: the names that are local to it (its
    parameters and the names its body binds) and their values so far. *)
Record frame := Frame { fr_names : list string; fr_vars : gmap string value }.

(** How a computation ends: with a result, with a Python exception, out of
    fuel, or at a construct this model does not cover. *)
Inductive res (A : Type) :=
| Ok (a : A)
| Exc (e : exn)
| OutOfFuel
| Unsupported (what : string).
Arguments Ok {A} a.
Arguments Exc {A} e.
Arguments OutOfFuel {A}.
Arguments Unsupported {A} what.

(** Reading and writing a variable in a namespace. *)
Definition env_get (x : string) (g : gmap string value) : option value := g !! x.
Definition env_set (x : string) (v : value) (g : gmap string value)
    : gmap string value := <[x := v]> g.

(** The heap: a new list gets the next free address. *)
Definition heap_next (h : heap_t) : nat := length h.
Definition heap_push (l : list value) (h : heap_t) : heap_t := h ++ [l].
Definition heap_get (a : nat) (h : heap_t) : option (list value) := h !! a.
Definition heap_set (a : nat) (l : list value) (h : heap_t) : heap_t := <[a := l]> h.

(** The log of requests: the newest is last. *)
Definition log_request (r : request) (rep : reply) (tr : list (request * reply))
    : list (request * reply) := tr ++ [(r, rep)].

Section Interpreter.

(** The state of the libraries, and how they answer a request; the heap is
    passed along so that list arguments can be read. *)
Context {L : Type}.
Variable lib : request -> heap_t -> L -> reply * L.

Record state := State {
  globals : gmap string value;
  locals : option frame;
  heap : heap_t;
  ext : L;
  trace : list (request * reply)
}.

Definition M (A : Type) : Type := state -> res A * state.

Definition ret {A} (a : A) : M A := fun st => (Ok a, st).
Definition raise {A} (e : exn) : M A := fun st => (Exc e, st).
Definition unsupported {A} (what : string) : M A := fun st => (Unsupported what, st).
Definition out_of_fuel {A} : M A := fun st => (OutOfFuel, st).

Definition bind {A B} (m : M A) (k : A -> M B) : M B :=
  fun st =>
    match m st with
    | (Ok a, st') => k a st'
    | (Exc e, st') => (Exc e, st')
    | (OutOfFuel, st') => (OutOfFuel, st')
    | (Unsupported w, st') => (Unsupported w, st')
    end.

Notation "'let*' x ':=' m 'in' k" := (bind m (fun x => k))
  (at level 10, x pattern, m at level 100, k at level 200).

Definition set_globals (g : gmap string value) (st : state) : state :=
  State g (locals st) (heap st) (ext st) (trace st).
Definition set_locals (l : option frame) (st : state) : state :=
  State (globals st) l (heap st) (ext st) (trace st).
Definition set_heap (h : heap_t) (st : state) : state :=
  State (globals st) (locals st) h (ext st) (trace st).

(** *** Names *)

(** The builtins this model provides. *)
Definition builtin (x : string) : option value :=
  if String.eqb x "True" then Some (VBool true)
  else if String.eqb x "False" then Some (VBool false)
  else if mem x ["range"; "float"] then Some (VBuiltin x)
  else None.

(** A global name: a global variable, or else a builtin; a name that is
    neither is an error. *)
Definition lookup_global (x : string) (err : exn) : M value :=
  fun st =>
    match env_get x (globals st) with
    | Some v => (Ok v, st)
    | None =>
        match builtin x with
        | Some v => (Ok v, st)
        | None =>
            if mem x python_builtins then (Unsupported "builtin", st)
            else (Exc err, st)
        end
    end.

(** Reading a name: in a function, a name that is local to it must have been
    assigned; any other name is a global or a builtin. *)
Definition lookup_name (x : string) : M value :=
  fun st =>
    match locals st with
    | Some fr =>
        if mem x (fr_names fr) then
          match env_get x (fr_vars fr) with
          | Some v => (Ok v, st)
          | None => (Exc (unbound_local_error x), st)
          end
        else lookup_global x (global_name_error x) st
    | None => lookup_global x (name_error x) st
    end.

(** Binding a name: in the frame inside a function, among the globals at the
    top level of a cell. *)
Definition bind_name (x : string) (v : value) : M unit :=
  fun st =>
    match locals st with
    | Some fr =>
        (Ok tt, set_locals (Some (Frame (fr_names fr) (env_set x v (fr_vars fr)))) st)
    | None => (Ok tt, set_globals (env_set x v (globals st)) st)
    end.

(** *** The heap of lists *)

Definition alloc (l : list value) : M value :=
  fun st => (Ok (VList (heap_next (heap st))), set_heap (heap_push l (heap st)) st).

Definition store (a : nat) (l : list value) : M unit :=
  fun st => (Ok tt, set_heap (heap_set a l (heap st)) st).

Definition deref (a : nat) : M (list value) :=
  fun st =>
    match heap_get a (heap st) with
    | Some l => (Ok l, st)
    | None => (Unsupported "dangling list reference", st)
    end.

(** *** Asking the libraries *)

Definition ask (r : request) : M value :=
  fun st =>
    let '(rep, l') := lib r (heap st) (ext st) in
    let st' := State (globals st) (locals st) (heap st) l' (log_request r rep (trace st)) in
    match rep with
    | Returned h => (Ok (VLib (LObj h)), st')
    | Threw e => (Exc e, st')
    end.

Definition is_lib (v : value) : bool :=
  match v with VLib _ => true | _ => false end.

(** *** Operators *)

Definition overflow_error : exn :=
  Exn "OverflowError" "long int too large to convert to float".

(** An integer as a float: the nearest one, unless the integer is beyond the
    range of floats. *)
Definition float_of_int (z : Z) : exn + spec_float :=
  if is_infinite (float_of_Z z) then inl overflow_error else inr (float_of_Z z).

(** An operand of float arithmetic: a float, or an integer as a float. *)
Definition to_float (v : value) : option (exn + spec_float) :=
  match v with
  | VFloat f => Some (inr f)
  | _ => float_of_int <$> as_index v
  end.

Definition int_arith (op : binop) (x y : Z) : M value :=
  match op with
  | Add => ret (VInt (x + y))
  | Sub => ret (VInt (x - y))
  | Mult => ret (VInt (x * y))
  | Div => (* Python 2: [/] on integers is floor division *)
      if y =? 0 then raise (Exn "ZeroDivisionError" "integer division or modulo by zero")
      else ret (VInt (x / y))
  end.

Definition float_arith (op : binop) (x y : exn + spec_float) : M value :=
  match x, y with
  | inl e, _ | inr _, inl e => raise e
  | inr x, inr y =>
      match op with
      | Add => ret (VFloat (SFadd prec emax x y))
      | Sub => ret (VFloat (SFsub prec emax x y))
      | Mult => ret (VFloat (SFmul prec emax x y))
      | Div =>
          if is_zero y then raise (Exn "ZeroDivisionError" "float division by zero")
          else ret (VFloat (SFdiv prec emax x y))
      end
  end.

Definition is_str_or_tuple (v : value) : bool :=
  match v with VStr _ | VTuple _ => true | _ => false end.

(** [l * n] for a list [l]: a new list, empty when [n <= 0]. *)
Definition repeat_list (a : nat) (n : Z) : M value :=
  let* l := deref a in alloc (mjoin (replicate (Z.to_nat n) l)).

(** Operators on lists: repetition and concatenation. *)
Definition seq_arith (op : binop) (a b : value) : M value :=
  match op, a, b with
  | Mult, VList r, _ =>
      match as_index b with
      | Some n => repeat_list r n
      | None => raise (seq_repeat_error b)
      end
  | Mult, _, VList r =>
      match as_index a with
      | Some n => repeat_list r n
      | None => raise (seq_repeat_error a)
      end
  | Add, VList r1, VList r2 =>
      let* l1 := deref r1 in let* l2 := deref r2 in alloc (l1 ++ l2)
  | Add, VList _, _ =>
      raise (type_error ("can only concatenate list (not " +:+ dquote
                         +:+ type_name b +:+ dquote +:+ ") to list"))
  | _, _, _ => raise (operand_error op a b)
  end.

(** A binary operator.  An operand that came from a library hands the
    operation to the library (its overloaded operator). *)
Definition binop_values (op : binop) (a b : value) : M value :=
  if is_lib a || is_lib b then ask (RBinOp op a b)
  else
    match as_index a, as_index b with
    | Some x, Some y => int_arith op x y
    | _, _ =>
        match to_float a, to_float b with
        | Some x, Some y => float_arith op x y
        | _, _ =>
            if is_str_or_tuple a || is_str_or_tuple b
            then unsupported "operator on str or tuple"
            else seq_arith op a b
        end
    end.

(** *** Attributes and subscripts *)

(** Selecting an attribute of a library object does not consult the library:
    the selection is recorded in the reference and the library sees it when
    the attribute is called or used. *)
Definition getattr (v : value) (a : string) : M value :=
  match v with
  | VLib r => ret (VLib (LAttr r a))
  | _ => unsupported "attribute of a builtin value"
  end.

(** A Python index into a sequence of length [len]; negative indices count
    from the end. *)
Definition norm_index (z : Z) (len : nat) : option nat :=
  let z' := if z <? 0 then z + Z.of_nat len else z in
  if (0 <=? z') && (z' <? Z.of_nat len) then Some (Z.to_nat z') else None.

Definition index_error (what : string) : exn :=
  Exn "IndexError" (what +:+ " index out of range").

Definition seq_item (kind : string) (l : list value) (i : value) : M value :=
  match as_index i with
  | Some z =>
      match norm_index z (length l) with
      | Some n =>
          match l !! n with
          | Some v => ret v
          | None => raise (index_error kind)
          end
      | None => raise (index_error kind)
      end
  | None =>
      match i with
      | VSlice _ _ => unsupported "slicing"
      | VLib _ => unsupported "library object as an index"
      | _ => raise (type_error (kind +:+ " indices must be integers, not " +:+ type_name i))
      end
  end.

(** [o[i]] *)
Definition getitem (o i : value) : M value :=
  match o with
  | VLib r => ask (RGetItem r i)
  | VList a => let* l := deref a in seq_item "list" l i
  | VTuple vs => seq_item "tuple" vs i
  | VStr _ | VDict _ => unsupported "subscript of a str or dict"
  | _ => raise (type_error ("'" +:+ type_name o +:+ "' object has no attribute '__getitem__'"))
  end.

(** [o[i] = v] *)
Definition setitem (o i v : value) : M unit :=
  match o with
  | VLib r => let* _ := ask (RSetItem r i v) in ret tt
  | VList a =>
      let* l := deref a in
      match as_index i with
      | Some z =>
          match norm_index z (length l) with
          | Some n => store a (<[n := v]> l)
          | None => raise (index_error "list assignment")
          end
      | None =>
          match i with
          | VSlice _ _ => unsupported "slicing"
          | VLib _ => unsupported "library object as an index"
          | _ => raise (type_error ("list indices must be integers, not " +:+ type_name i))
          end
      end
  | VDict _ => unsupported "assignment into a dict"
  | _ => raise (type_error ("'" +:+ type_name o
                            +:+ "' object does not support item assignment"))
  end.

(** *** Truth values and iteration *)

Definition truthy (v : value) : M bool :=
  match v with
  | VNone => ret false
  | VBool b => ret b
  | VInt z => ret (negb (z =? 0))
  | VFloat f => ret (negb (is_zero f))
  | VStr s => ret (negb (String.eqb s EmptyString))
  | VTuple vs => ret (negb (Nat.eqb (length vs) 0))
  | VDict kvs => ret (negb (Nat.eqb (length kvs) 0))
  | VList a => let* l := deref a in ret (negb (Nat.eqb (length l) 0))
  | VSlice _ _ | VFunc _ _ _ | VBuiltin _ => ret true
  | VLib _ => unsupported "truth value of a library object"
  end.

(** The items a [for] loop runs over: those the list holds when the loop
    starts. *)
Definition iterate (v : value) : M (list value) :=
  match v with
  | VList a => deref a
  | VTuple vs => ret vs
  | VStr _ | VDict _ | VLib _ => unsupported "iteration over a str, dict or library object"
  | _ => raise (type_error ("'" +:+ type_name v +:+ "' object is not iterable"))
  end.

(** *** Builtin functions *)

(** Python 2: [range(n)] is the list [0, 1, ..., n-1]. *)
Definition range_list (n : Z) : list value := VInt <$> seqZ 0 n.

Definition builtin_range (args : list value) (kwargs : list (string * value)) : M value :=
  match args, kwargs with
  | [v], [] =>
      match as_index v with
      | Some n => alloc (range_list n)
      | None =>
          if is_lib v then unsupported "range of a library object"
          else raise (type_error ("range() integer end argument expected, got "
                                  +:+ type_name v +:+ "."))
      end
  | _, _ => unsupported "range with several arguments"
  end.

Definition builtin_float (args : list value) (kwargs : list (string * value)) : M value :=
  match args, kwargs with
  | [v], [] =>
      match to_float v with
      | Some (inr f) => ret (VFloat f)
      | Some (inl e) => raise e
      | None =>
          match v with
          | VStr _ | VLib _ => unsupported "float of a str or library object"
          | _ => raise (type_error "float() argument must be a string or a number")
          end
      end
  | _, _ => unsupported "float with several arguments"
  end.

Definition call_builtin (name : string) (args : list value)
    (kwargs : list (string * value)) : M value :=
  if String.eqb name "range" then builtin_range args kwargs
  else if String.eqb name "float" then builtin_float args kwargs
  else unsupported "unknown builtin".

(** *** Functions of the notebook *)

(** A [def] or [lambda] at the top level of a cell makes a function whose
    free names are globals; inside a function it would make a closure, which
    is not modelled. *)
Definition make_function (name : string) (ps : list string) (body : block) : M value :=
  fun st =>
    match locals st with
    | None => (Ok (VFunc name ps body), st)
    | Some _ => (Unsupported "nested function", st)
    end.

Definition return_value (v : value) : M (option value) :=
  fun st =>
    match locals st with
    | Some _ => (Ok (Some v), st)
    | None => (Unsupported "return outside function", st)
    end.

(** Calling a function of the notebook: the body runs in a new frame, and the
    caller's frame is back in place afterwards, however the body ends. *)
Definition call_function (run : block -> M (option value))
    (name : string) (ps : list string) (body : block) (args : list value) : M value :=
  fun st =>
    let fr := Frame (ps ++ bound_names body) (list_to_map (zip ps args)) in
    let '(r, st') := run body (set_locals (Some fr) st) in
    (match r with
     | Ok (Some v) => Ok v
     | Ok None => Ok VNone
     | Exc e => Exc e
     | OutOfFuel => OutOfFuel
     | Unsupported w => Unsupported w
     end, set_locals (locals st) st').

(** A call: to the libraries, to a builtin, or to a function of the notebook. *)
Definition apply_function (run : block -> M (option value))
    (fv : value) (args : list value) (kwargs : list (string * value)) : M value :=
  match fv with
  | VLib r => ask (RCall r args kwargs)
  | VBuiltin b => call_builtin b args kwargs
  | VFunc name ps body =>
      match kwargs with
      | [] =>
          if Nat.eqb (length args) (length ps) then call_function run name ps body args
          else raise (type_error (name +:+ "() takes exactly " +:+ pretty (length ps)
                                  +:+ " arguments (" +:+ pretty (length args)
                                  +:+ " given)"))
      | _ => unsupported "keyword arguments to a function of the notebook"
      end
  | _ => raise (type_error ("'" +:+ type_name fv +:+ "' object is not callable"))
  end.

(** *** Sequencing *)

(** Positional arguments and list items: left to right. *)
Fixpoint eval_list (ev : expr -> M value) (es : list expr) : M (list value) :=
  match es with
  | [] => ret []
  | e :: es' => let* v := ev e in let* vs := eval_list ev es' in ret (v :: vs)
  end.

(** Keyword arguments: in source order. *)
Fixpoint eval_kwargs (ev : expr -> M value) (kws : list (string * expr))
    : M (list (string * value)) :=
  match kws with
  | [] => ret []
  | (k, e) :: kws' =>
      let* v := ev e in let* vs := eval_kwargs ev kws' in ret ((k, v) :: vs)
  end.

(** The items of a dict display: Python 2.7 evaluates each value before its
    key.  The keys of the notebook's dicts are library objects, whose
    hashing and equality are the library's, so the display is kept as the
    list of its items and no key is hashed or compared.  This is what Python
    builds when the keys are library objects that the library tells apart;
    a key that is a list (unhashable in Python) or two keys that are equal
    (merged in Python) are outside the model. *)
Fixpoint eval_items (ev : expr -> M value) (kvs : list (expr * expr))
    : M (list (value * value)) :=
  match kvs with
  | [] => ret []
  | (k, e) :: kvs' =>
      let* v := ev e in
      let* kv := ev k in
      let* rest := eval_items ev kvs' in
      ret ((kv, v) :: rest)
  end.

Definition eval_opt (ev : expr -> M value) (o : option expr) : M value :=
  match o with
  | Some e => ev e
  | None => ret VNone
  end.

(** A block stops at the first statement that does not complete normally:
    at a [return] ([Some v]), at an exception, or when fuel runs out. *)
Fixpoint run_block (ex : stmt -> M (option value)) (ss : block) : M (option value) :=
  match ss with
  | [] => ret None
  | s :: ss' =>
      let* r := ex s in
      match r with
      | Some v => ret (Some v)
      | None => run_block ex ss'
      end
  end.

Fixpoint for_each (body : value -> M (option value)) (items : list value)
    : M (option value) :=
  match items with
  | [] => ret None
  | v :: items' =>
      let* r := body v in
      match r with
      | Some w => ret (Some w)
      | None => for_each body items'
      end
  end.

(** [from m import x1, ..., xn] binds each name to that attribute of [m]. *)
Fixpoint import_names (m : value) (xs : list string) : M (option value) :=
  match xs with
  | [] => ret None
  | x :: xs' =>
      let* v := getattr m x in
      let* _ := bind_name x v in
      import_names m xs'
  end.

(** Whether [except cls:] handles [e].  Only the class itself and the two
    roots of the hierarchy are decided; [None] stands for a handler the model
    cannot decide. *)
Definition handles (cls : option string) (e : exn) : option bool :=
  match cls with
  | None => Some true
  | Some c =>
      if String.eqb c (exn_class e) then Some true
      else if mem c ["Exception"; "BaseException"] then Some true
      else None
  end.

Definition try_block (body : M (option value)) (cls : option string)
    (handler : M (option value)) : M (option value) :=
  fun st =>
    match body st with
    | (Exc e, st') =>
        match handles cls e with
        | Some true => handler st'
        | _ => (Unsupported "exception hierarchy", st')
        end
    | other => other
    end.

(** *** Expressions and statements

    One layer of the interpreter: [ev] and [ex] evaluate the subexpressions
    and run the statements of bodies. *)
Definition eval_step (ev : expr -> M value) (ex : stmt -> M (option value))
    (e : expr) : M value :=
  match e with
  | EName x => lookup_name x
  | ENone => ret VNone
  | EInt z => ret (VInt z)
  | EFloat m x => ret (VFloat (float_of_literal m x))
  | EStr s => ret (VStr s)
  | EList es => let* vs := eval_list ev es in alloc vs
  | ETuple es => let* vs := eval_list ev es in ret (VTuple vs)
  | EDict kvs => let* items := eval_items ev kvs in ret (VDict items)
  | EAttr e1 a => let* v := ev e1 in getattr v a
  | ECall fe args kwargs =>
      let* fv := ev fe in
      let* vs := eval_list ev args in
      let* kvs := eval_kwargs ev kwargs in
      apply_function (run_block ex) fv vs kvs
  | EBinOp op l r =>
      let* a := ev l in
      let* b := ev r in
      binop_values op a b
  | ESubscript e1 i =>
      let* o := ev e1 in
      let* iv := ev i in
      getitem o iv
  | ESlice lo hi =>
      let* a := eval_opt ev lo in
      let* b := eval_opt ev hi in
      ret (VSlice a b)
  | EIfExp c a b =>
      let* cv := ev c in
      let* t := truthy cv in
      if t then ev a else ev b
  | ELambda ps body => make_function "<lambda>" ps [SReturn body]
  end.

Definition exec_step (ev : expr -> M value) (ex : stmt -> M (option value))
    (s : stmt) : M (option value) :=
  match s with
  | SImport m a =>
      let* v := ask (RImport m) in
      let* _ := bind_name a v in
      ret None
  | SFromImport m xs =>
      let* v := ask (RImport m) in
      import_names v xs
  | SAssign (EName x) e =>
      let* v := ev e in
      let* _ := bind_name x v in
      ret None
  | SAssign (ESubscript c i) e =>
      let* v := ev e in
      let* o := ev c in
      let* iv := ev i in
      let* _ := setitem o iv v in
      ret None
  | SAssign _ _ => unsupported "assignment target"
  | SExpr e => let* _ := ev e in ret None
  | SDef name ps body =>
      let* fn := make_function name ps body in
      let* _ := bind_name name fn in
      ret None
  | SReturn e => let* v := ev e in return_value v
  | SFor x it body =>
      let* iv := ev it in
      let* items := iterate iv in
      for_each (fun v => let* _ := bind_name x v in run_block ex body) items
  | SWhile c body =>
      let* cv := ev c in
      let* t := truthy cv in
      if t then
        let* r := run_block ex body in
        match r with
        | Some v => ret (Some v)
        | None => ex (SWhile c body)
        end
      else ret None
  | SIf c a b =>
      let* cv := ev c in
      let* t := truthy cv in
      if t then run_block ex a else run_block ex b
  | STry body cls handler =>
      try_block (run_block ex body) cls (run_block ex handler)
  | SClass _ _ _ => unsupported "class definition"
  | SPass => ret None
  end.

(** The interpreter.  [fuel] bounds the nesting depth of the evaluation
    (expressions inside statements, bodies inside loops and calls) and the
    number of iterations of a [while] loop; a [for] loop takes no fuel per
    iteration. *)
Fixpoint eval (fuel : nat) (e : expr) {struct fuel} : M value :=
  match fuel with
  | O => out_of_fuel
  | S f => eval_step (eval f) (exec f) e
  end
with exec (fuel : nat) (s : stmt) {struct fuel} : M (option value) :=
  match fuel with
  | O => out_of_fuel
  | S f => exec_step (eval f) (exec f) s
  end.

(** Running a cell: its statements in order, at the top level. *)
Definition run_cell (fuel : nat) (c : block) : M (option value) :=
  run_block (exec fuel) c.

(** Running cells one after the other, as long as they complete. *)
Fixpoint run_cells (fuel : nat) (cs : list block) : M (option value) :=
  match cs with
  | [] => ret None
  | c :: cs' => let* _ := run_cell fuel c in run_cells fuel cs'
  end.

(** A fresh interpreter.  (The names a Jupyter kernel adds to the namespace,
    [In], [Out], [_] and the like, are left out: no cell reads them.) *)
Definition fresh (l : L) : state := State ∅ None [] l [].

(** The requests made between two states. *)
Definition requests (st : state) : list request := fst <$> trace st.

End Interpreter.

(** *** A library to run the cells against

    Every request succeeds and returns a new object; the state counts the
    objects handed out. *)
Definition counting_lib (r : request) (h : heap_t) (n : N) : reply * N :=
  (Returned n, N.succ n).

End Sem.
Import Static Sem.

(** ** Reasoning about runs

    A cell is run against an arbitrary library, so a run is followed step by
    step: [wp m st Q] says that [Q] holds of the result and final state of
    [m] started in [st]. *)

Lemma env_get_set_eq x v g : env_get x (env_set x v g) = Some v.
Proof. apply lookup_insert_eq. Qed.

Lemma env_get_set_ne x y v g : x <> y -> env_get x (env_set y v g) = env_get x g.
Proof. intros. apply lookup_insert_ne. congruence. Qed.

Lemma env_get_empty x : env_get x ∅ = None.
Proof. apply lookup_empty. Qed.

Lemma heap_next_push l h : heap_next (heap_push l h) = S (heap_next h).
Proof. unfold heap_next, heap_push. rewrite length_app. simpl. lia. Qed.

Lemma heap_get_push_eq l h : heap_get (heap_next h) (heap_push l h) = Some l.
Proof. unfold heap_get, heap_next, heap_push. apply list_lookup_middle. reflexivity. Qed.

Lemma heap_get_push_lt a l h :
  (a < heap_next h)%nat -> heap_get a (heap_push l h) = heap_get a h.
Proof. unfold heap_get, heap_next, heap_push. intros. by apply lookup_app_l. Qed.

Lemma log_request_app r rep tr : log_request r rep tr = tr ++ [(r, rep)].
Proof. reflexivity. Qed.

Lemma length_range_list n : length (range_list n) = Z.to_nat n.
Proof. unfold range_list. rewrite length_fmap. apply length_seqZ. Qed.

Section Reasoning.
Context {L : Type} (lib : request -> heap_t -> L -> reply * L).

Local Abbreviation state := (state (L:=L)).

Definition wp {A} (m : M A) (st : state) (Q : res A -> state -> Prop) : Prop :=
  Q (fst (m st)) (snd (m st)).

Lemma wp_run {A} (m : M A) st Q : wp m st Q -> exists r st', m st = (r, st') /\ Q r st'.
Proof. unfold wp. destruct (m st) as [r st']. eauto. Qed.

Lemma wp_eq {A} (m : M A) st r st' Q : m st = (r, st') -> Q r st' -> wp m st Q.
Proof. unfold wp. intros ->. auto. Qed.

Lemma wp_mono {A} (m : M A) st (Q Q' : res A -> state -> Prop) :
  wp m st Q -> (forall r st', Q r st' -> Q' r st') -> wp m st Q'.
Proof. unfold wp. auto. Qed.

(** The postcondition of the first half of a [bind]. *)
Definition bindQ {A B} (k : A -> M B) (Q : res B -> state -> Prop)
    : res A -> state -> Prop :=
  fun r st' =>
    match r with
    | Ok a => wp (k a) st' Q
    | Exc e => Q (Exc e) st'
    | OutOfFuel => Q OutOfFuel st'
    | Unsupported w => Q (Unsupported w) st'
    end.

Lemma wp_bind {A B} (m : M A) (k : A -> M B) st Q :
  wp m st (bindQ k Q) -> wp (bind m k) st Q.
Proof.
  unfold wp, bind, bindQ. destruct (m st) as [[a|e| |w] st']; simpl; auto.
Qed.

Lemma wp_ask r g lc hp l tr Q :
  (forall h l', lib r hp l = (Returned h, l') ->
     Q (Ok (VLib (LObj h))) (State g lc hp l' (log_request r (Returned h) tr))) ->
  (forall e l', lib r hp l = (Threw e, l') ->
     Q (Exc e) (State g lc hp l' (log_request r (Threw e) tr))) ->
  wp (ask lib r) (State g lc hp l tr) Q.
Proof.
  unfold wp, ask. simpl. destruct (lib r hp l) as [[h|e] l'] eqn:E; simpl; auto.
Qed.

(** One layer of the interpreter and of its list traversals. *)
Lemma wp_eval f e st Q :
  wp (eval_step lib (eval lib f) (exec lib f) e) st Q -> wp (eval lib (S f) e) st Q.
Proof. auto. Qed.

Lemma wp_exec f s st Q :
  wp (exec_step lib (eval lib f) (exec lib f) s) st Q -> wp (exec lib (S f) s) st Q.
Proof. auto. Qed.

Lemma wp_run_block_cons ex s ss (st : state) Q :
  wp (bind (ex s) (fun r => match r with
                            | Some v => ret (Some v)
                            | None => run_block ex ss
                            end)) st Q ->
  wp (run_block ex (s :: ss)) st Q.
Proof. auto. Qed.

Lemma wp_eval_list_cons ev e es (st : state) Q :
  wp (bind (ev e) (fun v => bind (eval_list ev es) (fun vs => ret (v :: vs)))) st Q ->
  wp (eval_list ev (e :: es)) st Q.
Proof. auto. Qed.

Lemma wp_eval_kwargs_cons ev k e kws (st : state) Q :
  wp (bind (ev e) (fun v => bind (eval_kwargs ev kws) (fun vs => ret ((k, v) :: vs))))
     st Q ->
  wp (eval_kwargs ev ((k, e) :: kws)) st Q.
Proof. auto. Qed.

Lemma wp_eval_items_cons ev k e kvs (st : state) Q :
  wp (bind (ev e) (fun v => bind (ev k) (fun kv =>
        bind (eval_items ev kvs) (fun rest => ret ((kv, v) :: rest))))) st Q ->
  wp (eval_items ev ((k, e) :: kvs)) st Q.
Proof. auto. Qed.

Lemma wp_import_names_cons m x xs (st : state) Q :
  wp (bind (getattr m x) (fun v => bind (bind_name x v) (fun _ => import_names m xs)))
     st Q ->
  wp (import_names m (x :: xs)) st Q.
Proof. auto. Qed.

Lemma wp_for_each_cons body v items (st : state) Q :
  wp (bind (body v) (fun r => match r with
                              | Some w => ret (Some w)
                              | None => for_each body items
                              end)) st Q ->
  wp (for_each body (v :: items)) st Q.
Proof. auto. Qed.

(** Operations on a library object go to the library. *)
Lemma wp_apply_lib run r args kwargs (st : state) Q :
  wp (ask lib (RCall r args kwargs)) st Q ->
  wp (apply_function lib run (VLib r) args kwargs) st Q.
Proof. auto. Qed.

Lemma wp_binop_lib_l op r b (st : state) Q :
  wp (ask lib (RBinOp op (VLib r) b)) st Q -> wp (binop_values lib op (VLib r) b) st Q.
Proof. auto. Qed.

Lemma wp_binop_lib_r op a r (st : state) Q :
  wp (ask lib (RBinOp op a (VLib r))) st Q -> wp (binop_values lib op a (VLib r)) st Q.
Proof. unfold binop_values. simpl. rewrite orb_true_r. auto. Qed.

Lemma wp_getitem_lib r i (st : state) Q :
  wp (ask lib (RGetItem r i)) st Q -> wp (getitem lib (VLib r) i) st Q.
Proof. auto. Qed.

(** A call of a function of the notebook runs its body in a new frame. *)
Lemma wp_call_function run name ps body args (st : state) Q :
  wp (run body)
     (set_locals (Some (Frame (ps ++ bound_names body) (list_to_map (zip ps args)))) st)
     (fun r st' =>
        Q (match r with
           | Ok (Some v) => Ok v
           | Ok None => Ok VNone
           | Exc e => Exc e
           | OutOfFuel => OutOfFuel
           | Unsupported w => Unsupported w
           end) (set_locals (locals st) st')) ->
  wp (call_function run name ps body args) st Q.
Proof.
  unfold wp, call_function.
  destruct (run body _) as [r st']. auto.
Qed.

(** What a block does that is made of two parts. *)
Lemma run_block_app ex (a b : block) (st : state) :
  run_block ex (a ++ b) st =
  match run_block ex a st with
  | (Ok None, st1) => run_block ex b st1
  | other => other
  end.
Proof.
  revert st. induction a as [|s a IH]; intros st; simpl.
  - unfold ret. destruct (run_block ex b st); reflexivity.
  - unfold bind. destruct (ex s st) as [[[v|]|e| |w] st1]; simpl; auto.
Qed.

End Reasoning.

Global Opaque env_get env_set heap_next heap_push heap_get heap_set log_request
  float_of_literal float_of_Z range_list.

(** Stepping through a run.  The operations on the parts of the state that
    stay symbolic (namespaces, heap, log) are kept folded and simplified by
    their equations. *)
Ltac env_simpl :=
  repeat first
    [ rewrite env_get_set_eq
    | rewrite env_get_set_ne by (let H := fresh in intro H; discriminate H)
    | rewrite env_get_empty
    | rewrite heap_get_push_eq
    | match goal with H : env_get _ _ = _ |- _ => rewrite H end ].

(** One layer of the interpreter on a given expression or statement. *)
Ltac expose :=
  lazy beta match zeta delta
    [eval_step exec_step assign Normal ones zeros shape call tf ed np Dense var_zeros].

(** An operation that makes no request is computed. *)
Ltac prim := lazy; env_simpl; lazy; reflexivity.

(** One step: the next operation of the run; a request splits the run in two,
    the library returning or throwing. *)

Ltac step :=
  lazymatch goal with
  | |- wp (bind _ _) _ _ => apply wp_bind
  | |- wp (ask _ _) _ _ => apply wp_ask; [intros ?h ?l ?Hlib | intros ?e ?l ?Hlib]
  | |- wp (eval _ (S _) _) _ _ => apply wp_eval; expose
  | |- wp (exec _ (S _) _) _ _ => apply wp_exec; expose
  | |- wp (run_block _ (_ :: _)) _ _ => apply wp_run_block_cons
  | |- wp (eval_list _ (_ :: _)) _ _ => apply wp_eval_list_cons
  | |- wp (eval_kwargs _ (_ :: _)) _ _ => apply wp_eval_kwargs_cons
  | |- wp (eval_items _ (_ :: _)) _ _ => apply wp_eval_items_cons
  | |- wp (import_names _ (_ :: _)) _ _ => apply wp_import_names_cons
  | |- wp (for_each _ (_ :: _)) _ _ => apply wp_for_each_cons
  | |- wp (apply_function _ _ (VLib _) _ _) _ _ => apply wp_apply_lib
  | |- wp (binop_values _ _ (VLib _) _) _ _ => apply wp_binop_lib_l
  | |- wp (binop_values _ _ _ (VLib _)) _ _ => apply wp_binop_lib_r
  | |- wp (getitem _ (VLib _) _) _ _ => apply wp_getitem_lib
  | |- bindQ _ _ (Ok _) _ => unfold bindQ at 1; cbv beta match
  | |- bindQ _ _ (Exc _) _ => unfold bindQ at 1; cbv beta match
  | |- bindQ _ _ (Unsupported _) _ => unfold bindQ at 1; cbv beta match
  | |- wp (lookup_name _) _ _ => eapply wp_eq; [ prim | ]
  | |- wp (bind_name _ _) _ _ => eapply wp_eq; [ prim | ]
  | |- wp (ret _) _ _ => eapply wp_eq; [ prim | ]
  | |- wp (alloc _) _ _ => eapply wp_eq; [ prim | ]
  | |- wp (getattr _ _) _ _ => eapply wp_eq; [ prim | ]
  | |- wp (binop_values _ _ _ _) _ _ => eapply wp_eq; [ prim | ]
  | |- wp (apply_function _ _ (VBuiltin _) _ _) _ _ => eapply wp_eq; [ prim | ]
  | |- wp (iterate _) _ _ => eapply wp_eq; [ prim | ]
  | |- wp (make_function _ _ _) _ _ => eapply wp_eq; [ prim | ]
  | |- wp (return_value _) _ _ => eapply wp_eq; [ prim | ]
  | |- wp (eval_list _ []) _ _ => eapply wp_eq; [ prim | ]
  | |- wp (eval_kwargs _ []) _ _ => eapply wp_eq; [ prim | ]
  | |- wp (eval_items _ []) _ _ => eapply wp_eq; [ prim | ]
  | |- wp (run_block _ []) _ _ => eapply wp_eq; [ prim | ]
  | |- wp (import_names _ []) _ _ => eapply wp_eq; [ prim | ]
  | |- wp (for_each _ []) _ _ => eapply wp_eq; [ prim | ]
  end.

(** At the end of a run: the postcondition on the final state. *)
Ltac finish := cbv beta match; cbn [locals globals heap trace ext]; env_simpl.

(** ** Runs of the cells, against any library *)

Section Cells.
Context {L : Type} (lib : request -> heap_t -> L -> reply * L).

(** A run that ends in an uncaught exception. *)
Definition raises {A} (m : M A) (st : state (L:=L)) : Prop :=
  exists e st', m st = (Exc e, st').

(** *** Figure 13 *)

(** The sample drawn by [dp.sample(N)], the last request so far, is bound to
    [mu]. *)
Definition fig13_sample_in_mu (st : state (L:=L)) : Prop :=
  exists odp h tr,
    env_get "mu" (globals st) = Some (VLib (LObj h))
    /\ trace st = tr ++ [(RCall (LAttr odp "sample") [VInt 1000] [], Returned h)].

(** The statements before the last one leave [loc] and [x] as they were, and
    [Normal] bound to what was imported. *)
Lemma fig13_head_runs (fuel : nat) (st : state) :
  (6 <= fuel)%nat -> locals st = None ->
  wp (run_block (exec lib fuel) fig13_head) st (fun r st1 =>
     match r with
     | Ok None =>
         locals st1 = None
         /\ (exists r, env_get "Normal" (globals st1) = Some (VLib r))
         /\ env_get "loc" (globals st1) = env_get "loc" (globals st)
         /\ env_get "x" (globals st1) = env_get "x" (globals st)
         /\ fig13_sample_in_mu st1
     | Exc e => env_get "x" (globals st1) = env_get "x" (globals st)
     | _ => False
     end).
Proof.
  intros Hf Hl.
  do 6 (destruct fuel as [|fuel]; [lia|]).
  destruct st as [g lc hp l tr]; cbn [locals globals] in *; subst lc.
  unfold fig13_head.
  repeat step; finish; eauto 6.
  repeat split; eauto.
  unfold fig13_sample_in_mu. cbn [globals trace]. env_simpl.
  eexists _, _, _. split; [reflexivity|]. apply log_request_app.
Qed.

(** The last statement: [Normal] is looked up, then the keyword argument
    [loc=loc] is evaluated, which fails; [tf.ones] is not called. *)
Lemma fig13_last_raises (fuel : nat) (st : state) r :
  (3 <= fuel)%nat -> locals st = None ->
  env_get "Normal" (globals st) = Some (VLib r) ->
  env_get "loc" (globals st) = None ->
  exec lib fuel fig13_last st = (Exc (name_error "loc"), st).
Proof.
  intros Hf Hl HN Hloc.
  do 3 (destruct fuel as [|fuel]; [lia|]).
  destruct st as [g lc hp l tr]; cbn [locals globals] in *; subst lc.
  unfold fig13_last.
  match goal with
  | |- ?m ?s = (?r, ?s') => enough (wp m s (fun r0 s0 => (r0, s0) = (r, s'))) as H
  end.
  { unfold wp in H. destruct (exec _ _ _ _); exact H. }
  repeat step; finish; reflexivity.
Qed.

Lemma fig13_run (fuel : nat) (st : state) :
  (6 <= fuel)%nat -> locals st = None -> env_get "loc" (globals st) = None ->
  (forall st1, run_block (exec lib fuel) fig13_head st = (Ok None, st1) ->
     run_cell lib fuel fig13 st = (Exc (name_error "loc"), st1))
  /\ (exists e st', run_cell lib fuel fig13 st = (Exc e, st')
                    /\ env_get "x" (globals st') = env_get "x" (globals st)).
Proof.
  intros Hf Hl Hloc.
  pose proof (fig13_head_runs fuel st Hf Hl) as H.
  unfold wp in H. unfold run_cell, fig13. rewrite run_block_app.
  destruct (run_block (exec lib fuel) fig13_head st) as [[[v|]|e| |w] st1];
    cbn [fst snd] in H; try contradiction.
  - destruct H as (Hl1 & [r Hr] & Hloc1 & Hx & _).
    rewrite Hloc in Hloc1.
    assert (Hlast := fig13_last_raises fuel st1 r ltac:(lia) Hl1 Hr Hloc1).
    assert (run_block (exec lib fuel) [fig13_last] st1 = (Exc (name_error "loc"), st1)) as E.
    { simpl. unfold bind. rewrite Hlast. reflexivity. }
    rewrite E. split.
    + intros st2 [= <-]. reflexivity.
    + eauto.
  - split; [intros st2 [=] | eauto].
Qed.

(** *** Figure 11 *)

Definition fig11_N : list value := [VInt 11502; VInt 213; VInt 1523; VInt 1351].

(** What [[0] * N] raises when [N] is a list. *)
Definition fig11_error : exn :=
  type_error "can't multiply sequence by non-int of type 'list'".

(** The statements before [z = ...]: [N] is bound to a new list, the first
    one this cell allocates, and [z] is left as it was. *)
Lemma fig11_head_runs (fuel : nat) (st : state) :
  (6 <= fuel)%nat -> locals st = None ->
  wp (run_block (exec lib fuel) fig11_head) st (fun r st1 =>
     match r with
     | Ok None =>
         locals st1 = None
         /\ env_get "N" (globals st1) = Some (VList (heap_next (heap st)))
         /\ heap_get (heap_next (heap st)) (heap st1) = Some fig11_N
         /\ env_get "z" (globals st1) = env_get "z" (globals st)
     | Exc e => env_get "z" (globals st1) = env_get "z" (globals st)
     | _ => False
     end).
Proof.
  intros Hf Hl.
  do 6 (destruct fuel as [|fuel]; [lia|]).
  destruct st as [g lc hp l tr]; cbn [locals globals heap] in *; subst lc.
  unfold fig11_head.
  repeat step; finish; auto.
  repeat split; auto.
  rewrite !heap_get_push_lt by (rewrite ?heap_next_push; lia).
  apply heap_get_push_eq.
Qed.

(** The statement [z = [[0] * N] * D]: the list [[0]] is built, [N] is read,
    and the product fails; [D] is not read and [z] is not bound. *)
Lemma fig11_z_raises (fuel : nat) (st : state) a :
  (6 <= fuel)%nat -> locals st = None ->
  env_get "N" (globals st) = Some (VList a) ->
  exec lib fuel fig11_z st
  = (Exc fig11_error, set_heap (heap_push [VInt 0] (heap st)) st).
Proof.
  intros Hf Hl HN.
  do 6 (destruct fuel as [|fuel]; [lia|]).
  destruct st as [g lc hp l tr]; cbn [locals globals] in *; subst lc.
  unfold fig11_z.
  match goal with
  | |- ?m ?s = (?r, ?s') => enough (wp m s (fun r0 s0 => (r0, s0) = (r, s'))) as H
  end.
  { unfold wp in H. destruct (exec _ _ _ _); exact H. }
  repeat step; finish; reflexivity.
Qed.

Lemma fig11_run (fuel : nat) (st : state) :
  (6 <= fuel)%nat -> locals st = None ->
  (forall st1, run_block (exec lib fuel) fig11_head st = (Ok None, st1) ->
     env_get "N" (globals st1) = Some (VList (heap_next (heap st)))
     /\ heap_get (heap_next (heap st)) (heap st1) = Some fig11_N
     /\ run_cell lib fuel fig11 st
        = (Exc fig11_error, set_heap (heap_push [VInt 0] (heap st1)) st1))
  /\ run_cell lib fuel fig11 st = run_block (exec lib fuel) (fig11_head ++ [fig11_z]) st
  /\ (exists e st', run_cell lib fuel fig11 st = (Exc e, st')
                    /\ env_get "z" (globals st') = env_get "z" (globals st)).
Proof.
  intros Hf Hl.
  pose proof (fig11_head_runs fuel st Hf Hl) as H.
  unfold wp in H. unfold run_cell, fig11. rewrite !run_block_app.
  destruct (run_block (exec lib fuel) fig11_head st) as [[[v|]|e| |w] st1];
    cbn [fst snd] in H; try contradiction.
  - destruct H as (Hl1 & HN & Hh & Hz).
    assert (Hz1 := fig11_z_raises fuel st1 _ ltac:(lia) Hl1 HN).
    assert (forall tl, run_block (exec lib fuel) (fig11_z :: tl) st1
                       = (Exc fig11_error, set_heap (heap_push [VInt 0] (heap st1)) st1)) as E.
    { intros tl. simpl. unfold bind. rewrite Hz1. reflexivity. }
    rewrite !E. split; [|split].
    + intros st2 [= <-]. auto.
    + reflexivity.
    + eexists _, _. split; [reflexivity|]. destruct st1; exact Hz.
  - split; [intros st2 [=] | split; [reflexivity | eauto]].
Qed.

(** *** Variational EM *)

(** The request [o.update()]. *)
Definition update_of (o : libref) : request := RCall (LAttr o "update") [] [].

(** [n] rounds of E-step then M-step. *)
Definition em_rounds (oe om : libref) (n : nat) : list request :=
  mjoin (replicate n [update_of oe; update_of om]).

(** How [n] iterations of the loop can go, with the requests they log: every
    iteration asks for one E-step, then for one M-step, and the loop ends
    early only when the library throws. *)
Inductive em_run (oe om : libref)
    : nat -> res (option value) -> list (request * reply) -> Prop :=
| em_done : em_run oe om 0 (Ok None) []
| em_e_throws n e hp l l' :
    lib (update_of oe) hp l = (Threw e, l') ->
    em_run oe om (S n) (Exc e) [(update_of oe, Threw e)]
| em_m_throws n h e hp l l' :
    lib (update_of om) hp l = (Threw e, l') ->
    em_run oe om (S n) (Exc e) [(update_of oe, Returned h); (update_of om, Threw e)]
| em_round n h1 h2 r evs :
    em_run oe om n r evs ->
    em_run oe om (S n) r ((update_of oe, Returned h1) :: (update_of om, Returned h2) :: evs).

Lemma em_run_prefix oe om n r evs :
  em_run oe om n r evs -> (fst <$> evs) `prefix_of` em_rounds oe om n.
Proof.
  unfold em_rounds. induction 1; simpl.
  - reflexivity.
  - eexists. reflexivity.
  - eexists. reflexivity.
  - destruct IHem_run as [k ->]. eexists. reflexivity.
Qed.

Lemma em_run_complete oe om n evs :
  em_run oe om n (Ok None) evs -> fst <$> evs = em_rounds oe om n.
Proof.
  unfold em_rounds. remember (Ok None) as r eqn:Hr.
  induction 1; try discriminate; auto.
  simpl. do 2 f_equal. auto.
Qed.

Lemma em_run_outcome oe om n r evs :
  em_run oe om n r evs ->
  r = Ok None
  \/ exists e req pre, r = Exc e /\ evs = pre ++ [(req, Threw e)]
                       /\ Forall (fun ev => exists h, snd ev = Returned h) pre.
Proof.
  induction 1.
  - auto.
  - right. exists e, (update_of oe), []. auto.
  - right. exists e, (update_of om), [(update_of oe, Returned h)].
    repeat split; auto. repeat constructor. simpl. eauto.
  - destruct IHem_run as [->|(e & req & pre & -> & -> & Hp)]; auto.
    right. exists e, req, ((update_of oe, Returned h1) :: (update_of om, Returned h2) :: pre).
    repeat split; auto. repeat constructor; simpl; eauto.
Qed.

Lemma em_run_total oe om n r evs :
  (forall hp l, exists h l', lib (update_of oe) hp l = (Returned h, l')) ->
  (forall hp l, exists h l', lib (update_of om) hp l = (Returned h, l')) ->
  em_run oe om n r evs -> r = Ok None.
Proof.
  intros He Hm. induction 1; auto.
  - destruct (He hp l) as (h0 & l0 & E). congruence.
  - destruct (Hm hp l) as (h0 & l0 & E). congruence.
Qed.

(** The body of the loop, as the interpreter runs it on each item. *)
Definition em_body (fuel : nat) (v : value) : M (option value) :=
  bind (bind_name "_" v)
       (fun _ => run_block (exec lib fuel)
                   [ SExpr (ECall (EAttr (EName "inference_e") "update") [] []);
                     SExpr (ECall (EAttr (EName "inference_m") "update") [] []) ]).

Lemma em_iterations (fuel : nat) oe om (items : list value) :
  (4 <= fuel)%nat ->
  forall st : state,
  locals st = None ->
  env_get "inference_e" (globals st) = Some (VLib oe) ->
  env_get "inference_m" (globals st) = Some (VLib om) ->
  wp (for_each (em_body fuel) items) st (fun r st' =>
     exists evs, trace st' = trace st ++ evs /\ em_run oe om (length items) r evs).
Proof.
  intros Hf.
  do 4 (destruct fuel as [|fuel]; [lia|]).
  induction items as [|v items IH]; intros st Hl He Hm.
  - eapply wp_eq; [reflexivity|]. exists []. rewrite app_nil_r. split; [auto|constructor].
  - destruct st as [g lc hp l tr]; cbn [locals globals trace] in *; subst lc.
    unfold em_body at 1.
    repeat step; finish.
    + eapply wp_mono.
      * apply IH; cbn [locals globals]; env_simpl; auto.
      * cbn [trace]. intros r st' (evs & -> & Hrun).
        eexists (_ :: _ :: evs). rewrite !log_request_app, <- !app_assoc.
        split; [reflexivity|]. simpl. apply em_round. exact Hrun.
    + eexists [_; _]. rewrite !log_request_app, <- !app_assoc.
      split; [reflexivity|]. simpl. eapply em_m_throws. eassumption.
    + eexists [_]. rewrite !log_request_app.
      split; [reflexivity|]. simpl. eapply em_e_throws. eassumption.
Qed.

(** The loop: [range(10000)] builds the list of items, and the body runs on
    each. *)
Lemma em_loop_runs (fuel : nat) oe om (st : state) :
  (5 <= fuel)%nat ->
  locals st = None ->
  env_get "range" (globals st) = None ->
  env_get "inference_e" (globals st) = Some (VLib oe) ->
  env_get "inference_m" (globals st) = Some (VLib om) ->
  wp (exec lib fuel variational_em_loop) st (fun r st' =>
     exists evs, trace st' = trace st ++ evs
                 /\ em_run oe om (Z.to_nat 10000) r evs).
Proof.
  intros Hf Hl Hr He Hm.
  destruct fuel as [|fuel]; [lia|].
  assert (4 <= fuel)%nat as Hf' by lia.
  destruct st as [g lc hp l tr]; cbn [locals globals trace] in *; subst lc.
  unfold variational_em_loop.
  step. step.
  destruct fuel as [|fuel]; [lia|]. destruct fuel as [|fuel]; [lia|].
  repeat step.
  eapply wp_mono.
  - apply (em_iterations (S (S fuel)) oe om); cbn [locals globals]; auto.
  - cbn [trace]. intros r st' (evs & -> & Hrun).
    exists evs. split; [reflexivity|].
    rewrite length_range_list in Hrun. exact Hrun.
Qed.

(** The last four requests of the setup: [inference_e.initialize()],
    [inference_m.initialize()], and [tf.initialize_all_variables().run()],
    which is two calls. *)
Definition em_initialized (oe om : libref) (tr : list (request * reply)) : Prop :=
  exists pre otf h1 h2 h3 h4,
    tr = pre ++ [ (RCall (LAttr oe "initialize") [] [], Returned h1);
                  (RCall (LAttr om "initialize") [] [], Returned h2);
                  (RCall (LAttr otf "initialize_all_variables") [] [], Returned h3);
                  (RCall (LAttr (LObj h3) "run") [] [], Returned h4) ].

Lemma log_request_4 r1 a1 r2 a2 r3 a3 r4 a4 (tr : list (request * reply)) :
  log_request r4 a4 (log_request r3 a3 (log_request r2 a2 (log_request r1 a1 tr)))
  = tr ++ [(r1, a1); (r2, a2); (r3, a3); (r4, a4)].
Proof. rewrite !log_request_app, <- !app_assoc. reflexivity. Qed.

(** The statements before the loop.  When they complete, [inference_e] and
    [inference_m] are bound to the objects the library returned, both have
    been initialised, and [range] is as it was. *)
Lemma em_setup_runs (fuel : nat) (st : state) :
  (6 <= fuel)%nat -> locals st = None ->
  wp (run_block (exec lib fuel) variational_em_setup) st (fun r st1 =>
     match r with
     | Ok None =>
         locals st1 = None
         /\ env_get "range" (globals st1) = env_get "range" (globals st)
         /\ exists oe om,
              env_get "inference_e" (globals st1) = Some (VLib oe)
              /\ env_get "inference_m" (globals st1) = Some (VLib om)
              /\ em_initialized oe om (trace st1)
     | Ok (Some _) => False
     | Exc _ => True
     | _ => False
     end).
Proof.
  intros Hf Hl.
  do 6 (destruct fuel as [|fuel]; [lia|]).
  destruct st as [g lc hp l tr]; cbn [locals globals] in *; subst lc.
  unfold variational_em_setup.
  destruct (env_get "N" g) as [vN|] eqn:HN; [|repeat step; finish; auto].
  destruct (env_get "D" g) as [vD|] eqn:HD; [|repeat step; finish; auto].
  destruct (env_get "K" g) as [vK|] eqn:HK; [|repeat step; finish; auto].
  destruct (env_get "z" g) as [vz|] eqn:Hz; [|repeat step; finish; auto].
  destruct (env_get "x" g) as [vx|] eqn:Hx; [|repeat step; finish; auto].
  destruct (env_get "beta" g) as [vb|] eqn:Hb; [|repeat step; finish; auto].
  repeat step; finish; auto.
  repeat split; auto.
  eexists _, _. repeat split; try reflexivity.
  unfold em_initialized. eexists _, _, _, _, _, _. apply log_request_4.
Qed.

End Cells.

(** ** Exceptions are not caught

    In a program without [try], whatever the library throws ends the run at
    once and is its outcome.  This is shown for every program of the
    fragment, by induction on the fuel; the state must hold no function with
    a [try] in its body, which is so in a fresh interpreter and stays so. *)

(** Values that hold no function with a handler. *)
Fixpoint hf_value (v : value) : bool :=
  match v with
  | VFunc _ _ body => negb (has_handler body)
  | VTuple vs => forallb hf_value vs
  | VSlice a b => hf_value a && hf_value b
  | VDict kvs => forallb (fun kv => let '(k, w) := kv in hf_value k && hf_value w) kvs
  | _ => true
  end.

Definition hf (v : value) : Prop := hf_value v = true.
Definition hf_opt (o : option value) : Prop := forall v, o = Some v -> hf v.
Definition hf_stmt (s : stmt) : Prop := existsb is_try (substmts s) = false.

(** Replies that are all normal returns. *)
Definition quiet (evs : list (request * reply)) : Prop :=
  Forall (fun ev => exists h, snd ev = Returned h) evs.

(** What the requests of a run look like: all answered normally, or all but
    the last, which the library answered by throwing the exception the run
    ended with. *)
Definition final {A} (r : res A) (evs : list (request * reply)) : Prop :=
  quiet evs
  \/ exists e pre req, r = Exc e /\ evs = pre ++ [(req, Threw e)] /\ quiet pre.

Lemma forallb_hf vs : forallb hf_value vs = true <-> Forall hf vs.
Proof.
  induction vs as [|v vs IH]; simpl.
  - split; auto.
  - rewrite andb_true_iff, IH. split.
    + intros [? ?]. constructor; auto.
    + intros H. inversion H; subst. auto.
Qed.

Lemma has_handler_cons s ss :
  has_handler (s :: ss) = false -> hf_stmt s /\ has_handler ss = false.
Proof.
  unfold has_handler, hf_stmt, all_stmts. cbn [flat_map].
  rewrite existsb_app, orb_false_iff. auto.
Qed.

Lemma has_handler_app a b :
  has_handler (a ++ b) = false -> has_handler a = false /\ has_handler b = false.
Proof.
  unfold has_handler, all_stmts. rewrite flat_map_app, existsb_app, orb_false_iff. auto.
Qed.

Lemma hf_stmt_bodies s :
  hf_stmt s ->
  match s with
  | SDef _ _ b | SFor _ _ b | SWhile _ b | SClass _ _ b => has_handler b = false
  | SIf _ a b => has_handler a = false /\ has_handler b = false
  | STry _ _ _ => False
  | _ => True
  end.
Proof.
  unfold hf_stmt, has_handler, all_stmts.
  destruct s; cbn [substmts existsb is_try orb]; auto; try discriminate.
  rewrite existsb_app, orb_false_iff. auto.
Qed.

Section Propagation.
Context {L : Type} (lib : request -> heap_t -> L -> reply * L).

Local Abbreviation state := (state (L:=L)).

#[local] Transparent env_get env_set heap_next heap_push heap_get heap_set
  log_request range_list.

Record hf_state (st : state) : Prop := {
  hf_globals : map_Forall (fun _ v => hf v) (globals st);
  hf_locals : forall fr, locals st = Some fr -> map_Forall (fun _ v => hf v) (fr_vars fr);
  hf_heap : Forall (Forall hf) (heap st)
}.

Definition good {A} (P : A -> Prop) (st : state) (out : res A * state) : Prop :=
  hf_state (snd out)
  /\ (forall a, fst out = Ok a -> P a)
  /\ exists evs, trace (snd out) = trace st ++ evs /\ final (fst out) evs.

Definition safe {A} (P : A -> Prop) (m : M A) : Prop :=
  forall st, hf_state st -> good P st (m st).

Lemma good_silent {A} (P : A -> Prop) st (r : res A) st' :
  hf_state st' -> trace st' = trace st -> (forall a, r = Ok a -> P a) ->
  good P st (r, st').
Proof.
  intros H1 H2 H3. split; [exact H1|]. split; [exact H3|].
  exists []. simpl. rewrite app_nil_r. split; [exact H2|]. left. constructor.
Qed.

Lemma safe_mono {A} (P Q : A -> Prop) m :
  safe P m -> (forall a, P a -> Q a) -> safe Q m.
Proof.
  intros Hm HPQ st Hst. destruct (Hm st Hst) as (H1 & H2 & H3).
  split; [exact H1|]. split; [|exact H3]. auto.
Qed.

Lemma safe_ret {A} (P : A -> Prop) a : P a -> safe P (ret a).
Proof. intros Ha st Hst. apply good_silent; auto. intros b [= <-]. exact Ha. Qed.

Lemma safe_raise {A} (P : A -> Prop) e : safe P (raise e).
Proof. intros st Hst. apply good_silent; auto. intros b [=]. Qed.

Lemma safe_unsupported {A} (P : A -> Prop) w : safe P (unsupported w).
Proof. intros st Hst. apply good_silent; auto. intros b [=]. Qed.

Lemma safe_out_of_fuel {A} (P : A -> Prop) : safe P out_of_fuel.
Proof. intros st Hst. apply good_silent; auto. intros b [=]. Qed.

Lemma final_bind {A B} (r1 : res A) (r2 : res B) evs1 evs2 :
  quiet evs1 -> final r2 evs2 -> final r2 (evs1 ++ evs2).
Proof.
  intros Hq [Hq2|(e & pre & req & -> & -> & Hp)].
  - left. apply Forall_app. auto.
  - right. exists e, (evs1 ++ pre), req. rewrite app_assoc.
    repeat split; auto. apply Forall_app. auto.
Qed.

Lemma safe_bind {A B} (P : A -> Prop) (Q : B -> Prop) (m : M A) (k : A -> M B) :
  safe P m -> (forall a, P a -> safe Q (k a)) -> safe Q (bind m k).
Proof.
  intros Hm Hk st Hst. unfold bind.
  destruct (Hm st Hst) as (Hst1 & HP & evs1 & Htr1 & Hf1).
  destruct (m st) as [r st1]. cbn [fst snd] in *.
  destruct r as [a|e| |w].
  - destruct (Hk a (HP a eq_refl) st1 Hst1) as (Hst2 & HQ & evs2 & Htr2 & Hf2).
    split; [exact Hst2|]. split; [exact HQ|].
    exists (evs1 ++ evs2). split; [rewrite Htr2, Htr1, app_assoc; reflexivity|].
    destruct Hf1 as [Hq|(e & pre & req & [=] & _)].
    eapply (final_bind (Ok a)); eauto.
  - split; [exact Hst1|]. split; [intros b [=]|].
    exists evs1. split; [exact Htr1|].
    destruct Hf1 as [Hq|(e' & pre & req & [= <-] & -> & Hp)]; [left; auto|].
    right. exists e, pre, req. auto.
  - split; [exact Hst1|]. split; [intros b [=]|].
    exists evs1. split; [exact Htr1|].
    destruct Hf1 as [Hq|(e' & pre & req & [=] & _)]. left; auto.
  - split; [exact Hst1|]. split; [intros b [=]|].
    exists evs1. split; [exact Htr1|].
    destruct Hf1 as [Hq|(e' & pre & req & [=] & _)]. left; auto.
Qed.

Lemma safe_ask r : safe hf (ask lib r).
Proof.
  intros [g lc hp l tr] Hst. unfold ask. cbn [heap ext globals locals trace].
  destruct (lib r hp l) as [[h|e] l'].
  - split; [destruct Hst; constructor; auto|]. split; [intros a [= <-]; reflexivity|].
    exists [(r, Returned h)]. split; [reflexivity|].
    left. repeat constructor. simpl. eauto.
  - split; [destruct Hst; constructor; auto|]. split; [intros a [=]|].
    exists [(r, Threw e)]. split; [reflexivity|].
    right. exists e, [], r. repeat split. constructor.
Qed.

Lemma hf_builtin x v : builtin x = Some v -> hf v.
Proof.
  unfold builtin.
  destruct (String.eqb x "True"); [intros [= <-]; reflexivity|].
  destruct (String.eqb x "False"); [intros [= <-]; reflexivity|].
  destruct (mem x ["range"; "float"]); intros [= <-]; reflexivity.
Qed.

Lemma safe_lookup_name x : safe hf (lookup_name x).
Proof.
  intros st Hst. unfold lookup_name, lookup_global, env_get.
  destruct (locals st) as [fr|] eqn:Hfr.
  - destruct (mem x (fr_names fr)).
    + destruct (fr_vars fr !! x) as [v|] eqn:Hv.
      * apply good_silent; auto. intros a [= <-].
        eapply (hf_locals st Hst fr Hfr); eauto.
      * apply good_silent; auto. intros a [=].
    + destruct (globals st !! x) as [v|] eqn:Hv.
      * apply good_silent; auto. intros a [= <-]. eapply (hf_globals st Hst); eauto.
      * destruct (builtin x) as [v|] eqn:Hb; [|destruct (mem x python_builtins)];
          apply good_silent; auto; try (intros ? K; discriminate K).
        intros ? [= <-]. eapply hf_builtin; eauto.
  - destruct (globals st !! x) as [v|] eqn:Hv.
    + apply good_silent; auto. intros a [= <-]. eapply (hf_globals st Hst); eauto.
    + destruct (builtin x) as [v|] eqn:Hb; [|destruct (mem x python_builtins)];
        apply good_silent; auto; try (intros ? K; discriminate K).
      intros ? [= <-]. eapply hf_builtin; eauto.
Qed.

Lemma safe_bind_name (P : unit -> Prop) x v : hf v -> P tt -> safe P (bind_name x v).
Proof.
  intros Hv HP st Hst. unfold bind_name, env_set.
  destruct (locals st) as [fr|] eqn:Hfr.
  - apply good_silent; auto.
    + destruct Hst as [Hg Hl Hh]. constructor; auto.
      cbn [locals set_locals]. intros fr' [= <-]. cbn [fr_vars].
      apply map_Forall_insert_2; eauto.
    + intros [] _. exact HP.
  - apply good_silent; auto.
    + destruct Hst as [Hg Hl Hh]. constructor; auto.
      cbn [globals set_globals]. apply map_Forall_insert_2; auto.
    + intros [] _. exact HP.
Qed.

Lemma safe_alloc l : Forall hf l -> safe hf (alloc l).
Proof.
  intros Hl st Hst. unfold alloc, heap_push. apply good_silent; auto.
  - destruct Hst as [Hg Hlc Hh]. constructor; auto.
    cbn [heap set_heap]. apply Forall_app. split; auto.
  - intros a [= <-]. reflexivity.
Qed.

Lemma safe_store (P : unit -> Prop) a l : Forall hf l -> P tt -> safe P (store a l).
Proof.
  intros Hl HP st Hst. unfold store, heap_set. apply good_silent; auto.
  - destruct Hst as [Hg Hlc Hh]. constructor; auto.
    cbn [heap set_heap]. apply Forall_insert; auto.
  - intros [] _. exact HP.
Qed.

Lemma safe_deref a : safe (Forall hf) (deref a).
Proof.
  intros st Hst. unfold deref, heap_get.
  destruct (heap st !! a) as [l|] eqn:Hl; apply good_silent; auto.
  - intros b [= <-]. eapply Forall_lookup_1; [apply (hf_heap st Hst)|eauto].
  - intros b [=].
Qed.

Lemma safe_getattr v a : safe hf (getattr v a).
Proof.
  destruct v; simpl; first [apply safe_unsupported | apply safe_ret; reflexivity].
Qed.

Lemma safe_make_function name ps body :
  has_handler body = false -> safe hf (make_function name ps body).
Proof.
  intros Hb st Hst. unfold make_function.
  destruct (locals st); apply good_silent; auto.
  - intros a [=].
  - intros a [= <-]. unfold hf. cbn [hf_value]. rewrite Hb. reflexivity.
Qed.

Lemma safe_return_value v : hf v -> safe hf_opt (return_value v).
Proof.
  intros Hv st Hst. unfold return_value.
  destruct (locals st); apply good_silent; auto.
  - intros a [= <-] w [= <-]. exact Hv.
  - intros a [=].
Qed.

Lemma hf_mjoin_replicate n (l : list value) : Forall hf l -> Forall hf (mjoin (replicate n l)).
Proof.
  intros Hl. induction n as [|n IH]; simpl.
  - constructor.
  - apply Forall_app. auto.
Qed.

Lemma hf_range_list n : Forall hf (range_list n).
Proof. unfold range_list. apply Forall_fmap, Forall_true. intros z. reflexivity. Qed.

Lemma hf_VTuple vs : Forall hf vs -> hf (VTuple vs).
Proof. intros H. unfold hf. cbn [hf_value]. apply forallb_hf. exact H. Qed.

Lemma hf_VTuple_inv vs : hf (VTuple vs) -> Forall hf vs.
Proof. intros H. apply forallb_hf. exact H. Qed.

Lemma hf_VDict kvs : Forall (fun kv => hf (fst kv) /\ hf (snd kv)) kvs -> hf (VDict kvs).
Proof.
  intros H. unfold hf. cbn [hf_value].
  induction H as [|[k w] kvs [Hk Hw] _ IH]; cbn [forallb]; auto.
  cbn [fst snd] in *. unfold hf in Hk, Hw. rewrite Hk, Hw, IH. reflexivity.
Qed.

Lemma hf_VSlice a b : hf a -> hf b -> hf (VSlice a b).
Proof. unfold hf. cbn [hf_value]. intros -> ->. reflexivity. Qed.

(** A tactic for the operations that are compositions of the above. *)
Ltac safe_leaf :=
  first
    [ apply safe_ret; first [reflexivity | assumption | exact I | idtac]
    | apply safe_raise
    | apply safe_unsupported
    | apply safe_out_of_fuel
    | apply safe_ask
    | apply safe_lookup_name
    | apply safe_deref
    | apply safe_alloc
    | apply safe_store
    | apply safe_getattr ].

Ltac safe_split :=
  match goal with
  | |- safe _ (match ?x with _ => _ end) => destruct x
  | |- safe _ (if ?x then _ else _) => destruct x
  end.

Lemma safe_int_arith op x y : safe hf (int_arith op x y).
Proof. destruct op; cbn [int_arith]; repeat first [safe_split | safe_leaf]. Qed.

Lemma safe_float_arith op x y : safe hf (float_arith op x y).
Proof.
  unfold float_arith. destruct x, y, op; repeat first [safe_split | safe_leaf].
Qed.

Lemma safe_repeat_list a n : safe hf (repeat_list a n).
Proof.
  unfold repeat_list. eapply safe_bind; [apply safe_deref|].
  intros l Hl. apply safe_alloc. apply hf_mjoin_replicate. exact Hl.
Qed.

Lemma safe_seq_arith op a b : safe hf (seq_arith op a b).
Proof.
  destruct op, a, b; cbn [seq_arith];
    repeat first
      [ apply safe_repeat_list
      | safe_split
      | eapply safe_bind; [apply safe_deref | intros ? ?]
      | apply safe_alloc; apply Forall_app; split; assumption
      | safe_leaf ].
Qed.

Lemma safe_binop_values op a b : safe hf (binop_values lib op a b).
Proof.
  unfold binop_values.
  destruct (is_lib a || is_lib b); [apply safe_ask|].
  destruct (as_index a), (as_index b); try apply safe_int_arith;
    (destruct (to_float a), (to_float b); try apply safe_float_arith;
     (destruct (is_str_or_tuple a || is_str_or_tuple b);
      [apply safe_unsupported | apply safe_seq_arith])).
Qed.

Lemma safe_seq_item kind l i : Forall hf l -> safe hf (seq_item kind l i).
Proof.
  intros Hl. unfold seq_item.
  destruct (as_index i) as [z|].
  - destruct (norm_index z (length l)) as [n|]; [|apply safe_raise].
    destruct (l !! n) as [v|] eqn:Hv; [|apply safe_raise].
    apply safe_ret. eapply Forall_lookup_1; eauto.
  - destruct i; repeat safe_leaf.
Qed.

Lemma safe_getitem o i : hf o -> safe hf (getitem lib o i).
Proof.
  intros Ho. destruct o; cbn [getitem]; try safe_leaf.
  - apply safe_seq_item. apply hf_VTuple_inv. exact Ho.
  - eapply safe_bind; [apply safe_deref|]. intros l Hl. apply safe_seq_item. exact Hl.
Qed.

Lemma safe_setitem o i v : hf v -> safe (fun _ => True) (setitem lib o i v).
Proof.
  intros Hv. destruct o; cbn [setitem]; try safe_leaf.
  - eapply safe_bind; [apply safe_deref|]. intros l Hl.
    destruct (as_index i) as [z|].
    + destruct (norm_index z (length l)) as [n|]; [|apply safe_raise].
      apply safe_store; [|exact I]. apply Forall_insert; assumption.
    + destruct i; repeat safe_leaf.
  - eapply safe_bind; [apply safe_ask|]. intros ? ?. apply safe_ret. exact I.
Qed.

Lemma safe_truthy v : safe (fun _ => True) (truthy v).
Proof.
  destruct v; cbn [truthy]; try (apply safe_ret; exact I); try apply safe_unsupported.
  eapply safe_bind; [apply safe_deref|]. intros l Hl. apply safe_ret. exact I.
Qed.

Lemma safe_iterate v : hf v -> safe (Forall hf) (iterate v).
Proof.
  intros Hv. destruct v; cbn [iterate];
    try apply safe_raise; try apply safe_unsupported.
  - apply safe_ret. apply hf_VTuple_inv. exact Hv.
  - apply safe_deref.
Qed.

Lemma safe_call_builtin name args kwargs : safe hf (call_builtin name args kwargs).
Proof.
  unfold call_builtin, builtin_range, builtin_float.
  repeat first
    [ safe_split
    | apply safe_alloc; apply hf_range_list
    | safe_leaf ].
Qed.

Lemma hf_frame (ps : list string) (args : list value) :
  Forall hf args ->
  map_Forall (fun _ v => hf v) (list_to_map (zip ps args) : gmap string value).
Proof.
  intros Ha. revert args Ha. induction ps as [|p ps IH]; intros args Ha.
  - cbn. apply map_Forall_empty.
  - destruct args as [|a args].
    + cbn. apply map_Forall_empty.
    + inversion Ha; subst. cbn [zip zip_with list_to_map foldr].
      apply map_Forall_insert_2; [assumption | apply IH; assumption].
Qed.

Lemma safe_call_function run name ps body args :
  safe hf_opt (run body) -> Forall hf args ->
  safe hf (call_function run name ps body args).
Proof.
  intros Hrun Ha st Hst. unfold call_function.
  set (st0 := set_locals _ st).
  assert (hf_state st0) as Hst0.
  { destruct Hst as [Hg Hl Hh]. constructor; auto.
    subst st0. cbn [locals set_locals]. intros fr [= <-]. cbn [fr_vars].
    apply hf_frame. exact Ha. }
  destruct (Hrun st0 Hst0) as (Hst1 & HP & evs & Htr & Hf).
  destruct (run body st0) as [r st1]. cbn [fst snd] in *.
  split; [|split].
  - destruct Hst as [Hg Hl Hh], Hst1 as [Hg1 Hl1 Hh1]. constructor; auto.
  - intros a Ha'. destruct r as [[v|]|e| |w]; try discriminate; injection Ha' as <-.
    + apply (HP (Some v) eq_refl v eq_refl).
    + reflexivity.
  - exists evs. split; [exact Htr|].
    destruct Hf as [Hq|(e & pre & req & -> & -> & Hp)]; [left; exact Hq|].
    right. exists e, pre, req. auto.
Qed.

Lemma safe_apply_function run fv args kwargs :
  (forall b, has_handler b = false -> safe hf_opt (run b)) ->
  hf fv -> Forall hf args ->
  safe hf (apply_function lib run fv args kwargs).
Proof.
  intros Hrun Hf Ha. destruct fv; cbn [apply_function]; try apply safe_raise.
  - destruct kwargs; [|apply safe_unsupported].
    destruct (Nat.eqb _ _); [|apply safe_raise].
    apply safe_call_function; auto. apply Hrun.
    unfold hf in Hf. cbn [hf_value] in Hf. apply negb_true_iff. exact Hf.
  - apply safe_call_builtin.
  - apply safe_ask.
Qed.

Lemma safe_eval_list ev es :
  (forall e, safe hf (ev e)) -> safe (Forall hf) (eval_list ev es).
Proof.
  intros Hev. induction es as [|e es IH]; cbn [eval_list].
  - apply safe_ret. constructor.
  - eapply safe_bind; [apply Hev|]. intros v Hv.
    eapply safe_bind; [apply IH|]. intros vs Hvs.
    apply safe_ret. constructor; assumption.
Qed.

Lemma safe_eval_kwargs ev kws :
  (forall e, safe hf (ev e)) -> safe (fun _ => True) (eval_kwargs ev kws).
Proof.
  intros Hev. induction kws as [|[k e] kws IH]; cbn [eval_kwargs].
  - apply safe_ret. exact I.
  - eapply safe_bind; [apply Hev|]. intros v Hv.
    eapply safe_bind; [apply IH|]. intros vs Hvs.
    apply safe_ret. exact I.
Qed.

Lemma safe_eval_items ev kvs :
  (forall e, safe hf (ev e)) ->
  safe (Forall (fun kv => hf (fst kv) /\ hf (snd kv))) (eval_items ev kvs).
Proof.
  intros Hev. induction kvs as [|[k e] kvs IH]; cbn [eval_items].
  - apply safe_ret. constructor.
  - eapply safe_bind; [apply Hev|]. intros v Hv.
    eapply safe_bind; [apply Hev|]. intros kv Hkv.
    eapply safe_bind; [apply IH|]. intros rest Hrest.
    apply safe_ret. constructor; auto.
Qed.

Lemma safe_eval_opt ev o : (forall e, safe hf (ev e)) -> safe hf (eval_opt ev o).
Proof. intros Hev. destruct o; cbn [eval_opt]; [apply Hev | apply safe_ret; reflexivity]. Qed.

Lemma hf_opt_None : hf_opt None.
Proof. intros v [=]. Qed.

Lemma hf_opt_Some v : hf v -> hf_opt (Some v).
Proof. intros Hv w [= <-]. exact Hv. Qed.

Lemma safe_run_block ex b :
  (forall s, hf_stmt s -> safe hf_opt (ex s)) ->
  has_handler b = false -> safe hf_opt (run_block ex b).
Proof.
  intros Hex. induction b as [|s b IH]; intros Hb; cbn [run_block].
  - apply safe_ret. apply hf_opt_None.
  - apply has_handler_cons in Hb. destruct Hb as [Hs Hb].
    eapply safe_bind; [apply Hex; exact Hs|]. intros [v|] Hr.
    + apply safe_ret. exact Hr.
    + apply IH. exact Hb.
Qed.

Lemma safe_for_each body items :
  (forall v, hf v -> safe hf_opt (body v)) -> Forall hf items ->
  safe hf_opt (for_each body items).
Proof.
  intros Hbody Hitems. induction Hitems as [|v items Hv _ IH]; cbn [for_each].
  - apply safe_ret. apply hf_opt_None.
  - eapply safe_bind; [apply Hbody; exact Hv|]. intros [w|] Hr.
    + apply safe_ret. exact Hr.
    + exact IH.
Qed.

Lemma safe_import_names m xs : safe hf_opt (import_names m xs).
Proof.
  induction xs as [|x xs IH]; cbn [import_names].
  - apply safe_ret. apply hf_opt_None.
  - eapply safe_bind; [apply safe_getattr|]. intros v Hv.
    eapply safe_bind; [apply (safe_bind_name (fun _ => True)); [exact Hv|exact I]|].
    intros _ _. exact IH.
Qed.

(** One layer of the interpreter keeps the property. *)
Lemma safe_eval_step ev ex :
  (forall e, safe hf (ev e)) ->
  (forall s, hf_stmt s -> safe hf_opt (ex s)) ->
  forall e, safe hf (eval_step lib ev ex e).
Proof.
  intros Hev Hex e. destruct e; cbn [eval_step].
  - apply safe_lookup_name.
  - apply safe_ret. reflexivity.
  - apply safe_ret. reflexivity.
  - apply safe_ret. reflexivity.
  - apply safe_ret. reflexivity.
  - eapply safe_bind; [apply safe_eval_list; exact Hev|]. intros vs Hvs.
    apply safe_alloc. exact Hvs.
  - eapply safe_bind; [apply safe_eval_list; exact Hev|]. intros vs Hvs.
    apply safe_ret. apply hf_VTuple. exact Hvs.
  - eapply safe_bind; [apply safe_eval_items; exact Hev|]. intros items Hitems.
    apply safe_ret. apply hf_VDict. exact Hitems.
  - eapply safe_bind; [apply Hev|]. intros v Hv. apply safe_getattr.
  - eapply safe_bind; [apply Hev|]. intros fv Hfv.
    eapply safe_bind; [apply safe_eval_list; exact Hev|]. intros vs Hvs.
    eapply safe_bind; [apply safe_eval_kwargs; exact Hev|]. intros kvs _.
    apply safe_apply_function; auto.
    intros b Hb. apply safe_run_block; assumption.
  - eapply safe_bind; [apply Hev|]. intros a Ha.
    eapply safe_bind; [apply Hev|]. intros b Hb.
    apply safe_binop_values.
  - eapply safe_bind; [apply Hev|]. intros o Ho.
    eapply safe_bind; [apply Hev|]. intros iv Hiv.
    apply safe_getitem. exact Ho.
  - eapply safe_bind; [apply safe_eval_opt; exact Hev|]. intros a Ha.
    eapply safe_bind; [apply safe_eval_opt; exact Hev|]. intros b Hb.
    apply safe_ret. apply hf_VSlice; assumption.
  - eapply safe_bind; [apply Hev|]. intros cv Hcv.
    eapply safe_bind; [apply safe_truthy|]. intros [] _; apply Hev.
  - apply safe_make_function. reflexivity.
Qed.

Lemma safe_exec_step ev ex :
  (forall e, safe hf (ev e)) ->
  (forall s, hf_stmt s -> safe hf_opt (ex s)) ->
  forall s, hf_stmt s -> safe hf_opt (exec_step lib ev ex s).
Proof.
  intros Hev Hex s Hs. pose proof (hf_stmt_bodies s Hs) as Hb.
  destruct s; cbn [exec_step].
  - eapply safe_bind; [apply safe_ask|]. intros v Hv.
    eapply safe_bind; [apply (safe_bind_name (fun _ => True)); [exact Hv|exact I]|].
    intros _ _. apply safe_ret. apply hf_opt_None.
  - eapply safe_bind; [apply safe_ask|]. intros v Hv. apply safe_import_names.
  - destruct target; try apply safe_unsupported.
    + eapply safe_bind; [apply Hev|]. intros v Hv.
      eapply safe_bind; [apply (safe_bind_name (fun _ => True)); [exact Hv|exact I]|].
      intros _ _. apply safe_ret. apply hf_opt_None.
    + eapply safe_bind; [apply Hev|]. intros v Hv.
      eapply safe_bind; [apply Hev|]. intros o Ho.
      eapply safe_bind; [apply Hev|]. intros iv Hiv.
      eapply safe_bind; [apply safe_setitem; exact Hv|].
      intros _ _. apply safe_ret. apply hf_opt_None.
  - eapply safe_bind; [apply Hev|]. intros v Hv. apply safe_ret. apply hf_opt_None.
  - eapply safe_bind; [apply safe_make_function; exact Hb|]. intros fn Hfn.
    eapply safe_bind; [apply (safe_bind_name (fun _ => True)); [exact Hfn|exact I]|].
    intros _ _. apply safe_ret. apply hf_opt_None.
  - eapply safe_bind; [apply Hev|]. intros v Hv. apply safe_return_value. exact Hv.
  - eapply safe_bind; [apply Hev|]. intros iv Hiv.
    eapply safe_bind; [apply safe_iterate; exact Hiv|]. intros items Hitems.
    apply safe_for_each; [|exact Hitems]. intros v Hv.
    eapply safe_bind; [apply (safe_bind_name (fun _ => True)); [exact Hv|exact I]|].
    intros _ _. apply safe_run_block; assumption.
  - eapply safe_bind; [apply Hev|]. intros cv Hcv.
    eapply safe_bind; [apply safe_truthy|]. intros [] _.
    + eapply safe_bind; [apply safe_run_block; assumption|]. intros [v|] Hr.
      * apply safe_ret. exact Hr.
      * apply Hex. exact Hs.
    + apply safe_ret. apply hf_opt_None.
  - destruct Hb as [Ha Hb].
    eapply safe_bind; [apply Hev|]. intros cv Hcv.
    eapply safe_bind; [apply safe_truthy|]. intros [] _; apply safe_run_block; assumption.
  - contradiction.
  - apply safe_unsupported.
  - apply safe_ret. apply hf_opt_None.
Qed.

(** The interpreter keeps it, with any fuel. *)
Lemma safe_interpreter fuel :
  (forall e, safe hf (eval lib fuel e))
  /\ (forall s, hf_stmt s -> safe hf_opt (exec lib fuel s)).
Proof.
  induction fuel as [|fuel [IHe IHx]].
  - split; intros; apply safe_out_of_fuel.
  - split.
    + intros e. apply (safe_eval_step _ _ IHe IHx).
    + intros s Hs. apply (safe_exec_step _ _ IHe IHx s Hs).
Qed.

Lemma safe_run_cell fuel c : has_handler c = false -> safe hf_opt (run_cell lib fuel c).
Proof.
  intros Hc. apply safe_run_block; [|exact Hc].
  apply (safe_interpreter fuel).
Qed.

Lemma hf_state_fresh l : hf_state (fresh l).
Proof.
  constructor.
  - apply map_Forall_empty.
  - intros fr [=].
  - constructor.
Qed.

End Propagation.

(** ** What a run binds

    A run changes the global names only by the statements at the top level
    of the cell: the bodies of functions bind in their own frame.  So a name
    that no cell binds stays unbound. *)

Section Scoping.
Context {L : Type} (lib : request -> heap_t -> L -> reply * L).

Local Abbreviation state := (state (L:=L)).

(** [m] leaves the global and local names as they are. *)
Definition silent {A} (m : M A) : Prop :=
  forall st : state, globals (snd (m st)) = globals st /\ locals (snd (m st)) = locals st.

(** [m] leaves the global name [x] as it is, and the run is at the top level
    afterwards exactly when it was before; [g] is what must hold for that
    when [m] runs at the top level. *)
Definition keeps {A} (x : string) (g : Prop) (m : M A) : Prop :=
  forall st : state,
    (locals st = None -> g) ->
    (locals (snd (m st)) = None <-> locals st = None)
    /\ env_get x (globals (snd (m st))) = env_get x (globals st).

Lemma silent_keeps {A} x g (m : M A) : silent m -> keeps x g m.
Proof. intros H st _. destruct (H st) as [-> ->]. split; reflexivity. Qed.

Lemma keeps_weaken {A} x (g g' : Prop) (m : M A) : (g' -> g) -> keeps x g m -> keeps x g' m.
Proof. intros Hg H st Hst. apply H. auto. Qed.

Lemma silent_ret {A} (a : A) : silent (ret a).
Proof. intros st. split; reflexivity. Qed.

Lemma silent_raise {A} e : silent (raise e : M A).
Proof. intros st. split; reflexivity. Qed.

Lemma silent_unsupported {A} w : silent (unsupported w : M A).
Proof. intros st. split; reflexivity. Qed.

Lemma silent_out_of_fuel {A} : silent (out_of_fuel : M A).
Proof. intros st. split; reflexivity. Qed.

Lemma silent_bind {A B} (m : M A) (k : A -> M B) :
  silent m -> (forall a, silent (k a)) -> silent (bind m k).
Proof.
  intros Hm Hk st. unfold bind. destruct (Hm st) as [H1 H2].
  destruct (m st) as [[a|e| |w] st1]; cbn [fst snd] in *; auto.
  destruct (Hk a st1) as [H3 H4]. rewrite H3, H4. auto.
Qed.

Lemma keeps_bind {A B} x g (m : M A) (k : A -> M B) :
  keeps x g m -> (forall a, keeps x g (k a)) -> keeps x g (bind m k).
Proof.
  intros Hm Hk st Hg. unfold bind. destruct (Hm st Hg) as [H1 H2].
  destruct (m st) as [[a|e| |w] st1]; cbn [fst snd] in *; auto.
  destruct (Hk a st1) as [H3 H4]; [intros H; apply Hg, H1, H|].
  rewrite H3, H4. auto.
Qed.

Lemma silent_ask r : silent (ask lib r).
Proof.
  intros st. unfold ask. destruct (lib r (heap st) (ext st)) as [[h|e] l']; split; reflexivity.
Qed.

Lemma silent_lookup_name x : silent (lookup_name x).
Proof.
  intros st. unfold lookup_name, lookup_global.
  repeat match goal with
         | |- context [match ?t with _ => _ end] => destruct t eqn:?
         end; cbn [fst snd]; auto.
Qed.

Lemma silent_alloc l : silent (alloc l).
Proof. intros st. split; reflexivity. Qed.

Lemma silent_store a l : silent (store a l).
Proof. intros st. split; reflexivity. Qed.

Lemma silent_deref a : silent (deref a).
Proof. intros st. unfold deref. destruct (heap_get a (heap st)); cbn [fst snd]; auto. Qed.

Lemma silent_getattr v a : silent (getattr v a).
Proof. destruct v; first [apply silent_unsupported | apply silent_ret]. Qed.

Lemma silent_make_function name ps body : silent (make_function name ps body).
Proof.
  intros st. unfold make_function. destruct (locals st) eqn:E; cbn [fst snd]; auto.
Qed.

Lemma silent_return_value v : silent (return_value v).
Proof.
  intros st. unfold return_value. destruct (locals st) eqn:E; cbn [fst snd]; auto.
Qed.

Ltac silent_leaf :=
  first
    [ apply silent_ret | apply silent_raise | apply silent_unsupported
    | apply silent_out_of_fuel | apply silent_ask | apply silent_lookup_name
    | apply silent_alloc | apply silent_store | apply silent_deref
    | apply silent_getattr ].

Ltac silent_split :=
  match goal with
  | |- silent (match ?x with _ => _ end) => destruct x
  | |- silent (if ?x then _ else _) => destruct x
  end.

Ltac silent_auto :=
  repeat first [ silent_split | apply silent_bind; [|intros ?] | silent_leaf ].

Lemma silent_int_arith op x y : silent (int_arith op x y).
Proof. destruct op; cbn [int_arith]; silent_auto. Qed.

Lemma silent_float_arith op x y : silent (float_arith op x y).
Proof. unfold float_arith. destruct x, y, op; silent_auto. Qed.

Lemma silent_repeat_list a n : silent (repeat_list a n).
Proof. unfold repeat_list. silent_auto. Qed.

Lemma silent_seq_arith op a b : silent (seq_arith op a b).
Proof.
  destruct op, a, b; cbn [seq_arith];
    repeat first [ apply silent_repeat_list | silent_split
                 | apply silent_bind; [|intros ?] | silent_leaf ].
Qed.

Lemma silent_binop_values op a b : silent (binop_values lib op a b).
Proof.
  unfold binop_values.
  destruct (is_lib a || is_lib b); [apply silent_ask|].
  destruct (as_index a), (as_index b); try apply silent_int_arith;
    (destruct (to_float a), (to_float b); try apply silent_float_arith;
     (destruct (is_str_or_tuple a || is_str_or_tuple b);
      [apply silent_unsupported | apply silent_seq_arith])).
Qed.

Lemma silent_seq_item kind l i : silent (seq_item kind l i).
Proof. unfold seq_item. silent_auto. Qed.

Lemma silent_getitem o i : silent (getitem lib o i).
Proof.
  destruct o; cbn [getitem];
    repeat first [ apply silent_seq_item | apply silent_bind; [|intros ?] | silent_leaf ].
Qed.

Lemma silent_setitem o i v : silent (setitem lib o i v).
Proof. destruct o; cbn [setitem]; silent_auto. Qed.

Lemma silent_truthy v : silent (truthy v).
Proof. destruct v; cbn [truthy]; silent_auto. Qed.

Lemma silent_iterate v : silent (iterate v).
Proof. destruct v; cbn [iterate]; silent_auto. Qed.

Lemma silent_call_builtin name args kwargs : silent (call_builtin name args kwargs).
Proof. unfold call_builtin, builtin_range, builtin_float. silent_auto. Qed.

Lemma keeps_bind_name x y v (g : Prop) : (g -> x <> y) -> keeps x g (bind_name y v).
Proof.
  intros Hxy st Hg. unfold bind_name.
  destruct (locals st) as [fr|] eqn:Hfr; cbn [fst snd locals globals set_locals set_globals].
  - split; [|reflexivity]. split; discriminate.
  - split; [tauto|].
    apply env_get_set_ne. apply Hxy, Hg. reflexivity.
Qed.

(** A call runs the body in a frame, where nothing binds a global. *)
Lemma keeps_call_function x g run name ps body args :
  keeps x False (run body) -> keeps x g (call_function run name ps body args).
Proof.
  intros Hrun st _. unfold call_function.
  set (st0 := set_locals _ st).
  destruct (Hrun st0) as [_ H2]; [subst st0; cbn [locals set_locals]; discriminate|].
  destruct (run body st0) as [r st1]. cbn [fst snd locals globals set_locals] in *.
  split; [tauto|]. exact H2.
Qed.

Lemma keeps_apply_function x g run fv args kwargs :
  (forall b, keeps x False (run b)) ->
  keeps x g (apply_function lib run fv args kwargs).
Proof.
  intros Hrun. destruct fv; cbn [apply_function];
    try (apply silent_keeps; first [apply silent_raise | apply silent_ask
                                   | apply silent_call_builtin]).
  destruct kwargs; [|apply silent_keeps, silent_unsupported].
  destruct (Nat.eqb _ _); [|apply silent_keeps, silent_raise].
  apply keeps_call_function. apply Hrun.
Qed.

Lemma keeps_eval_list x g ev es :
  (forall e, keeps x g (ev e)) -> keeps x g (eval_list ev es).
Proof.
  intros Hev. induction es as [|e es IH]; cbn [eval_list].
  - apply silent_keeps, silent_ret.
  - apply keeps_bind; [apply Hev|]. intros v.
    apply keeps_bind; [apply IH|]. intros vs. apply silent_keeps, silent_ret.
Qed.

Lemma keeps_eval_kwargs x g ev kws :
  (forall e, keeps x g (ev e)) -> keeps x g (eval_kwargs ev kws).
Proof.
  intros Hev. induction kws as [|[k e] kws IH]; cbn [eval_kwargs].
  - apply silent_keeps, silent_ret.
  - apply keeps_bind; [apply Hev|]. intros v.
    apply keeps_bind; [apply IH|]. intros vs. apply silent_keeps, silent_ret.
Qed.

Lemma keeps_eval_items x g ev kvs :
  (forall e, keeps x g (ev e)) -> keeps x g (eval_items ev kvs).
Proof.
  intros Hev. induction kvs as [|[k e] kvs IH]; cbn [eval_items].
  - apply silent_keeps, silent_ret.
  - apply keeps_bind; [apply Hev|]. intros v.
    apply keeps_bind; [apply Hev|]. intros kv.
    apply keeps_bind; [apply IH|]. intros rest. apply silent_keeps, silent_ret.
Qed.

Lemma keeps_eval_opt x g ev o : (forall e, keeps x g (ev e)) -> keeps x g (eval_opt ev o).
Proof. intros Hev. destruct o; cbn [eval_opt]; [apply Hev | apply silent_keeps, silent_ret]. Qed.

Lemma keeps_run_block x ex b :
  (forall s, keeps x (~ In x (binds s)) (ex s)) ->
  keeps x (~ In x (bound_names b)) (run_block ex b).
Proof.
  intros Hex. induction b as [|s b IH]; cbn [run_block].
  - apply silent_keeps, silent_ret.
  - apply keeps_bind.
    + eapply keeps_weaken; [|apply Hex].
      unfold bound_names. cbn [flat_map]. rewrite in_app_iff. tauto.
    + intros [v|]; [apply silent_keeps, silent_ret|].
      eapply keeps_weaken; [|apply IH].
      unfold bound_names. cbn [flat_map]. rewrite in_app_iff. tauto.
Qed.

Lemma keeps_for_each x g body items :
  (forall v, keeps x g (body v)) -> keeps x g (for_each body items).
Proof.
  intros Hbody. induction items as [|v items IH]; cbn [for_each].
  - apply silent_keeps, silent_ret.
  - apply keeps_bind; [apply Hbody|].
    intros [w|]; [apply silent_keeps, silent_ret | exact IH].
Qed.

Lemma keeps_import_names x m xs : keeps x (~ In x xs) (import_names m xs).
Proof.
  induction xs as [|y xs IH]; cbn [import_names].
  - apply silent_keeps, silent_ret.
  - apply keeps_bind; [apply silent_keeps, silent_getattr|]. intros v.
    apply keeps_bind.
    + apply keeps_bind_name. cbn [In]. intros H ->. tauto.
    + intros _. eapply keeps_weaken; [|apply IH]. cbn [In]. tauto.
Qed.

Lemma keeps_try_block x g body cls handler :
  keeps x g body -> keeps x g handler -> keeps x g (try_block body cls handler).
Proof.
  intros Hb Hh st Hg. unfold try_block. destruct (Hb st Hg) as [H1 H2].
  destruct (body st) as [[a|e| |w] st1]; cbn [fst snd] in *; auto.
  destruct (handles cls e) as [[]|]; cbn [fst snd]; auto.
  destruct (Hh st1) as [H3 H4]; [intros H; apply Hg, H1, H|].
  rewrite H3, H4. auto.
Qed.

Lemma keeps_eval_step x ev ex :
  (forall e, keeps x True (ev e)) ->
  (forall s, keeps x (~ In x (binds s)) (ex s)) ->
  forall e, keeps x True (eval_step lib ev ex e).
Proof.
  intros Hev Hex e.
  assert (forall b, keeps x False (run_block ex b)) as Hrun.
  { intros b. eapply keeps_weaken; [|apply keeps_run_block, Hex]. tauto. }
  destruct e; cbn [eval_step];
    repeat first
      [ apply keeps_apply_function; exact Hrun
      | apply Hev
      | apply keeps_eval_list; exact Hev
      | apply keeps_eval_kwargs; exact Hev
      | apply keeps_eval_items; exact Hev
      | apply keeps_eval_opt; exact Hev
      | apply keeps_bind; [|intros ?]
      | match goal with |- keeps _ _ (if ?t then _ else _) => destruct t end
      | apply silent_keeps;
        first [ apply silent_lookup_name | apply silent_ret | apply silent_alloc
              | apply silent_getattr | apply silent_binop_values
              | apply silent_getitem | apply silent_truthy
              | apply silent_make_function ] ].
Qed.

Lemma keeps_exec_step x ev ex :
  (forall e, keeps x True (ev e)) ->
  (forall s, keeps x (~ In x (binds s)) (ex s)) ->
  forall s, keeps x (~ In x (binds s)) (exec_step lib ev ex s).
Proof.
  intros Hev Hex s.
  assert (forall g e, keeps x g (ev e)) as Hev'.
  { intros g e. eapply keeps_weaken; [|apply Hev]. auto. }
  destruct s; cbn [exec_step binds].
  - apply keeps_bind; [apply silent_keeps, silent_ask|]. intros v.
    apply keeps_bind; [|intros _; apply silent_keeps, silent_ret].
    apply keeps_bind_name. cbn [In]. intros H ->. tauto.
  - apply keeps_bind; [apply silent_keeps, silent_ask|]. intros v.
    apply keeps_import_names.
  - destruct target; try (apply silent_keeps, silent_unsupported).
    + apply keeps_bind; [apply Hev'|]. intros v.
      apply keeps_bind; [|intros _; apply silent_keeps, silent_ret].
      apply keeps_bind_name. cbn [In]. intros H ->. tauto.
    + apply keeps_bind; [apply Hev'|]. intros v.
      apply keeps_bind; [apply Hev'|]. intros o.
      apply keeps_bind; [apply Hev'|]. intros iv.
      apply keeps_bind; [apply silent_keeps, silent_setitem|].
      intros _. apply silent_keeps, silent_ret.
  - apply keeps_bind; [apply Hev'|]. intros v. apply silent_keeps, silent_ret.
  - apply keeps_bind; [apply silent_keeps, silent_make_function|]. intros fn.
    apply keeps_bind; [|intros _; apply silent_keeps, silent_ret].
    apply keeps_bind_name. cbn [In]. intros H ->. tauto.
  - apply keeps_bind; [apply Hev'|]. intros v. apply silent_keeps, silent_return_value.
  - apply keeps_bind; [apply Hev'|]. intros iv.
    apply keeps_bind; [apply silent_keeps, silent_iterate|]. intros items.
    apply keeps_for_each. intros v.
    apply keeps_bind.
    + apply keeps_bind_name. cbn [In]. intros H ->. tauto.
    + intros _. eapply keeps_weaken; [|apply keeps_run_block, Hex].
      cbn [In]. unfold bound_names. tauto.
  - apply keeps_bind; [apply Hev'|]. intros cv.
    apply keeps_bind; [apply silent_keeps, silent_truthy|]. intros [].
    + apply keeps_bind.
      * eapply keeps_weaken; [|apply keeps_run_block, Hex]. unfold bound_names. tauto.
      * intros [v|]; [apply silent_keeps, silent_ret|].
        eapply keeps_weaken; [|apply Hex]. cbn [binds]. tauto.
    + apply silent_keeps, silent_ret.
  - apply keeps_bind; [apply Hev'|]. intros cv.
    apply keeps_bind; [apply silent_keeps, silent_truthy|].
    intros []; (eapply keeps_weaken; [|apply keeps_run_block, Hex]);
      unfold bound_names; rewrite in_app_iff; tauto.
  - apply keeps_try_block;
      (eapply keeps_weaken; [|apply keeps_run_block, Hex]);
      unfold bound_names; rewrite in_app_iff; tauto.
  - apply silent_keeps, silent_unsupported.
  - apply silent_keeps, silent_ret.
Qed.

Lemma keeps_interpreter x fuel :
  (forall e, keeps x True (eval lib fuel e))
  /\ (forall s, keeps x (~ In x (binds s)) (exec lib fuel s)).
Proof.
  induction fuel as [|fuel [IHe IHx]].
  - split; intros; apply silent_keeps, silent_out_of_fuel.
  - split.
    + intros e. apply (keeps_eval_step x _ _ IHe IHx).
    + intros s. apply (keeps_exec_step x _ _ IHe IHx s).
Qed.

Lemma keeps_run_cell x fuel c :
  keeps x (~ In x (bound_names c)) (run_cell lib fuel c).
Proof. apply keeps_run_block. apply (keeps_interpreter x fuel). Qed.

End Scoping.

(** ** The states of a notebook session

    A session starts with a fresh interpreter and runs cells of the notebook,
    in any order, any number of times, each to its end whatever that is. *)

Lemma cells_have_no_handler c : In c cells -> has_handler c = false.
Proof.
  unfold cells, code_cells. cbn [map snd In]. intros H.
  repeat (destruct H as [<-|H]; [reflexivity|]). contradiction.
Qed.

Lemma cells_do_not_bind_loc c : In c cells -> ~ In "loc" (bound_names c).
Proof.
  unfold cells, code_cells. cbn [map snd In]. intros H.
  repeat (destruct H as [<-|H]; [let K := fresh in
                                 intros K; vm_compute in K; intuition discriminate|]).
  contradiction.
Qed.

Lemma cells_do_not_bind_range c : In c cells -> ~ In "range" (bound_names c).
Proof.
  unfold cells, code_cells. cbn [map snd In]. intros H.
  repeat (destruct H as [<-|H]; [let K := fresh in
                                 intros K; vm_compute in K; intuition discriminate|]).
  contradiction.
Qed.

Section Session.
Context {L : Type} (lib : request -> heap_t -> L -> reply * L).

Inductive reachable : state (L:=L) -> Prop :=
| reach_fresh l : reachable (fresh l)
| reach_run st fuel c :
    reachable st -> In c cells -> reachable (snd (run_cell lib fuel c st)).

(** Between cells the interpreter is at the top level. *)
Lemma reachable_top_level st : reachable st -> locals st = None.
Proof.
  induction 1 as [l|st fuel c Hst IH Hc].
  - reflexivity.
  - destruct (keeps_run_cell lib "loc" fuel c st) as [H _].
    + intros _. apply cells_do_not_bind_loc. exact Hc.
    + apply H. exact IH.
Qed.

(** A name that no cell binds is unbound throughout the session. *)
Lemma reachable_unbound x st :
  (forall c, In c cells -> ~ In x (bound_names c)) ->
  reachable st -> env_get x (globals st) = None.
Proof.
  intros Hx. induction 1 as [l|st fuel c Hst IH Hc].
  - apply env_get_empty.
  - destruct (keeps_run_cell lib x fuel c st) as [_ H].
    + intros _. apply Hx. exact Hc.
    + rewrite H. exact IH.
Qed.

(** No function with a handler is ever defined. *)
Lemma reachable_hf st : reachable st -> hf_state st.
Proof.
  induction 1 as [l|st fuel c Hst IH Hc].
  - apply hf_state_fresh.
  - apply (safe_run_cell lib fuel c (cells_have_no_handler c Hc) st IH).
Qed.

End Session.

(** Membership in a list that is written out. *)
Ltac in_list := repeat first [left; reflexivity | right].

(** ** The claims about single cells *)

(** Claim C1 (where the notebook breaks it).  Each code cell should run
    without raising an error.  The Figure 11 cell and the Figure 13 cell do
    not: at any point of a session, whatever the libraries answer and with
    any fuel from 6 on, both runs end in an uncaught exception. *)
Theorem fig11_and_fig13_raise :
  forall {L} (lib : request -> heap_t -> L -> reply * L) (st : state) (fuel : nat),
    reachable lib st ->
    raises (run_cell lib (6 + fuel) fig11) st
    /\ raises (run_cell lib (6 + fuel) fig13) st.
Proof.
  intros L lib st fuel Hst.
  pose proof (reachable_top_level lib st Hst) as Hl.
  pose proof (reachable_unbound lib "loc" st cells_do_not_bind_loc Hst) as Hloc.
  split.
  - destruct (fig11_run lib (6 + fuel) st) as (_ & _ & e & st' & H & _);
      [lia | exact Hl |].
    exists e, st'. exact H.
  - destruct (fig13_run lib (6 + fuel) st) as (_ & e & st' & H & _);
      [lia | exact Hl | exact Hloc |].
    exists e, st'. exact H.
Qed.

Lemma fig11_and_fig13_raise_witness :
  raises (run_cell counting_lib 6 fig11) (fresh 0%N)
  /\ raises (run_cell counting_lib 6 fig13) (fresh 0%N).
Proof.
  apply (fig11_and_fig13_raise counting_lib (fresh 0%N) 0).
  apply reach_fresh.
Defined.

(** Claim C3.  The Figure 13 cell raises NameError at its last statement, at
    any point of a session: once the statements before it have run, the
    sample drawn is bound to [mu], [loc] is unbound, and
    [Normal(loc=loc, ...)] reads [loc]; the run ends there with the state
    those statements left, so that [x] is what it was before the cell.  No
    cell of the notebook binds [loc]. *)
Theorem fig13_raises_NameError :
  forall {L} (lib : request -> heap_t -> L -> reply * L) (fuel : nat) (st st1 : state),
    (6 <= fuel)%nat ->
    reachable lib st ->
    run_block (exec lib fuel) fig13_head st = (Ok None, st1) ->
    run_cell lib fuel fig13 st
    = (Exc (Exn "NameError" "name 'loc' is not defined"), st1)
    /\ env_get "x" (globals st1) = env_get "x" (globals st)
    /\ env_get "loc" (globals st1) = None
    /\ fig13_sample_in_mu st1
    /\ Forall (fun c => ~ In "loc" (bound_names c)) cells.
Proof.
  intros L lib fuel st st1 Hf Hst Hhead.
  pose proof (reachable_top_level lib st Hst) as Hl.
  pose proof (reachable_unbound lib "loc" st cells_do_not_bind_loc Hst) as Hloc.
  destruct (fig13_run lib fuel st Hf Hl Hloc) as [H1 _].
  pose proof (fig13_head_runs lib fuel st Hf Hl) as H. unfold wp in H.
  rewrite Hhead in H. cbn [fst snd] in H. destruct H as (_ & _ & Hloc1 & Hx & Hmu).
  split; [apply (H1 st1 Hhead)|]. split; [exact Hx|].
  split; [congruence|]. split; [exact Hmu|].
  apply List.Forall_forall. exact cells_do_not_bind_loc.
Qed.

Lemma fig13_raises_NameError_witness :
  run_cell counting_lib 6 fig13 (fresh 0%N)
  = (Exc (Exn "NameError" "name 'loc' is not defined"),
     snd (run_block (exec counting_lib 6) fig13_head (fresh 0%N))).
Proof.
  refine (proj1 (fig13_raises_NameError counting_lib 6 (fresh 0%N) _ _ _ _)).
  - lia.
  - apply reach_fresh.
  - vm_compute. reflexivity.
Defined.

(** Claim C4.  The Figure 11 cell raises TypeError at [z = [[0] * N] * D], at
    any point of a session: once the statements before it have run, [N] is
    bound to the list [[11502, 213, 1523, 1351]], the product [[0] * N]
    fails, and the run ends there: the state is the one those statements
    left, with the list [[0]] added to the heap, [z] is what it was before
    the cell, and the cell does what it would do without the statements after
    [z = ...], which are never reached. *)
Theorem fig11_raises_TypeError :
  forall {L} (lib : request -> heap_t -> L -> reply * L) (fuel : nat) (st st1 : state),
    (6 <= fuel)%nat ->
    reachable lib st ->
    run_block (exec lib fuel) fig11_head st = (Ok None, st1) ->
    env_get "N" (globals st1) = Some (VList (heap_next (heap st)))
    /\ heap_get (heap_next (heap st)) (heap st1)
       = Some [VInt 11502; VInt 213; VInt 1523; VInt 1351]
    /\ run_cell lib fuel fig11 st
       = (Exc (Exn "TypeError" "can't multiply sequence by non-int of type 'list'"),
          set_heap (heap_push [VInt 0] (heap st1)) st1)
    /\ run_cell lib fuel fig11 st
       = run_block (exec lib fuel) (fig11_head ++ [fig11_z]) st
    /\ env_get "z" (globals st1) = env_get "z" (globals st).
Proof.
  intros L lib fuel st st1 Hf Hst Hhead.
  pose proof (reachable_top_level lib st Hst) as Hl.
  destruct (fig11_run lib fuel st Hf Hl) as (H1 & H2 & _).
  destruct (H1 st1 Hhead) as (HN & Hh & Hrun).
  pose proof (fig11_head_runs lib fuel st Hf Hl) as H. unfold wp in H.
  rewrite Hhead in H. cbn [fst snd] in H. destruct H as (_ & _ & _ & Hz).
  repeat split; assumption.
Qed.

Lemma fig11_raises_TypeError_witness :
  run_cell counting_lib 6 fig11 (fresh 0%N)
  = (Exc (Exn "TypeError" "can't multiply sequence by non-int of type 'list'"),
     let st1 := snd (run_block (exec counting_lib 6) fig11_head (fresh 0%N)) in
     set_heap (heap_push [VInt 0] (heap st1)) st1).
Proof.
  refine (proj1 (proj2 (proj2
            (fig11_raises_TypeError counting_lib 6 (fresh 0%N) _ _ _ _)))).
  - lia.
  - apply reach_fresh.
  - vm_compute. reflexivity.
Defined.

(** What the loop of the Variational EM cell does, started in [st1]: the
    requests it makes are rounds of [inference_e.update()] then
    [inference_m.update()] and nothing else; they stop short of 10000 rounds
    only at a request the library answers with an exception, which is then
    the outcome; when the cell completes, they are exactly 10000 rounds; and
    when the two updates never throw, the cell completes. *)
Definition em_alternation {L} (lib : request -> heap_t -> L -> reply * L)
    (fuel : nat) (st st1 : state (L:=L)) : Prop :=
  exists oe om,
    env_get "inference_e" (globals st1) = Some (VLib oe)
    /\ env_get "inference_m" (globals st1) = Some (VLib om)
    /\ em_initialized oe om (trace st1)
    /\ exists r st2 evs,
         run_cell lib fuel variational_em st = (r, st2)
         /\ trace st2 = trace st1 ++ evs
         /\ (fst <$> evs) `prefix_of` em_rounds oe om (Z.to_nat 10000)
         /\ (r = Ok None -> fst <$> evs = em_rounds oe om (Z.to_nat 10000))
         /\ (r = Ok None
             \/ exists e req pre,
                  r = Exc e /\ evs = pre ++ [(req, Threw e)]
                  /\ Forall (fun ev => exists h, snd ev = Returned h) pre)
         /\ ((forall hp l, exists h l', lib (update_of oe) hp l = (Returned h, l')) ->
             (forall hp l, exists h l', lib (update_of om) hp l = (Returned h, l')) ->
             r = Ok None).

(** Claim C10.  In the Variational EM cell, at any point of a session, once
    the statements before the loop have run (the two [initialize()] calls and
    [tf.initialize_all_variables().run()] being the last of them), the loop
    makes 10000 rounds of exactly one [inference_e.update()] followed by
    exactly one [inference_m.update()], with no other request in between. *)
Theorem variational_em_alternates :
  forall {L} (lib : request -> heap_t -> L -> reply * L) (fuel : nat) (st st1 : state),
    (6 <= fuel)%nat ->
    reachable lib st ->
    run_block (exec lib fuel) variational_em_setup st = (Ok None, st1) ->
    em_alternation lib fuel st st1.
Proof.
  intros L lib fuel st st1 Hf Hst Hsetup.
  pose proof (reachable_top_level lib st Hst) as Hl.
  pose proof (reachable_unbound lib "range" st cells_do_not_bind_range Hst) as Hr.
  pose proof (em_setup_runs lib fuel st Hf Hl) as H. unfold wp in H.
  rewrite Hsetup in H. cbn [fst snd] in H.
  destruct H as (Hl1 & Hr1 & oe & om & He & Hm & Hinit).
  rewrite Hr in Hr1.
  exists oe, om. split; [exact He|]. split; [exact Hm|]. split; [exact Hinit|].
  pose proof (em_loop_runs lib fuel oe om st1 ltac:(lia) Hl1 Hr1 He Hm) as Hloop.
  apply wp_run in Hloop. destruct Hloop as (r & st2 & Hexec & evs & Htr & Hrun).
  assert (run_cell lib fuel variational_em st = (r, st2)) as Hcell.
  { unfold run_cell, variational_em. rewrite run_block_app, Hsetup.
    cbn [run_block]. unfold bind. rewrite Hexec.
    destruct r as [[v|]|e| |w]; reflexivity. }
  exists r, st2, evs.
  split; [exact Hcell|]. split; [exact Htr|].
  split; [eapply em_run_prefix; exact Hrun|].
  split; [intros ->; eapply em_run_complete; exact Hrun|].
  split; [eapply em_run_outcome; exact Hrun|].
  intros Te Tm. exact (em_run_total lib oe om _ r evs Te Tm Hrun).
Qed.

Lemma variational_em_alternates_witness :
  let st := snd (run_cell counting_lib 6 fig5 (fresh 0%N)) in
  em_alternation counting_lib 6 st
    (snd (run_block (exec counting_lib 6) variational_em_setup st)).
Proof.
  intros st.
  refine (variational_em_alternates counting_lib 6 st _ _ _ _).
  - lia.
  - apply reach_run; [apply reach_fresh | in_list].
  - vm_compute. reflexivity.
Defined.

(** ** The claims about the notebook as a whole *)

Ltac forall_list tac :=
  repeat (apply Forall_cons_2; [cbv beta; tac|]); apply Forall_nil_2.
Ltac not_in_list := let H := fresh in intros H; vm_compute in H; intuition discriminate.

Definition cell_names (p : block -> bool) : list string :=
  map fst (filter (fun c => p (snd c)) code_cells).


(** Claim C5 (where the notebook departs from it).  Some cells do contain
    loops and computation of their own: the Variational EM cell has a [for]
    loop, and the Figure 2 cell multiplies [28 * 28]. *)
Lemma variational_em_has_loop :
  ~ Forall (fun c => has_loop c = false /\ data_binops c = []) cells
  /\ In variational_em cells
  /\ has_loop variational_em = true
  /\ In (EBinOp Mult (EInt 28) (EInt 28)) (data_binops fig2).
Proof.
  split; [|split; [|split]].
  - intros H. apply Forall_forall with (x := variational_em) in H.
    + destruct H as [H _]. vm_compute in H. discriminate H.
    + vm_compute. in_list.
  - vm_compute. in_list.
  - reflexivity.
  - vm_compute. in_list.
Qed.

(** Claim C5, amended.  No cell contains a conditional ([if], [while],
    conditional expression), an exception handler, a class or a lambda, and
    every statement is an import, an assignment, an expression, a [def] with
    its [return], or a [for].  The [for] loops are the one of the Variational
    EM cell and the two nested ones of the Figure 11 cell, all over
    [range(...)]; three functions are defined; and the computation on plain
    data is the arithmetic [28 * 28], [float(N) / M], [0.5 / N] and the list
    repetitions of Figure 11.  Everything else composes library calls. *)
Theorem cells_control_constructs :
  Forall (fun c => has_conditional c = false /\ has_handler c = false
                   /\ has_class c = false /\ lambdas c = []
                   /\ forallb is_plain (all_stmts c) = true) cells
  /\ cell_names has_loop = ["Variational EM"; "Figure 11"]
  /\ flat_map for_heads cells
     = [ ("_", ECall (EName "range") [EInt 10000] []);
         ("d", ECall (EName "range") [EName "D"] []);
         ("n", ECall (EName "range") [ESubscript (EName "N") (EName "d")] []) ]
  /\ flat_map defined_functions cells
     = ["rnn_cell"; "generative_network"; "discriminative_network"]
  /\ flat_map data_binops cells
     = [ EBinOp Mult (EInt 28) (EInt 28); EBinOp Mult (EInt 28) (EInt 28);
         EBinOp Mult (EInt 28) (EInt 28); EBinOp Mult (EInt 28) (EInt 28);
         EBinOp Mult (EInt 28) (EInt 28);
         EBinOp Div (ECall (EName "float") [EName "N"] []) (EName "M");
         EBinOp Div (ECall (EName "float") [EName "N"] []) (EName "M");
         EBinOp Div (EFloat 5 (-1)) (EName "N");
         EBinOp Mult (EList [EBinOp Mult (EList [EInt 0]) (EName "N")]) (EName "D");
         EBinOp Mult (EList [EInt 0]) (EName "N");
         EBinOp Mult (EList [EBinOp Mult (EList [EInt 0]) (EName "N")]) (EName "D");
         EBinOp Mult (EList [EInt 0]) (EName "N") ].
Proof.
  split; [|split; [|split; [|split]]]; try reflexivity.
  forall_list ltac:(idtac; repeat split).
Qed.

(** Claim C7 (where the notebook departs from it).  The notebook does define
    functions of its own and calls one: the Figure 7 cell defines
    [generative_network] and [discriminative_network], and calls
    [generative_network(eps)]. *)
Lemma fig7_calls_its_own_function :
  flat_map defined_functions cells <> []
  /\ In fig7 cells
  /\ defined_functions fig7 = ["generative_network"; "discriminative_network"]
  /\ In (EName "generative_network", FromNotebook) (callee_origins fig7).
Proof.
  split; [|split; [|split]].
  - vm_compute. discriminate.
  - vm_compute. in_list.
  - reflexivity.
  - vm_compute. in_list.
Qed.

(** Claim C7, amended.  Every callee of the notebook comes from the external
    libraries (an imported name, an attribute of one, or an object a library
    call returned), except the builtins [range] and [float] and the
    notebook's own [generative_network].  The notebook defines three
    functions; the other two are not called by the notebook but passed to the
    libraries ([tf.scan], [ed.GANInference]).  The modules imported are
    tensorflow, edward, edward.models, keras.layers and numpy. *)
Theorem callees_library_builtin_or_own :
  flat_map (fun c => filter (fun p => negb (origin_eqb (snd p) FromLibrary))
                       (callee_origins c)) cells
  = [ (EName "generative_network", FromNotebook);
      (EName "range", FromBuiltin);
      (EName "float", FromBuiltin); (EName "float", FromBuiltin);
      (EName "range", FromBuiltin); (EName "range", FromBuiltin) ]
  /\ flat_map defined_functions cells
     = ["rnn_cell"; "generative_network"; "discriminative_network"]
  /\ flat_map functions_passed cells
     = [("tensorflow.scan", "rnn_cell");
        ("edward.GANInference", "discriminative_network")]
  /\ dedup (flat_map imported_modules cells)
     = ["tensorflow"; "edward.models"; "keras.layers"; "edward"; "numpy"].
Proof. split; [|split; [|split]]; reflexivity. Qed.

(** Claim C8.  No cell defines a class, and every value a cell assigns is
    either produced by the external libraries (a call to a library name, an
    operation on a library object, or the notebook's [generative_network],
    which returns the result of a library call) or plain Python data: the
    integer constants, the list of Figure 11 and the list repetitions. *)
Theorem no_class_and_library_entities :
  Forall (fun c => has_class c = false) cells
  /\ Forall (fun c => Forall (fun p => snd p = FromLibrary \/ snd p = FromData)
                        (assigned_origins c)) cells
  /\ flat_map (fun c => map fst (filter (fun p => origin_eqb (snd p) FromData)
                                   (assigned_origins c))) (cells)
     = map EName [ "N"; "d"; "H"; "D"; "N"; "D"; "K"; "T"; "N"; "d";
                   "N"; "M"; "D"; "K"; "N"; "D"; "T"; "N"; "D"; "H";
                   "D"; "N"; "K"; "V"; "z"; "w"; "N"; "M"; "K"; "N"; "D" ]
  /\ return_origin fig7 "generative_network" = FromLibrary.
Proof.
  split; [|split; [|split]].
  - forall_list ltac:(idtac; reflexivity).
  - forall_list ltac:(idtac; vm_compute;
                      forall_list ltac:(idtac; first [left; reflexivity | right; reflexivity])).
  - reflexivity.
  - reflexivity.
Qed.

(** Claim C9.  The cells hold no scheduling, concurrency, caching, protocol or
    pooling code.  They import the five library modules only, none of
    Python's modules for threads, processes, scheduling or protocols.  Every
    call of the notebook, the bodies of its functions included, has a callee
    with a path, and the paths are listed in full: each call is a call of a
    name of the five modules, of an object such a call returned or of an
    attribute of one (a path with "()"), of the builtins [range] and [float],
    or of the notebook's [generative_network]; none is one of tensorflow's
    coordinators, queues or sessions.  No cell has a handler to recover from
    a failure. *)
Theorem no_coordination_in_cells :
  dedup (flat_map imported_modules cells)
  = ["tensorflow"; "edward.models"; "keras.layers"; "edward"; "numpy"]
  /\ Forall (fun m => ~ In m coordination_modules) (flat_map imported_modules cells)
  /\ Forall (fun c => length (call_paths c) = length (callees c)) cells
  /\ length (flat_map callees cells) = 174%nat
  /\ flat_map call_paths cells = map Some (flat_map named_paths cells)
  /\ dedup (flat_map named_paths cells)
     = [ "edward.models.Beta"; "edward.models.Bernoulli"; "tensorflow.ones";
         "edward.models.Normal"; "tensorflow.zeros"; "keras.layers.Dense()";
         "keras.layers.Dense"; "tensorflow.placeholder"; "tensorflow.tanh";
         "edward.dot"; "tensorflow.scan"; "tensorflow.matmul";
         "edward.models.Categorical"; "tensorflow.gather"; "numpy.zeros";
         "tensorflow.Variable"; "tensorflow.exp"; "edward.VariationalInference";
         "edward.models.Empirical"; "generative_network"; "edward.GANInference";
         "edward.models.PointMass"; "edward.MAP";
         "edward.VariationalInference().initialize"; "edward.MAP().initialize";
         "tensorflow.initialize_all_variables().run";
         "tensorflow.initialize_all_variables"; "range";
         "edward.VariationalInference().update"; "edward.MAP().update";
         "tensorflow.nn.softplus"; "float"; "edward.HMC"; "edward.HMC().run";
         "tensorflow.nn.tanh"; "edward.models.Dirichlet";
         "edward.models.DirichletProcess";
         "edward.models.DirichletProcess().sample" ]
  /\ Forall (fun p => rooted_in (dedup (flat_map imported_modules cells)) p = true
                      \/ In p ["generative_network"; "range"; "float"])
       (flat_map named_paths cells)
  /\ Forall (fun p => ~ In p coordination_apis) (flat_map named_paths cells)
  /\ Forall (fun c => has_handler c = false) cells.
Proof.
  split; [reflexivity|]. split; [forall_list ltac:(idtac; not_in_list)|].
  split; [forall_list ltac:(idtac; reflexivity)|].
  split; [reflexivity|]. split; [reflexivity|]. split; [reflexivity|].
  split; [|split].
  - vm_compute.
    forall_list ltac:(idtac; first [left; reflexivity | right; in_list]).
  - forall_list ltac:(idtac; not_in_list).
  - forall_list ltac:(idtac; reflexivity).
Qed.

(** A library whose calls all fail: imports succeed, anything else throws. *)
Definition failing_lib (r : request) (h : heap_t) (n : N) : reply * N :=
  match r with
  | RImport _ => (Returned n, N.succ n)
  | _ => (Threw (Exn "RuntimeError" "library failure"), n)
  end.

(** Claim C6.  No cell has an exception handler, and every exception raised
    while a cell runs leaves the cell uncaught, at any point of a session:
    when the library throws, that request is the last one of the run and the
    exception is the outcome of the cell; and when a statement of the cell
    ends in an exception, whatever raised it, the cell ends there with that
    exception. *)
Theorem exceptions_leave_the_cell :
  forall {L} (lib : request -> heap_t -> L -> reply * L) (fuel : nat) (c : block)
         (st : state) (r : res (option value)) (st' : state),
    In c cells ->
    reachable lib st ->
    run_cell lib fuel c st = (r, st') ->
    has_handler c = false
    /\ (exists evs,
          trace st' = trace st ++ evs
          /\ forall req e, In (req, Threw e) evs ->
               r = Exc e /\ exists pre, evs = pre ++ [(req, Threw e)] /\ quiet pre)
    /\ (forall pre s post st1 e st2,
          c = pre ++ s :: post ->
          run_block (exec lib fuel) pre st = (Ok None, st1) ->
          exec lib fuel s st1 = (Exc e, st2) ->
          r = Exc e /\ st' = st2).
Proof.
  intros L lib fuel c st r st' Hc Hreach Hrun.
  pose proof (reachable_hf lib st Hreach) as Hst.
  pose proof (cells_have_no_handler c Hc) as Hh.
  split; [exact Hh|].
  destruct (safe_run_cell lib fuel c Hh st Hst) as (Hst' & _ & evs & Htr & Hf).
  rewrite Hrun in Hst', Htr, Hf. cbn [fst snd] in *.
  split.
  - exists evs. split; [exact Htr|]. intros req e Hin.
    destruct Hf as [Hq|(e' & pre & req' & -> & -> & Hp)].
    + unfold quiet in Hq. rewrite List.Forall_forall in Hq.
      destruct (Hq _ Hin) as [h Hh']. discriminate Hh'.
    + apply in_app_or in Hin. destruct Hin as [Hin|[[= -> ->]|[]]].
      * unfold quiet in Hp. rewrite List.Forall_forall in Hp.
        destruct (Hp _ Hin) as [h Hh']. discriminate Hh'.
      * split; [reflexivity|]. exists pre. auto.
  - intros pre s post st1 e st2 -> Hpre Hs.
    unfold run_cell in Hrun. rewrite run_block_app, Hpre in Hrun.
    cbn [run_block] in Hrun. unfold bind in Hrun. rewrite Hs in Hrun.
    injection Hrun as <- <-. auto.
Qed.

Lemma exceptions_leave_the_cell_witness :
  let out := run_cell failing_lib 6 fig1 (fresh 0%N) in
  fst out = Exc (Exn "RuntimeError" "library failure")
  /\ has_handler fig1 = false.
Proof.
  intros out.
  destruct (exceptions_leave_the_cell failing_lib 6 fig1 (fresh 0%N) (fst out) (snd out))
    as (H1 & _ & _).
  - vm_compute. in_list.
  - apply reach_fresh.
  - vm_compute. reflexivity.
  - split; [vm_compute; reflexivity|exact H1].
Defined.

(** ** The other cells

    The cells other than those of Figures 11 and 13 make no mistake of their
    own.  Their runs are followed against an arbitrary library, as before;
    two more things are needed for that: calls of the notebook's own
    functions, which run a body in a new frame, and the float arithmetic of
    two cells. *)

(** The variables of a new frame: the parameters bound to the arguments. *)
Definition no_vars : gmap string value := ∅.

Definition bind_params (ps : list string) (args : list value) : gmap string value :=
  foldr (fun p m => env_set p.1 p.2 m) no_vars (zip ps args).

(** How the result of a body becomes the result of the call. *)
Definition call_result (r : res (option value)) : res value :=
  match r with
  | Ok (Some v) => Ok v
  | Ok None => Ok VNone
  | Exc e => Exc e
  | OutOfFuel => OutOfFuel
  | Unsupported w => Unsupported w
  end.

Lemma bind_params_eq ps args : list_to_map (zip ps args) = bind_params ps args.
Proof. reflexivity. Qed.

Lemma env_get_no_vars x : env_get x no_vars = None.
Proof. apply env_get_empty. Qed.

Lemma wp_apply_own {L} (lib : request -> heap_t -> L -> reply * L)
    run name ps body args g lc hp l tr (Q : res value -> state -> Prop) :
  length args = length ps ->
  wp (run body)
     (State g (Some (Frame (ps ++ bound_names body) (bind_params ps args))) hp l tr)
     (fun r st' => Q (call_result r) (set_locals lc st')) ->
  wp (apply_function lib run (VFunc name ps body) args []) (State g lc hp l tr) Q.
Proof.
  intros Hlen H. unfold apply_function. rewrite Hlen, Nat.eqb_refl.
  apply wp_call_function. exact H.
Qed.

(** The integers that the cells turn into floats, and the divisors. *)
Lemma float_of_int_10000 : float_of_int 10000 = inr (float_of_Z 10000).
Proof. vm_compute. reflexivity. Qed.

Lemma float_of_int_128 : float_of_int 128 = inr (float_of_Z 128).
Proof. vm_compute. reflexivity. Qed.

Lemma float_of_int_581012 : float_of_int 581012 = inr (float_of_Z 581012).
Proof. vm_compute. reflexivity. Qed.

Lemma is_zero_128 : is_zero (float_of_Z 128) = false.
Proof. vm_compute. reflexivity. Qed.

Lemma is_zero_581012 : is_zero (float_of_Z 581012) = false.
Proof. vm_compute. reflexivity. Qed.

Global Opaque no_vars float_of_int SFadd SFsub SFmul SFdiv.

(** Frames and floats stay folded like the namespaces; [float(N)], [N / M]
    and [0.5 / N] are computed on the integers the cells use. *)
Ltac vars_simpl :=
  repeat first
    [ progress env_simpl
    | rewrite env_get_no_vars
    | rewrite float_of_int_10000
    | rewrite float_of_int_128
    | rewrite float_of_int_581012
    | rewrite is_zero_128
    | rewrite is_zero_581012 ].

Ltac compute_op := lazy; vars_simpl; lazy; vars_simpl; lazy; reflexivity.

(** One step of a run, as [step], with calls of the notebook's functions. *)
Ltac run_step :=
  lazymatch goal with
  | |- wp (apply_function _ _ (VFunc _ _ _) _ []) _ _ =>
      apply wp_apply_own; [reflexivity|];
      cbn [app bound_names flat_map binds bind_params zip zip_with foldr fst snd]
  | |- wp (apply_function _ _ (VBuiltin _) _ _) _ _ => eapply wp_eq; [ compute_op | ]
  | |- wp (lookup_name _) _ _ => eapply wp_eq; [ compute_op | ]
  | |- wp (binop_values _ _ (VLib _) _) _ _ => apply wp_binop_lib_l
  | |- wp (binop_values _ _ _ (VLib _)) _ _ => apply wp_binop_lib_r
  | |- wp (binop_values _ _ _ _) _ _ => eapply wp_eq; [ compute_op | ]
  | |- wp _ _ _ => step
  | |- bindQ _ _ (call_result _) _ =>
      cbv beta match delta [call_result]; cbn [set_locals locals globals heap ext trace]
  | |- bindQ _ _ _ _ => step
  end.

Section Ends.
Context {L : Type} (lib : request -> heap_t -> L -> reply * L).

(** The run ended in the exception [e], thrown by the library at the last
    request. *)
Definition library_threw (e : exn) (st' : state (L:=L)) : Prop :=
  exists req tr hp l l',
    trace st' = tr ++ [(req, Threw e)] /\ lib req hp l = (Threw e, l').

(** A run that completes with [P], or ends in what the library threw. *)
Definition runs_to (P : state (L:=L) -> Prop) (r : res (option value)) (st' : state)
    : Prop :=
  match r with
  | Ok None => P st'
  | Exc e => library_threw e st'
  | _ => False
  end.

End Ends.

(** The branch of a run in which the library threw. *)
Ltac threw :=
  unfold library_threw; cbn [trace];
  eexists _, _, _, _, _; split; [apply log_request_app | eassumption].

Section HeapFacts.
#[local] Transparent heap_push.

Lemma heap_push_app l (h : heap_t) : heap_push l h = h ++ [l].
Proof. reflexivity. Qed.

End HeapFacts.

(** The functions the notebook defines, as the values their [def]
    statements bind. *)
Definition rnn_cell : value :=
  VFunc "rnn_cell" ["hprev"; "xt"]
    [ SReturn (call (tf "tanh")
        [EBinOp Add
           (EBinOp Add (call (ed "dot") [EName "hprev"; EName "Wh"])
                       (call (ed "dot") [EName "xt"; EName "Wx"]))
           (EName "bh")]) ].

Definition generative_network : value :=
  VFunc "generative_network" ["eps"]
    [ assign "h" (call (Dense (EInt 256) (EStr "relu")) [EName "eps"]);
      SReturn (call (Dense (EBinOp Mult (EInt 28) (EInt 28)) ENone) [EName "h"]) ].

Definition discriminative_network : value :=
  VFunc "discriminative_network" ["x"]
    [ assign "h" (call (Dense (EBinOp Mult (EInt 28) (EInt 28)) (EStr "relu"))
                    [EName "x"]);
      SReturn (call (Dense (EInt 1) ENone) [EName "h"]) ].

(** At the end of a run that completed: the log and the heap as lists. *)
Ltac as_lists :=
  cbn [trace heap globals locals ext];
  rewrite ?heap_next_push, ?log_request_app, ?heap_push_app, <- ?app_assoc;
  cbn [app]; env_simpl.

Section ModelCells.
Context {L : Type} (lib : request -> heap_t -> L -> reply * L).

(** *** Figure 7 *)

(** What a completed run of the Figure 7 cell has done: the requests in
    order, the lists allocated, and the names bound. *)
Definition fig7_done (st st' : state (L:=L)) : Prop :=
  exists oed onp otf om ok hxt h0 h1 heps hd1 hh hd2 hx hinf,
    let a := heap_next (heap st) in
    trace st' = trace st ++
      [ (RImport "edward", Returned oed);
        (RImport "numpy", Returned onp);
        (RImport "tensorflow", Returned otf);
        (RImport "edward.models", Returned om);
        (RImport "keras.layers", Returned ok);
        (RCall (LAttr (LObj onp) "zeros") [VList a] [], Returned hxt);
        (RCall (LAttr (LObj otf) "zeros") [VList (1 + a)] [], Returned h0);
        (RCall (LAttr (LObj otf) "ones") [VList (2 + a)] [], Returned h1);
        (RCall (LAttr (LObj om) "Normal") []
           [("loc", VLib (LObj h0)); ("scale", VLib (LObj h1))], Returned heps);
        (RCall (LAttr (LObj ok) "Dense") [VInt 256] [("activation", VStr "relu")],
         Returned hd1);
        (RCall (LObj hd1) [VLib (LObj heps)] [], Returned hh);
        (RCall (LAttr (LObj ok) "Dense") [VInt 784] [("activation", VNone)],
         Returned hd2);
        (RCall (LObj hd2) [VLib (LObj hh)] [], Returned hx);
        (RCall (LAttr (LObj oed) "GANInference") []
           [("data", VDict [(VLib (LObj hx), VLib (LObj hxt))]);
            ("discriminator", discriminative_network)], Returned hinf) ]
    /\ heap st' = heap st ++ [ [VInt 55000; VInt 784]; [VInt 55000; VInt 50];
                               [VInt 55000; VInt 50] ]
    /\ locals st' = None
    /\ env_get "N" (globals st') = Some (VInt 55000)
    /\ env_get "x" (globals st') = Some (VLib (LObj hx))
    /\ env_get "inference" (globals st') = Some (VLib (LObj hinf))
    /\ env_get "generative_network" (globals st') = Some generative_network
    /\ env_get "discriminative_network" (globals st') = Some discriminative_network
    /\ env_get "h" (globals st') = env_get "h" (globals st).

Lemma fig7_runs (fuel : nat) (st : state) :
  (9 <= fuel)%nat -> locals st = None ->
  wp (run_cell lib fuel fig7) st (runs_to lib (fig7_done st)).
Proof.
  intros Hf Hl.
  do 9 (destruct fuel as [|fuel]; [lia|]).
  destruct st as [g lc hp l tr]; cbn [locals globals] in *; subst lc.
  unfold run_cell, fig7.
  repeat run_step; unfold runs_to; cbv beta match; try threw.
  unfold fig7_done. as_lists.
  eexists _, _, _, _, _, _, _, _, _, _, _, _, _, _.
  repeat split; reflexivity.
Qed.

(** *** Figure 5 *)

Definition fig5_done (st st' : state (L:=L)) : Prop :=
  exists otf om h0 h1 hb h2 hz h3 h4 hx,
    let a := heap_next (heap st) in
    trace st' = trace st ++
      [ (RImport "tensorflow", Returned otf);
        (RImport "edward.models", Returned om);
        (RCall (LAttr (LObj otf) "zeros") [VList a] [], Returned h0);
        (RCall (LAttr (LObj otf) "ones") [VList (1 + a)] [], Returned h1);
        (RCall (LAttr (LObj om) "Normal") []
           [("loc", VLib (LObj h0)); ("scale", VLib (LObj h1))], Returned hb);
        (RCall (LAttr (LObj otf) "zeros") [VList (2 + a)] [], Returned h2);
        (RCall (LAttr (LObj om) "Categorical") [] [("logits", VLib (LObj h2))],
         Returned hz);
        (RCall (LAttr (LObj otf) "gather") [VLib (LObj hb); VLib (LObj hz)] [],
         Returned h3);
        (RCall (LAttr (LObj otf) "ones") [VList (3 + a)] [], Returned h4);
        (RCall (LAttr (LObj om) "Normal") []
           [("loc", VLib (LObj h3)); ("scale", VLib (LObj h4))], Returned hx) ]
    /\ heap st' = heap st ++ [ [VInt 5; VInt 2]; [VInt 5; VInt 2];
                               [VInt 10000; VInt 5]; [VInt 10000; VInt 2] ]
    /\ locals st' = None
    /\ env_get "N" (globals st') = Some (VInt 10000)
    /\ env_get "D" (globals st') = Some (VInt 2)
    /\ env_get "K" (globals st') = Some (VInt 5)
    /\ env_get "beta" (globals st') = Some (VLib (LObj hb))
    /\ env_get "z" (globals st') = Some (VLib (LObj hz))
    /\ env_get "x" (globals st') = Some (VLib (LObj hx)).

Lemma fig5_runs (fuel : nat) (st : state) :
  (9 <= fuel)%nat -> locals st = None ->
  wp (run_cell lib fuel fig5) st (runs_to lib (fig5_done st)).
Proof.
  intros Hf Hl.
  do 9 (destruct fuel as [|fuel]; [lia|]).
  destruct st as [g lc hp l tr]; cbn [locals globals] in *; subst lc.
  unfold run_cell, fig5.
  repeat run_step; unfold runs_to; cbv beta match; try threw.
  unfold fig5_done. as_lists.
  eexists _, _, _, _, _, _, _, _, _, _.
  repeat split; reflexivity.
Qed.

(** *** The cells that read the model of Figure 5 *)

(** The names those cells read without binding them are bound. *)
Definition model_bound (vN vD vK vbeta vz vx : value) (st : state (L:=L)) : Prop :=
  env_get "N" (globals st) = Some vN
  /\ env_get "D" (globals st) = Some vD
  /\ env_get "K" (globals st) = Some vK
  /\ env_get "beta" (globals st) = Some vbeta
  /\ env_get "z" (globals st) = Some vz
  /\ env_get "x" (globals st) = Some vx.

(** Figure 6 (left): the last request builds the inference over the model
    variables as they are bound when the cell runs. *)
Definition fig6_left_done (vbeta vz vx : value) (st st' : state (L:=L)) : Prop :=
  exists oed hxt hqb hqz hinf pre,
    trace st' = pre ++
      [ (RCall (LAttr (LObj oed) "VariationalInference")
           [VDict [(vbeta, VLib (LObj hqb)); (vz, VLib (LObj hqz))]]
           [("data", VDict [(vx, VLib (LObj hxt))])], Returned hinf) ]
    /\ locals st' = None
    /\ env_get "x_train" (globals st') = Some (VLib (LObj hxt))
    /\ env_get "qbeta" (globals st') = Some (VLib (LObj hqb))
    /\ env_get "qz" (globals st') = Some (VLib (LObj hqz))
    /\ env_get "inference" (globals st') = Some (VLib (LObj hinf)).

Lemma fig6_left_runs (fuel : nat) (st : state) vN vD vK vbeta vz vx :
  (9 <= fuel)%nat -> locals st = None ->
  model_bound vN vD vK vbeta vz vx st ->
  wp (run_cell lib fuel fig6_left) st (runs_to lib (fig6_left_done vbeta vz vx st)).
Proof.
  intros Hf Hl (HN & HD & HK & Hb & Hz & Hx).
  do 9 (destruct fuel as [|fuel]; [lia|]).
  destruct st as [g lc hp l tr]; cbn [locals globals] in *; subst lc.
  unfold run_cell, fig6_left.
  repeat run_step; unfold runs_to; cbv beta match; try threw.
  unfold fig6_left_done. cbn [trace heap globals locals ext]. env_simpl.
  eexists _, _, _, _, _, _.
  split; [apply log_request_app|]. repeat split; reflexivity.
Qed.

(** Figure 6 (right). *)
Definition fig6_right_done (vN vD vK : value) (st st' : state (L:=L)) : Prop :=
  exists oed onp otf om hxt h0 h1 hqb h2 h3 hqz,
    let a := heap_next (heap st) in
    trace st' = trace st ++
      [ (RImport "edward", Returned oed);
        (RImport "numpy", Returned onp);
        (RImport "tensorflow", Returned otf);
        (RImport "edward.models", Returned om);
        (RCall (LAttr (LObj onp) "zeros") [VList a] [], Returned hxt);
        (RCall (LAttr (LObj otf) "zeros") [VList (1 + a)] [], Returned h0);
        (RCall (LAttr (LObj otf) "Variable") [VLib (LObj h0)] [], Returned h1);
        (RCall (LAttr (LObj om) "Empirical") [] [("params", VLib (LObj h1))],
         Returned hqb);
        (RCall (LAttr (LObj otf) "zeros") [VList (2 + a)] [], Returned h2);
        (RCall (LAttr (LObj otf) "Variable") [VLib (LObj h2)] [], Returned h3);
        (RCall (LAttr (LObj om) "Empirical") [] [("params", VLib (LObj h3))],
         Returned hqz) ]
    /\ heap st' = heap st ++ [ [vN; vD]; [VInt 10000; vK; vD]; [VInt 10000; vN] ]
    /\ locals st' = None
    /\ env_get "qbeta" (globals st') = Some (VLib (LObj hqb))
    /\ env_get "qz" (globals st') = Some (VLib (LObj hqz))
    /\ env_get "inference" (globals st') = env_get "inference" (globals st).

Lemma fig6_right_runs (fuel : nat) (st : state) vN vD vK vbeta vz vx :
  (9 <= fuel)%nat -> locals st = None ->
  model_bound vN vD vK vbeta vz vx st ->
  wp (run_cell lib fuel fig6_right) st (runs_to lib (fig6_right_done vN vD vK st)).
Proof.
  intros Hf Hl (HN & HD & HK & Hb & Hz & Hx).
  do 9 (destruct fuel as [|fuel]; [lia|]).
  destruct st as [g lc hp l tr]; cbn [locals globals] in *; subst lc.
  unfold run_cell, fig6_right.
  repeat run_step; unfold runs_to; cbv beta match; try threw.
  unfold fig6_right_done. as_lists.
  eexists _, _, _, _, _, _, _, _, _, _, _.
  repeat split; reflexivity.
Qed.

(** The statements of the variational EM cell before its loop. *)
Definition em_setup_done (vN vD vK vbeta vz vx : value) (st st' : state (L:=L))
    : Prop :=
  exists oed onp otf om hxt h0 h1 hqb h2 h3 hqz he hm hi1 hi2 hi3 hi4,
    let a := heap_next (heap st) in
    trace st' = trace st ++
      [ (RImport "edward", Returned oed);
        (RImport "numpy", Returned onp);
        (RImport "tensorflow", Returned otf);
        (RImport "edward.models", Returned om);
        (RCall (LAttr (LObj onp) "zeros") [VList a] [], Returned hxt);
        (RCall (LAttr (LObj otf) "zeros") [VList (1 + a)] [], Returned h0);
        (RCall (LAttr (LObj otf) "Variable") [VLib (LObj h0)] [], Returned h1);
        (RCall (LAttr (LObj om) "PointMass") [] [("params", VLib (LObj h1))],
         Returned hqb);
        (RCall (LAttr (LObj otf) "zeros") [VList (2 + a)] [], Returned h2);
        (RCall (LAttr (LObj otf) "Variable") [VLib (LObj h2)] [], Returned h3);
        (RCall (LAttr (LObj om) "Categorical") [] [("logits", VLib (LObj h3))],
         Returned hqz);
        (RCall (LAttr (LObj oed) "VariationalInference")
           [VDict [(vz, VLib (LObj hqz))]]
           [("data", VDict [(vx, VLib (LObj hxt)); (vbeta, VLib (LObj hqb))])],
         Returned he);
        (RCall (LAttr (LObj oed) "MAP")
           [VDict [(vbeta, VLib (LObj hqb))]]
           [("data", VDict [(vx, VLib (LObj hxt)); (vz, VLib (LObj hqz))])],
         Returned hm);
        (RCall (LAttr (LObj he) "initialize") [] [], Returned hi1);
        (RCall (LAttr (LObj hm) "initialize") [] [], Returned hi2);
        (RCall (LAttr (LObj otf) "initialize_all_variables") [] [], Returned hi3);
        (RCall (LAttr (LObj hi3) "run") [] [], Returned hi4) ]
    /\ heap st' = heap st ++ [ [vN; vD]; [vK; vD]; [vN; vK] ]
    /\ locals st' = None
    /\ env_get "inference_e" (globals st') = Some (VLib (LObj he))
    /\ env_get "inference_m" (globals st') = Some (VLib (LObj hm))
    /\ env_get "range" (globals st') = env_get "range" (globals st).

Lemma em_setup_trace (fuel : nat) (st : state) vN vD vK vbeta vz vx :
  (9 <= fuel)%nat -> locals st = None ->
  model_bound vN vD vK vbeta vz vx st ->
  wp (run_block (exec lib fuel) variational_em_setup) st
     (runs_to lib (em_setup_done vN vD vK vbeta vz vx st)).
Proof.
  intros Hf Hl (HN & HD & HK & Hb & Hz & Hx).
  do 9 (destruct fuel as [|fuel]; [lia|]).
  destruct st as [g lc hp l tr]; cbn [locals globals] in *; subst lc.
  unfold variational_em_setup.
  repeat run_step; unfold runs_to; cbv beta match; try threw.
  unfold em_setup_done. as_lists.
  eexists _, _, _, _, _, _, _, _, _, _, _, _, _, _, _, _, _.
  repeat split; reflexivity.
Qed.

End ModelCells.

Section InferenceCells.
Context {L : Type} (lib : request -> heap_t -> L -> reply * L).

(** *** Data subsampling *)

(** [float(N) / M]: the float 78.125. *)
Definition subsampling_scale : spec_float := S754_finite false 5497558138880000 (-46).

Lemma subsampling_scale_eq :
  SFdiv prec emax (float_of_Z 10000) (float_of_Z 128) = subsampling_scale.
Proof. vm_compute. reflexivity. Qed.

Definition data_subsampling_done (st st' : state (L:=L)) : Prop :=
  exists oed otf om hxb h0 h1 hb h2 hz h3 h4 hx h5 h6 h7 h8 h9 hqb h10 h11 hqz hinf hr,
    let a := heap_next (heap st) in
    trace st' = trace st ++
      [ (RImport "edward", Returned oed);
        (RImport "tensorflow", Returned otf);
        (RImport "edward.models", Returned om);
        (RCall (LAttr (LObj otf) "placeholder")
           [VLib (LAttr (LObj otf) "float32"); VList a] [], Returned hxb);
        (RCall (LAttr (LObj otf) "zeros") [VList (1 + a)] [], Returned h0);
        (RCall (LAttr (LObj otf) "ones") [VList (2 + a)] [], Returned h1);
        (RCall (LAttr (LObj om) "Normal") []
           [("loc", VLib (LObj h0)); ("scale", VLib (LObj h1))], Returned hb);
        (RCall (LAttr (LObj otf) "zeros") [VList (3 + a)] [], Returned h2);
        (RCall (LAttr (LObj om) "Categorical") [] [("logits", VLib (LObj h2))],
         Returned hz);
        (RCall (LAttr (LObj otf) "gather") [VLib (LObj hb); VLib (LObj hz)] [],
         Returned h3);
        (RCall (LAttr (LObj otf) "ones") [VList (4 + a)] [], Returned h4);
        (RCall (LAttr (LObj om) "Normal") []
           [("loc", VLib (LObj h3)); ("scale", VLib (LObj h4))], Returned hx);
        (RCall (LAttr (LObj otf) "zeros") [VList (5 + a)] [], Returned h5);
        (RCall (LAttr (LObj otf) "Variable") [VLib (LObj h5)] [], Returned h6);
        (RCall (LAttr (LObj otf) "zeros") [VList (6 + a)] [], Returned h7);
        (RCall (LAttr (LObj otf) "Variable") [VLib (LObj h7)] [], Returned h8);
        (RCall (LAttr (LAttr (LObj otf) "nn") "softplus") [VLib (LObj h8)] [],
         Returned h9);
        (RCall (LAttr (LObj om) "Normal") []
           [("loc", VLib (LObj h6)); ("scale", VLib (LObj h9))], Returned hqb);
        (RCall (LAttr (LObj otf) "zeros") [VList (7 + a)] [], Returned h10);
        (RCall (LAttr (LObj otf) "Variable") [VLib (LObj h10)] [], Returned h11);
        (RCall (LAttr (LObj om) "Categorical") [] [("logits", VLib (LObj h11))],
         Returned hqz);
        (RCall (LAttr (LObj oed) "VariationalInference")
           [VDict [(VLib (LObj hb), VLib (LObj hqb)); (VLib (LObj hz), VLib (LObj hqz))]]
           [("data", VDict [(VLib (LObj hx), VLib (LObj hxb))])], Returned hinf);
        (RCall (LAttr (LObj hinf) "initialize") []
           [("scale", VDict [(VLib (LObj hx), VFloat subsampling_scale);
                             (VLib (LObj hz), VFloat subsampling_scale)])],
         Returned hr) ]
    /\ heap st' = heap st ++
         [ [VInt 128; VInt 2]; [VInt 5; VInt 2]; [VInt 5; VInt 2]; [VInt 128; VInt 5];
           [VInt 128; VInt 2]; [VInt 5; VInt 2]; [VInt 5; VInt 2]; [VInt 128; VInt 2] ]
    /\ locals st' = None.

Lemma data_subsampling_runs (fuel : nat) (st : state) :
  (9 <= fuel)%nat -> locals st = None ->
  env_get "float" (globals st) = None ->
  wp (run_cell lib fuel data_subsampling) st (runs_to lib (data_subsampling_done st)).
Proof.
  intros Hf Hl Hfl.
  do 9 (destruct fuel as [|fuel]; [lia|]).
  destruct st as [g lc hp l tr]; cbn [locals globals] in *; subst lc.
  unfold run_cell, data_subsampling.
  repeat run_step; unfold runs_to; cbv beta match; try threw.
  unfold data_subsampling_done. as_lists.
  change (SFdiv 53 1024) with (SFdiv prec emax). rewrite !subsampling_scale_eq.
  eexists _, _, _, _, _, _, _, _, _, _, _, _, _, _, _, _, _, _, _, _, _, _, _.
  repeat split; reflexivity.
Qed.

(** *** Figure 9 *)

(** [0.5 / N] for [N = 581012]: the float nearest to 8.605674237365149e-07. *)
Definition fig9_step_size : spec_float := S754_finite false 8127829516205595 (-73).

Lemma fig9_step_size_eq :
  SFdiv prec emax (float_of_literal 5 (-1)) (float_of_Z 581012) = fig9_step_size.
Proof. vm_compute. reflexivity. Qed.

Definition fig9_done (st st' : state (L:=L)) : Prop :=
  exists oed onp otf om hxd hyd hx h0 h1 hb h2 hy h3 h4 hqb hinf hr,
    let a := heap_next (heap st) in
    trace st' = trace st ++
      [ (RImport "edward", Returned oed);
        (RImport "numpy", Returned onp);
        (RImport "tensorflow", Returned otf);
        (RImport "edward.models", Returned om);
        (RCall (LAttr (LObj onp) "zeros") [VList a] [], Returned hxd);
        (RCall (LAttr (LObj onp) "zeros") [VList (1 + a)] [], Returned hyd);
        (RCall (LAttr (LObj otf) "Variable") [VLib (LObj hxd)]
           [("trainable", VBool false)], Returned hx);
        (RCall (LAttr (LObj otf) "zeros") [VInt 54] [], Returned h0);
        (RCall (LAttr (LObj otf) "ones") [VInt 54] [], Returned h1);
        (RCall (LAttr (LObj om) "Normal") []
           [("loc", VLib (LObj h0)); ("scale", VLib (LObj h1))], Returned hb);
        (RCall (LAttr (LObj oed) "dot") [VLib (LObj hx); VLib (LObj hb)] [],
         Returned h2);
        (RCall (LAttr (LObj om) "Bernoulli") [] [("logits", VLib (LObj h2))],
         Returned hy);
        (RCall (LAttr (LObj otf) "zeros") [VList (2 + a)] [], Returned h3);
        (RCall (LAttr (LObj otf) "Variable") [VLib (LObj h3)] [], Returned h4);
        (RCall (LAttr (LObj om) "Empirical") [] [("params", VLib (LObj h4))],
         Returned hqb);
        (RCall (LAttr (LObj oed) "HMC")
           [VDict [(VLib (LObj hb), VLib (LObj hqb))]]
           [("data", VDict [(VLib (LObj hy), VLib (LObj hyd))])], Returned hinf);
        (RCall (LAttr (LObj hinf) "run") []
           [("step_size", VFloat fig9_step_size); ("n_steps", VInt 10)],
         Returned hr) ]
    /\ heap st' = heap st ++
         [ [VInt 581012; VInt 54]; [VInt 581012]; [VInt 100; VInt 54] ]
    /\ locals st' = None.

Lemma fig9_runs (fuel : nat) (st : state) :
  (9 <= fuel)%nat -> locals st = None ->
  env_get "False" (globals st) = None ->
  wp (run_cell lib fuel fig9) st (runs_to lib (fig9_done st)).
Proof.
  intros Hf Hl Hfl.
  do 9 (destruct fuel as [|fuel]; [lia|]).
  destruct st as [g lc hp l tr]; cbn [locals globals] in *; subst lc.
  unfold run_cell, fig9.
  repeat run_step; unfold runs_to; cbv beta match; try threw.
  unfold fig9_done. as_lists.
  change (SFdiv 53 1024) with (SFdiv prec emax). rewrite !fig9_step_size_eq.
  eexists _, _, _, _, _, _, _, _, _, _, _, _, _, _, _, _, _.
  repeat split; reflexivity.
Qed.

End InferenceCells.

Section OtherCells.
Context {L : Type} (lib : request -> heap_t -> L -> reply * L).

(** *** Figures 1, 2, 10 and 12 *)

Lemma fig1_runs (fuel : nat) (st : state) :
  (9 <= fuel)%nat -> locals st = None ->
  wp (run_cell lib fuel fig1) st (runs_to lib (fun st' => locals st' = None)).
Proof.
  intros Hf Hl.
  do 9 (destruct fuel as [|fuel]; [lia|]).
  destruct st as [g lc hp l tr]; cbn [locals globals] in *; subst lc.
  unfold run_cell, fig1.
  repeat run_step; unfold runs_to; cbv beta match; try threw.
  reflexivity.
Qed.

Lemma fig2_runs (fuel : nat) (st : state) :
  (9 <= fuel)%nat -> locals st = None ->
  wp (run_cell lib fuel fig2) st (runs_to lib (fun st' => locals st' = None)).
Proof.
  intros Hf Hl.
  do 9 (destruct fuel as [|fuel]; [lia|]).
  destruct st as [g lc hp l tr]; cbn [locals globals] in *; subst lc.
  unfold run_cell, fig2.
  repeat run_step; unfold runs_to; cbv beta match; try threw.
  reflexivity.
Qed.

Lemma fig10_runs (fuel : nat) (st : state) :
  (9 <= fuel)%nat -> locals st = None ->
  wp (run_cell lib fuel fig10) st (runs_to lib (fun st' => locals st' = None)).
Proof.
  intros Hf Hl.
  do 9 (destruct fuel as [|fuel]; [lia|]).
  destruct st as [g lc hp l tr]; cbn [locals globals] in *; subst lc.
  unfold run_cell, fig10.
  repeat run_step; unfold runs_to; cbv beta match; try threw.
  reflexivity.
Qed.

Lemma fig12_runs (fuel : nat) (st : state) :
  (9 <= fuel)%nat -> locals st = None ->
  env_get "True" (globals st) = None ->
  wp (run_cell lib fuel fig12) st (runs_to lib (fun st' => locals st' = None)).
Proof.
  intros Hf Hl Ht.
  do 9 (destruct fuel as [|fuel]; [lia|]).
  destruct st as [g lc hp l tr]; cbn [locals globals] in *; subst lc.
  unfold run_cell, fig12.
  repeat run_step; unfold runs_to; cbv beta match; try threw.
  reflexivity.
Qed.

(** *** Figure 3 *)

(** What a completed run of the Figure 3 cell has done: all its requests in
    order, the lists allocated, and the names bound.  [tf.scan] is handed
    the function [rnn_cell] itself, the placeholder bound to [x], and
    [tf.zeros(H)] as the initializer. *)
Definition fig3_done (st st' : state (L:=L)) : Prop :=
  exists oed otf om h0 h1 hWh h2 h3 hWx h4 h5 hWy h6 h7 hbh h8 h9 hby hx hi hh hm hs hy,
    let a := heap_next (heap st) in
    trace st' = trace st ++
      [ (RImport "edward", Returned oed);
        (RImport "tensorflow", Returned otf);
        (RImport "edward.models", Returned om);
        (RCall (LAttr (LObj otf) "zeros") [VList a] [], Returned h0);
        (RCall (LAttr (LObj otf) "ones") [VList (1 + a)] [], Returned h1);
        (RCall (LAttr (LObj om) "Normal") []
           [("loc", VLib (LObj h0)); ("scale", VLib (LObj h1))], Returned hWh);
        (RCall (LAttr (LObj otf) "zeros") [VList (2 + a)] [], Returned h2);
        (RCall (LAttr (LObj otf) "ones") [VList (3 + a)] [], Returned h3);
        (RCall (LAttr (LObj om) "Normal") []
           [("loc", VLib (LObj h2)); ("scale", VLib (LObj h3))], Returned hWx);
        (RCall (LAttr (LObj otf) "zeros") [VList (4 + a)] [], Returned h4);
        (RCall (LAttr (LObj otf) "ones") [VList (5 + a)] [], Returned h5);
        (RCall (LAttr (LObj om) "Normal") []
           [("loc", VLib (LObj h4)); ("scale", VLib (LObj h5))], Returned hWy);
        (RCall (LAttr (LObj otf) "zeros") [VInt 50] [], Returned h6);
        (RCall (LAttr (LObj otf) "ones") [VInt 50] [], Returned h7);
        (RCall (LAttr (LObj om) "Normal") []
           [("loc", VLib (LObj h6)); ("scale", VLib (LObj h7))], Returned hbh);
        (RCall (LAttr (LObj otf) "zeros") [VInt 1] [], Returned h8);
        (RCall (LAttr (LObj otf) "ones") [VInt 1] [], Returned h9);
        (RCall (LAttr (LObj om) "Normal") []
           [("loc", VLib (LObj h8)); ("scale", VLib (LObj h9))], Returned hby);
        (RCall (LAttr (LObj otf) "placeholder")
           [VLib (LAttr (LObj otf) "float32"); VList (6 + a)] [], Returned hx);
        (RCall (LAttr (LObj otf) "zeros") [VInt 50] [], Returned hi);
        (RCall (LAttr (LObj otf) "scan") [rnn_cell; VLib (LObj hx)]
           [("initializer", VLib (LObj hi))], Returned hh);
        (RCall (LAttr (LObj otf) "matmul") [VLib (LObj hh); VLib (LObj hWy)] [],
         Returned hm);
        (RBinOp Add (VLib (LObj hm)) (VLib (LObj hby)), Returned hs);
        (RCall (LAttr (LObj om) "Normal") []
           [("loc", VLib (LObj hs)); ("scale", VFloat (float_of_literal 10 (-1)))],
         Returned hy) ]
    /\ heap st' = heap st ++
         [ [VInt 50; VInt 50]; [VInt 50; VInt 50]; [VInt 10; VInt 50];
           [VInt 10; VInt 50]; [VInt 50; VInt 1]; [VInt 50; VInt 1];
           [VNone; VInt 10] ]
    /\ locals st' = None
    /\ env_get "ed" (globals st') = Some (VLib (LObj oed))
    /\ env_get "tf" (globals st') = Some (VLib (LObj otf))
    /\ env_get "rnn_cell" (globals st') = Some rnn_cell
    /\ env_get "Wh" (globals st') = Some (VLib (LObj hWh))
    /\ env_get "Wx" (globals st') = Some (VLib (LObj hWx))
    /\ env_get "bh" (globals st') = Some (VLib (LObj hbh))
    /\ env_get "x" (globals st') = Some (VLib (LObj hx))
    /\ env_get "h" (globals st') = Some (VLib (LObj hh))
    /\ env_get "y" (globals st') = Some (VLib (LObj hy)).

Lemma fig3_runs (fuel : nat) (st : state) :
  (9 <= fuel)%nat -> locals st = None ->
  wp (run_cell lib fuel fig3) st (runs_to lib (fig3_done st)).
Proof.
  intros Hf Hl.
  do 9 (destruct fuel as [|fuel]; [lia|]).
  destruct st as [g lc hp l tr]; cbn [locals globals] in *; subst lc.
  unfold run_cell, fig3.
  repeat run_step; unfold runs_to; cbv beta match; try threw.
  unfold fig3_done. as_lists.
  eexists _, _, _, _, _, _, _, _, _, _, _, _, _, _, _, _, _, _, _, _, _, _, _, _.
  repeat split; reflexivity.
Qed.

(** *** Figure 11, up to [z = ...] *)

Lemma fig11_head_only_library (fuel : nat) (st : state) :
  (9 <= fuel)%nat -> locals st = None ->
  wp (run_block (exec lib fuel) fig11_head) st
     (runs_to lib (fun st' =>
        locals st' = None /\ exists a, env_get "N" (globals st') = Some (VList a))).
Proof.
  intros Hf Hl.
  do 9 (destruct fuel as [|fuel]; [lia|]).
  destruct st as [g lc hp l tr]; cbn [locals globals] in *; subst lc.
  unfold fig11_head.
  repeat run_step; unfold runs_to; cbv beta match; try threw.
  cbn [locals globals]. env_simpl. eauto.
Qed.

End OtherCells.

(** No cell binds the name of a builtin that the notebook uses. *)
Lemma cells_do_not_bind_float c : In c cells -> ~ In "float" (bound_names c).
Proof.
  unfold cells, code_cells. cbn [map snd In]. intros H.
  repeat (destruct H as [<-|H]; [let K := fresh in
                                 intros K; vm_compute in K; intuition discriminate|]).
  contradiction.
Qed.

Lemma cells_do_not_bind_True c : In c cells -> ~ In "True" (bound_names c).
Proof.
  unfold cells, code_cells. cbn [map snd In]. intros H.
  repeat (destruct H as [<-|H]; [let K := fresh in
                                 intros K; vm_compute in K; intuition discriminate|]).
  contradiction.
Qed.

Lemma cells_do_not_bind_False c : In c cells -> ~ In "False" (bound_names c).
Proof.
  unfold cells, code_cells. cbn [map snd In]. intros H.
  repeat (destruct H as [<-|H]; [let K := fresh in
                                 intros K; vm_compute in K; intuition discriminate|]).
  contradiction.
Qed.

Lemma last_range_10000 : last (range_list 10000) = Some (VInt 9999).
Proof. vm_compute. reflexivity. Qed.

Section Loop.
Context {L : Type} (lib : request -> heap_t -> L -> reply * L).

(** *** The loop of the variational EM cell *)

(** A run of the loop that ended in an exception ended in one the library
    threw, at the last request. *)
Lemma em_run_threw oe om n r evs :
  em_run lib oe om n r evs ->
  r = Ok None
  \/ exists e req pre hp l l',
       r = Exc e /\ evs = pre ++ [(req, Threw e)] /\ lib req hp l = (Threw e, l').
Proof.
  induction 1 as [|n e hp l l' H|n h e hp l l' H|n h1 h2 r evs H IH].
  - auto.
  - right. exists e, (update_of oe), [], hp, l, l'. auto.
  - right. exists e, (update_of om), [(update_of oe, Returned h)], hp, l, l'. auto.
  - destruct IH as [->|(e & req & pre & hp & l & l' & -> & -> & Hlib)]; auto.
    right.
    exists e, req, ((update_of oe, Returned h1) :: (update_of om, Returned h2) :: pre),
      hp, l, l'.
    auto.
Qed.

(** What the iterations leave behind when they all complete: the loop
    variable holds the last item, and nothing else has changed among the
    globals or in the heap. *)
Definition loop_left (st : state (L:=L)) (items : list value) (st' : state (L:=L))
    : Prop :=
  locals st' = None
  /\ heap st' = heap st
  /\ env_get "_" (globals st')
     = match last items with Some v => Some v | None => env_get "_" (globals st) end
  /\ forall x, x <> "_" -> env_get x (globals st') = env_get x (globals st).

Lemma em_iterations_state (fuel : nat) oe om (items : list value) :
  (4 <= fuel)%nat ->
  forall st : state,
  locals st = None ->
  env_get "inference_e" (globals st) = Some (VLib oe) ->
  env_get "inference_m" (globals st) = Some (VLib om) ->
  wp (for_each (em_body lib fuel) items) st (fun r st' =>
     r = Ok None -> loop_left st items st').
Proof.
  intros Hf.
  do 4 (destruct fuel as [|fuel]; [lia|]).
  induction items as [|v items IH]; intros st Hl He Hm.
  - eapply wp_eq; [reflexivity|]. intros _. repeat split; auto.
  - destruct st as [g lc hp l tr]; cbn [locals globals trace] in *; subst lc.
    unfold em_body at 1.
    repeat step; finish; try (intros K; discriminate K).
    eapply wp_mono.
    + apply IH; cbn [locals globals]; env_simpl; auto.
    + unfold loop_left. cbn [globals heap]. intros r st' H Hr.
      destruct (H Hr) as (Hl' & Hh & Hu & Hx).
      split; [exact Hl'|]. split; [exact Hh|]. split.
      * rewrite Hu. destruct items as [|w items]; [cbn [last]; env_simpl; reflexivity|].
        change (last (v :: w :: items)) with (last (w :: items)).
        destruct (last (w :: items)) eqn:E; [reflexivity|].
        apply last_None in E. discriminate E.
      * intros x Hne. rewrite (Hx x Hne). apply env_get_set_ne. exact Hne.
Qed.

Lemma em_loop_state (fuel : nat) oe om (st : state) :
  (5 <= fuel)%nat ->
  locals st = None ->
  env_get "range" (globals st) = None ->
  env_get "inference_e" (globals st) = Some (VLib oe) ->
  env_get "inference_m" (globals st) = Some (VLib om) ->
  wp (exec lib fuel variational_em_loop) st (fun r st' =>
     r = Ok None ->
     locals st' = None
     /\ heap st' = heap st ++ [range_list 10000]
     /\ env_get "_" (globals st') = Some (VInt 9999)
     /\ forall x, x <> "_" -> env_get x (globals st') = env_get x (globals st)).
Proof.
  intros Hf Hl Hr He Hm.
  destruct fuel as [|fuel]; [lia|].
  assert (4 <= fuel)%nat as Hf' by lia.
  destruct st as [g lc hp l tr]; cbn [locals globals trace heap] in *; subst lc.
  unfold variational_em_loop.
  step. step.
  destruct fuel as [|fuel]; [lia|]. destruct fuel as [|fuel]; [lia|].
  repeat step.
  eapply wp_mono.
  - apply (em_iterations_state (S (S fuel)) oe om); cbn [locals globals]; auto.
  - unfold loop_left. cbn [globals heap]. intros r st' H K.
    destruct (H K) as (Hl' & Hh & Hu & Hx).
    rewrite last_range_10000 in Hu. rewrite heap_push_app in Hh. auto.
Qed.

End Loop.

Section Outcomes.
Context {L : Type} (lib : request -> heap_t -> L -> reply * L).

(** *** How the runs end *)

(** A run that completed, or that ended in what the library threw. *)
Definition ends_well (out : res (option value) * state (L:=L)) : Prop :=
  fst out = Ok None \/ exists e, fst out = Exc e /\ library_threw lib e (snd out).

Lemma runs_to_ends_well (m : M (option value)) (st : state) P :
  wp m st (runs_to lib P) -> ends_well (m st).
Proof.
  unfold wp, ends_well, runs_to.
  destruct (m st) as [[[v|]|e| |w] st']; cbn [fst snd]; try contradiction; eauto.
Qed.

Lemma runs_to_done (m : M (option value)) (st st' : state) P :
  wp m st (runs_to lib P) -> m st = (Ok None, st') -> P st'.
Proof. unfold wp, runs_to. intros H E. rewrite E in H. exact H. Qed.

(** A cell leaves the names it does not bind as they were. *)
Lemma kept x fuel c (st : state) :
  ~ In x (bound_names c) ->
  env_get x (globals (snd (run_cell lib fuel c st))) = env_get x (globals st).
Proof.
  intros Hx. destruct (keeps_run_cell lib x fuel c st) as [_ H]; auto.
Qed.

Lemma model_bound_kept fuel c (st : state) vN vD vK vbeta vz vx :
  Forall (fun x => ~ In x (bound_names c)) ["N"; "D"; "K"; "beta"; "z"; "x"] ->
  model_bound vN vD vK vbeta vz vx st ->
  model_bound vN vD vK vbeta vz vx (snd (run_cell lib fuel c st)).
Proof.
  intros Hc (HN & HD & HK & Hb & Hz & Hx). unfold model_bound.
  repeat (apply Forall_cons_1 in Hc; destruct Hc as [? Hc]).
  rewrite !kept by assumption. repeat split; assumption.
Qed.

(** The variational EM cell, setup and loop. *)
Lemma variational_em_runs (fuel : nat) (st : state) vN vD vK vbeta vz vx :
  (9 <= fuel)%nat -> locals st = None ->
  env_get "range" (globals st) = None ->
  model_bound vN vD vK vbeta vz vx st ->
  wp (run_cell lib fuel variational_em) st (runs_to lib (fun st' => locals st' = None)).
Proof.
  intros Hf Hl Hr Hm.
  pose proof (em_setup_trace lib fuel st vN vD vK vbeta vz vx Hf Hl Hm) as H.
  unfold wp in *. unfold run_cell, variational_em. rewrite run_block_app.
  destruct (run_block (exec lib fuel) variational_em_setup st) as [[[v|]|e| |w] st1];
    cbn [fst snd runs_to] in *; try contradiction; [|exact H].
  destruct H as (oed & onp & otf & om & hxt & h0 & h1 & hqb & h2 & h3 & hqz & he & hm
                 & hi1 & hi2 & hi3 & hi4 & _ & _ & Hl1 & He & Hm1 & Hr1).
  rewrite Hr in Hr1.
  pose proof (em_loop_runs lib fuel _ _ st1 ltac:(lia) Hl1 Hr1 He Hm1) as Hloop.
  pose proof (em_loop_state lib fuel _ _ st1 ltac:(lia) Hl1 Hr1 He Hm1) as Hstate.
  unfold wp in Hloop, Hstate.
  cbn [run_block]. unfold bind.
  destruct (exec lib fuel variational_em_loop st1) as [r st2]. cbn [fst snd] in *.
  destruct Hloop as (evs & Htr & Hrun).
  destruct (em_run_threw lib _ _ _ _ _ Hrun)
    as [->|(e & req & pre & hp & l & l' & -> & -> & Hlib)].
  - cbn [ret fst snd]. apply Hstate. reflexivity.
  - cbn [fst snd]. exists req, (trace st1 ++ pre), hp, l, l'.
    rewrite Htr, app_assoc. auto.
Qed.

(** The Figure 11 cell ends in its TypeError, or in what the library threw
    before. *)
Definition ends_at_fig11 (out : res (option value) * state (L:=L)) : Prop :=
  exists e, fst out = Exc e /\ (e = fig11_error \/ library_threw lib e (snd out)).

Lemma fig11_ends (fuel : nat) (st : state) :
  (9 <= fuel)%nat -> locals st = None -> ends_at_fig11 (run_cell lib fuel fig11 st).
Proof.
  intros Hf Hl.
  pose proof (fig11_head_only_library lib fuel st Hf Hl) as H.
  unfold wp in H. unfold ends_at_fig11, run_cell, fig11. rewrite run_block_app.
  destruct (run_block (exec lib fuel) fig11_head st) as [[[v|]|e| |w] st1];
    cbn [fst snd runs_to] in *; try contradiction.
  - destruct H as (Hl1 & a & HN).
    pose proof (fig11_z_raises lib fuel st1 a ltac:(lia) Hl1 HN) as Hz.
    cbn [run_block]. unfold bind. rewrite Hz. cbn [fst snd]. eauto.
  - eauto.
Qed.

(** Running cells in a row. *)
Lemma run_cells_step (fuel : nat) (c : block) (cs : list block) (st : state) P :
  wp (run_cell lib fuel c) st (runs_to lib P) ->
  (forall st1, run_cell lib fuel c st = (Ok None, st1) -> P st1 ->
     ends_at_fig11 (run_cells lib fuel cs st1)) ->
  ends_at_fig11 (run_cells lib fuel (c :: cs) st).
Proof.
  unfold wp, runs_to. intros H K. cbn [run_cells]. unfold bind.
  destruct (run_cell lib fuel c st) as [[[v|]|e| |w] st1];
    cbn [fst snd] in *; try contradiction.
  - apply K; auto.
  - exists e. cbn [fst snd]. auto.
Qed.

Lemma run_cells_last (fuel : nat) (c : block) (st : state) :
  ends_at_fig11 (run_cell lib fuel c st) -> ends_at_fig11 (run_cells lib fuel [c] st).
Proof.
  unfold ends_at_fig11. cbn [run_cells]. unfold bind.
  destruct (run_cell lib fuel c st) as [[v|e| |w] st1]; cbn [fst snd];
    intros (e' & E & H); try discriminate E.
  exists e'. auto.
Qed.

Lemma run_cells_app (fuel : nat) (a b : list block) (st : state) :
  ends_at_fig11 (run_cells lib fuel a st) ->
  run_cells lib fuel (a ++ b) st = run_cells lib fuel a st.
Proof.
  revert st. induction a as [|c a IH]; intros st (e & E & H).
  - discriminate E.
  - cbn [app run_cells] in *. unfold bind in *.
    destruct (run_cell lib fuel c st) as [[v|e'| |w] st1]; try reflexivity.
    apply IH. exists e. auto.
Qed.

Lemma reachable_next (fuel : nat) (c : block) (st st1 : state) r :
  reachable lib st -> In c cells -> run_cell lib fuel c st = (r, st1) ->
  reachable lib st1.
Proof.
  intros Hst Hc E. replace st1 with (snd (run_cell lib fuel c st)) by (rewrite E; reflexivity).
  apply reach_run; assumption.
Qed.

End Outcomes.

(** ** What the runs of the other cells show

    The sample states below are those of a session against [counting_lib],
    the library that answers every request with a new object. *)

Definition after_fig3 : state := snd (run_cell counting_lib 9 fig3 (fresh 0%N)).
Definition after_fig5 : state := snd (run_cell counting_lib 9 fig5 (fresh 0%N)).
Definition after_fig7 : state := snd (run_cell counting_lib 9 fig7 after_fig5).
Definition after_em_setup : state :=
  snd (run_block (exec counting_lib 9) variational_em_setup after_fig5).

(** Membership in the list of cells. *)
Ltac in_cells := unfold cells, code_cells; cbn [map snd]; in_list.

(** The cells of Figures 1, 2, 3, 5, 7, 9, 10 and 12 and the data subsampling
    cell make no error of their own: at any point of a session, whatever the
    libraries answer and with any fuel from 9 on, each of them runs to its
    end, or ends in the exception that the library threw at the last request
    made.  None of them raises NameError or TypeError, runs out of fuel, or
    meets a construct the model does not cover. *)
Theorem self_contained_cells_end_well :
  forall {L} (lib : request -> heap_t -> L -> reply * L) (fuel : nat) (c : block)
         (st : state),
    (9 <= fuel)%nat ->
    reachable lib st ->
    In c [fig1; fig2; fig3; fig5; fig7; data_subsampling; fig9; fig10; fig12] ->
    ends_well lib (run_cell lib fuel c st).
Proof.
  intros L lib fuel c st Hf Hst Hc.
  pose proof (reachable_top_level lib st Hst) as Hl.
  pose proof (reachable_unbound lib "float" st cells_do_not_bind_float Hst) as Hfloat.
  pose proof (reachable_unbound lib "True" st cells_do_not_bind_True Hst) as Htrue.
  pose proof (reachable_unbound lib "False" st cells_do_not_bind_False Hst) as Hfalse.
  cbn [In] in Hc.
  repeat (destruct Hc as [<-|Hc]; [eapply runs_to_ends_well|]); try contradiction.
  - apply fig1_runs; assumption.
  - apply fig2_runs; assumption.
  - apply fig3_runs; assumption.
  - apply fig5_runs; assumption.
  - apply fig7_runs; assumption.
  - apply data_subsampling_runs; assumption.
  - apply fig9_runs; assumption.
  - apply fig10_runs; assumption.
  - apply fig12_runs; assumption.
Qed.

Lemma self_contained_cells_end_well_witness :
  ends_well counting_lib (run_cell counting_lib 9 fig10 (fresh 0%N)).
Proof.
  apply (self_contained_cells_end_well counting_lib 9 fig10 (fresh 0%N)).
  - lia.
  - apply reach_fresh.
  - in_list.
Defined.

(** The cells of Figure 6 (left), Figure 6 (right) and variational EM read
    [N], [D], [K], [beta], [z] and [x] without binding them.  At any point of
    a session where these six names are bound, to whatever values, each of
    the three cells runs to its end (for variational EM: through all its
    iterations), or ends in the exception that the library threw at the last
    request made. *)
Theorem model_cells_end_well :
  forall {L} (lib : request -> heap_t -> L -> reply * L) (fuel : nat) (c : block)
         (st : state) (vN vD vK vbeta vz vx : value),
    (9 <= fuel)%nat ->
    reachable lib st ->
    model_bound vN vD vK vbeta vz vx st ->
    In c [fig6_left; fig6_right; variational_em] ->
    ends_well lib (run_cell lib fuel c st).
Proof.
  intros L lib fuel c st vN vD vK vbeta vz vx Hf Hst Hm Hc.
  pose proof (reachable_top_level lib st Hst) as Hl.
  pose proof (reachable_unbound lib "range" st cells_do_not_bind_range Hst) as Hrange.
  cbn [In] in Hc.
  repeat (destruct Hc as [<-|Hc]; [eapply runs_to_ends_well|]); try contradiction.
  - apply (fig6_left_runs lib fuel st vN vD vK vbeta vz vx); assumption.
  - apply (fig6_right_runs lib fuel st vN vD vK vbeta vz vx); assumption.
  - apply (variational_em_runs lib fuel st vN vD vK vbeta vz vx); assumption.
Qed.

Lemma model_cells_end_well_witness :
  ends_well counting_lib (run_cell counting_lib 9 fig6_right after_fig5).
Proof.
  apply (model_cells_end_well counting_lib 9 fig6_right after_fig5
           (VInt 10000) (VInt 2) (VInt 5) (VLib (LObj 4)) (VLib (LObj 6)) (VLib (LObj 9))).
  - lia.
  - apply reach_run; [apply reach_fresh | in_cells].
  - repeat split; vm_compute; reflexivity.
  - in_list.
Defined.

(** A completed run of the Figure 5 cell has made ten requests, in this
    order: the two imports, [tf.zeros] and [tf.ones] on the list [[5, 2]]
    and [Normal] on their results, which is bound to [beta]; [tf.zeros] on
    [[10000, 5]] and [Categorical], bound to [z]; [tf.gather] on the objects
    bound to [beta] and [z], [tf.ones] on [[10000, 2]] and [Normal], bound to
    [x].  It has allocated these four lists and bound [N], [D] and [K] to
    10000, 2 and 5. *)
Theorem fig5_builds_the_model :
  forall {L} (lib : request -> heap_t -> L -> reply * L) (fuel : nat) (st st' : state),
    (9 <= fuel)%nat ->
    locals st = None ->
    run_cell lib fuel fig5 st = (Ok None, st') ->
    fig5_done st st'.
Proof.
  intros L lib fuel st st' Hf Hl Hrun.
  exact (runs_to_done lib _ st st' _ (fig5_runs lib fuel st Hf Hl) Hrun).
Qed.

Lemma fig5_builds_the_model_witness : fig5_done (fresh 0%N) after_fig5.
Proof.
  apply (fig5_builds_the_model counting_lib 9 (fresh 0%N) after_fig5).
  - lia.
  - reflexivity.
  - vm_compute. reflexivity.
Defined.



(** A completed run of the Figure 6 (right) cell has made eleven requests:
    the four imports, [np.zeros], and for each of [qbeta] and [qz] the chain
    [tf.zeros], [tf.Variable], [Empirical].  It builds no inference object:
    nothing is requested of the [edward] module it imports, and [inference]
    is left as it was. *)
Theorem fig6_right_builds_no_inference :
  forall {L} (lib : request -> heap_t -> L -> reply * L) (fuel : nat) (st st' : state)
         (vN vD vK vbeta vz vx : value),
    (9 <= fuel)%nat ->
    locals st = None ->
    model_bound vN vD vK vbeta vz vx st ->
    run_cell lib fuel fig6_right st = (Ok None, st') ->
    fig6_right_done vN vD vK st st'.
Proof.
  intros L lib fuel st st' vN vD vK vbeta vz vx Hf Hl Hm Hrun.
  exact (runs_to_done lib _ st st' _
           (fig6_right_runs lib fuel st vN vD vK vbeta vz vx Hf Hl Hm) Hrun).
Qed.

Lemma fig6_right_builds_no_inference_witness :
  fig6_right_done (VInt 10000) (VInt 2) (VInt 5) after_fig5
    (snd (run_cell counting_lib 9 fig6_right after_fig5)).
Proof.
  apply (fig6_right_builds_no_inference counting_lib 9 after_fig5 _
           (VInt 10000) (VInt 2) (VInt 5) (VLib (LObj 4)) (VLib (LObj 6)) (VLib (LObj 9))).
  - lia.
  - vm_compute. reflexivity.
  - repeat split; vm_compute; reflexivity.
  - vm_compute. reflexivity.
Defined.

(** A completed run of the Figure 7 cell has made fourteen requests, in this
    order.  [generative_network(eps)] is run by the notebook itself: its body
    asks for [Dense(256, activation='relu')], applies the layer to [eps],
    asks for [Dense(784, activation=None)] ([28 * 28] is computed by the
    interpreter) and applies it to the result, which is bound to [x].
    [discriminative_network] is not called: the function itself is handed to
    [ed.GANInference].  The [h] of the function body is local: the global
    [h] is what it was before the cell. *)
Theorem fig7_runs_the_generator :
  forall {L} (lib : request -> heap_t -> L -> reply * L) (fuel : nat) (st st' : state),
    (9 <= fuel)%nat ->
    locals st = None ->
    run_cell lib fuel fig7 st = (Ok None, st') ->
    fig7_done st st'.
Proof.
  intros L lib fuel st st' Hf Hl Hrun.
  exact (runs_to_done lib _ st st' _ (fig7_runs lib fuel st Hf Hl) Hrun).
Qed.

Lemma fig7_runs_the_generator_witness : fig7_done after_fig5 after_fig7.
Proof.
  apply (fig7_runs_the_generator counting_lib 9 after_fig5 after_fig7).
  - lia.
  - vm_compute. reflexivity.
  - vm_compute. reflexivity.
Defined.

(** ** Calls of the notebook's functions *)

Section Functions.
Context {L : Type} (lib : request -> heap_t -> L -> reply * L).

(** A call that returned [v], having logged [evs], or that ended in what the
    library threw; either way the caller's namespaces and the heap are as
    they were. *)
Definition call_ends (st : state (L:=L)) (P : value -> list (request * reply) -> Prop)
    (out : res value * state (L:=L)) : Prop :=
  globals (snd out) = globals st
  /\ locals (snd out) = locals st
  /\ heap (snd out) = heap st
  /\ match fst out with
     | Ok v => exists evs, trace (snd out) = trace st ++ evs /\ P v evs
     | Exc e => library_threw lib e (snd out)
     | _ => False
     end.

(** The value and the requests of [tf.tanh(ed.dot(a, Wh) + ed.dot(b, Wx) + bh)]. *)
Definition rnn_cell_result (oed otf : libref) (vWh vWx vbh a b : value)
    (v : value) (evs : list (request * reply)) : Prop :=
  exists h1 h2 h3 h4 h5,
    v = VLib (LObj h5)
    /\ evs = [ (RCall (LAttr oed "dot") [a; vWh] [], Returned h1);
               (RCall (LAttr oed "dot") [b; vWx] [], Returned h2);
               (RBinOp Add (VLib (LObj h1)) (VLib (LObj h2)), Returned h3);
               (RBinOp Add (VLib (LObj h3)) vbh, Returned h4);
               (RCall (LAttr otf "tanh") [VLib (LObj h4)] [], Returned h5) ].

(** The value and the requests of a network of two layers applied to [v]. *)
Definition two_layers (oD : libref) (n1 : Z) (act1 : value) (n2 : Z) (act2 : value)
    (v : value) (w : value) (evs : list (request * reply)) : Prop :=
  exists hd1 hh hd2 hx,
    w = VLib (LObj hx)
    /\ evs = [ (RCall oD [VInt n1] [("activation", act1)], Returned hd1);
               (RCall (LObj hd1) [v] [], Returned hh);
               (RCall oD [VInt n2] [("activation", act2)], Returned hd2);
               (RCall (LObj hd2) [VLib (LObj hh)] [], Returned hx) ].

End Functions.

(** At the end of a call: the caller's state is back. *)
Ltac call_finish :=
  unfold call_ends; cbn [fst snd globals locals heap trace];
  (split; [reflexivity|]); (split; [reflexivity|]); (split; [reflexivity|]).

(** [rnn_cell(a, b)], called where [ed] and [tf] are the imported modules
    and [Wh], [Wx] and [bh] are bound, makes five requests in this order:
    [ed.dot(a, Wh)], [ed.dot(b, Wx)], the sum of the two results, the sum of
    that and [bh], and [tf.tanh] of the last sum, whose result it returns.
    The globals are read when the call is made.  The call ends early only
    in what the library threw, and leaves the caller's names and the heap as
    they were. *)
Theorem rnn_cell_computes_tanh :
  forall {L} (lib : request -> heap_t -> L -> reply * L) (fuel : nat) (st : state)
         (oed otf : libref) (vWh vWx vbh a b : value),
    (7 <= fuel)%nat ->
    env_get "ed" (globals st) = Some (VLib oed) ->
    env_get "tf" (globals st) = Some (VLib otf) ->
    env_get "Wh" (globals st) = Some vWh ->
    env_get "Wx" (globals st) = Some vWx ->
    env_get "bh" (globals st) = Some vbh ->
    call_ends lib st (rnn_cell_result oed otf vWh vWx vbh a b)
      (apply_function lib (run_block (exec lib fuel)) rnn_cell [a; b] [] st).
Proof.
  intros L lib fuel st oed otf vWh vWx vbh a b Hf Hed Htf HWh HWx Hbh.
  do 7 (destruct fuel as [|fuel]; [lia|]).
  destruct st as [g lc hp l tr]; cbn [locals globals] in *.
  unfold rnn_cell.
  match goal with
  | |- call_ends _ ?s ?P (?m ?s) => change (wp m s (fun r s' => call_ends lib s P (r, s')))
  end.
  repeat run_step; call_finish; try threw.
  rewrite !log_request_app, <- !app_assoc. cbn [app].
  eexists. split; [reflexivity|]. eexists _, _, _, _, _. split; reflexivity.
Qed.

Lemma rnn_cell_computes_tanh_witness :
  call_ends counting_lib after_fig3
    (rnn_cell_result (LObj 0) (LObj 1) (VLib (LObj 5)) (VLib (LObj 8)) (VLib (LObj 14))
       (VInt 1) (VInt 2))
    (apply_function counting_lib (run_block (exec counting_lib 7)) rnn_cell
       [VInt 1; VInt 2] [] after_fig3).
Proof.
  apply (rnn_cell_computes_tanh counting_lib 7 after_fig3).
  - lia.
  - vm_compute. reflexivity.
  - vm_compute. reflexivity.
  - vm_compute. reflexivity.
  - vm_compute. reflexivity.
  - vm_compute. reflexivity.
Defined.

(** The statements of the Figure 3 cell up to the definition of [rnn_cell]. *)
Definition fig3_up_to_def : block := firstn 6 fig3.

(** [rnn_cell] is defined before [Wh], [Wx] and [bh] are bound.  Called
    where [Wh] is still unbound, it raises NameError for the global name
    [Wh] before any request is made, and leaves the state as it was. *)
Theorem rnn_cell_needs_Wh :
  forall {L} (lib : request -> heap_t -> L -> reply * L) (fuel : nat) (st : state)
         (oed otf : libref) (a b : value),
    (7 <= fuel)%nat ->
    env_get "ed" (globals st) = Some (VLib oed) ->
    env_get "tf" (globals st) = Some (VLib otf) ->
    env_get "Wh" (globals st) = None ->
    apply_function lib (run_block (exec lib fuel)) rnn_cell [a; b] [] st
    = (Exc (Exn "NameError" "global name 'Wh' is not defined"), st).
Proof.
  intros L lib fuel st oed otf a b Hf Hed Htf HWh.
  do 7 (destruct fuel as [|fuel]; [lia|]).
  destruct st as [g lc hp l tr]; cbn [locals globals] in *.
  unfold rnn_cell.
  match goal with
  | |- ?m ?s = (?r, ?s') => enough (wp m s (fun r0 s0 => (r0, s0) = (r, s'))) as H
  end.
  { unfold wp in H. destruct (apply_function _ _ _ _ _ _); exact H. }
  repeat run_step; reflexivity.
Qed.

Lemma rnn_cell_needs_Wh_witness :
  let st := snd (run_block (exec counting_lib 9) fig3_up_to_def (fresh 0%N)) in
  env_get "rnn_cell" (globals st) = Some rnn_cell
  /\ apply_function counting_lib (run_block (exec counting_lib 7)) rnn_cell
       [VInt 1; VInt 2] [] st
     = (Exc (Exn "NameError" "global name 'Wh' is not defined"), st).
Proof.
  intros st. split; [vm_compute; reflexivity|].
  apply (rnn_cell_needs_Wh counting_lib 7 st (LObj 0) (LObj 1)).
  - lia.
  - vm_compute. reflexivity.
  - vm_compute. reflexivity.
  - vm_compute. reflexivity.
Defined.

(** [generative_network(v)] asks for [Dense(256, activation='relu')], applies
    the layer to [v], asks for [Dense(784, activation=None)] and applies that
    layer to the first result; [discriminative_network(v)] does the same with
    [Dense(784, activation='relu')] and [Dense(1, activation=None)].  Every
    call builds two new layers.  The name [h] that both bodies assign is
    local to the call: the caller's names and the heap are as they were. *)
Theorem networks_build_two_layers :
  forall {L} (lib : request -> heap_t -> L -> reply * L) (fuel : nat) (st : state)
         (oD : libref) (v : value),
    (6 <= fuel)%nat ->
    env_get "Dense" (globals st) = Some (VLib oD) ->
    call_ends lib st (two_layers oD 256 (VStr "relu") 784 VNone v)
      (apply_function lib (run_block (exec lib fuel)) generative_network [v] [] st)
    /\ call_ends lib st (two_layers oD 784 (VStr "relu") 1 VNone v)
         (apply_function lib (run_block (exec lib fuel)) discriminative_network [v] [] st).
Proof.
  intros L lib fuel st oD v Hf HD.
  do 6 (destruct fuel as [|fuel]; [lia|]).
  destruct st as [g lc hp l tr]; cbn [locals globals] in *.
  unfold generative_network, discriminative_network.
  split.
  - match goal with
    | |- call_ends _ ?s ?P (?m ?s) => change (wp m s (fun r s' => call_ends lib s P (r, s')))
    end.
    repeat run_step; call_finish; try threw.
    rewrite !log_request_app, <- !app_assoc. cbn [app].
    eexists. split; [reflexivity|]. eexists _, _, _, _. split; reflexivity.
  - match goal with
    | |- call_ends _ ?s ?P (?m ?s) => change (wp m s (fun r s' => call_ends lib s P (r, s')))
    end.
    repeat run_step; call_finish; try threw.
    rewrite !log_request_app, <- !app_assoc. cbn [app].
    eexists. split; [reflexivity|]. eexists _, _, _, _. split; reflexivity.
Qed.

Lemma networks_build_two_layers_witness :
  call_ends counting_lib after_fig7
    (two_layers (LAttr (LObj 14) "Dense") 256 (VStr "relu") 784 VNone (VInt 0))
    (apply_function counting_lib (run_block (exec counting_lib 6)) generative_network
       [VInt 0] [] after_fig7)
  /\ call_ends counting_lib after_fig7
       (two_layers (LAttr (LObj 14) "Dense") 784 (VStr "relu") 1 VNone (VInt 0))
       (apply_function counting_lib (run_block (exec counting_lib 6))
          discriminative_network [VInt 0] [] after_fig7).
Proof.
  apply (networks_build_two_layers counting_lib 6 after_fig7).
  - lia.
  - vm_compute. reflexivity.
Defined.



(** The rational that a finite float denotes, as a numerator and a
    denominator. *)
Definition float_ratio (f : spec_float) : option (Z * Z) :=
  match f with
  | S754_zero _ => Some (0, 1)
  | S754_finite s m e =>
      let n := if s then Z.neg m else Z.pos m in
      Some (if Z.leb 0 e then (n * 2 ^ e, 1) else (n, 2 ^ (- e)))
  | _ => None
  end.

(** A completed run of the data subsampling cell has made 23 requests, in
    this order.  The logits of [z] are [tf.zeros] of the list [[128, 5]]
    ([[M, K]]); those of [qz] are a variable over [tf.zeros] of the list
    [[128, 2]] ([[M, D]]).  The last request, [inference.initialize], is
    given [scale] as a dict that maps the objects bound to [x] and [z] to
    the float [float(N) / M], which is 10000/128 = 78.125 exactly. *)
Theorem data_subsampling_scales_by_N_over_M :
  forall {L} (lib : request -> heap_t -> L -> reply * L) (fuel : nat) (st st' : state),
    (9 <= fuel)%nat ->
    reachable lib st ->
    run_cell lib fuel data_subsampling st = (Ok None, st') ->
    data_subsampling_done st st'
    /\ subsampling_scale = SFdiv prec emax (float_of_Z 10000) (float_of_Z 128)
    /\ exists n d, float_ratio subsampling_scale = Some (n, d) /\ n * 128 = 10000 * d.
Proof.
  intros L lib fuel st st' Hf Hst Hrun.
  pose proof (reachable_top_level lib st Hst) as Hl.
  pose proof (reachable_unbound lib "float" st cells_do_not_bind_float Hst) as Hfloat.
  split; [|split; [symmetry; apply subsampling_scale_eq|]].
  - exact (runs_to_done lib _ st st' _
             (data_subsampling_runs lib fuel st Hf Hl Hfloat) Hrun).
  - eexists _, _. split; vm_compute; reflexivity.
Qed.

Lemma data_subsampling_scales_by_N_over_M_witness :
  data_subsampling_done (fresh 0%N)
    (snd (run_cell counting_lib 9 data_subsampling (fresh 0%N))).
Proof.
  refine (proj1 (data_subsampling_scales_by_N_over_M counting_lib 9 (fresh 0%N) _ _ _ _)).
  - lia.
  - apply reach_fresh.
  - vm_compute. reflexivity.
Defined.

(** A completed run of the Figure 9 cell has made 17 requests, in this
    order.  [tf.Variable] is given [trainable] as the boolean [False].  The
    last request, [inference.run], is given [n_steps=10] and, as
    [step_size], the float [0.5 / N] for [N = 581012]: a float division,
    whose result lies between 8.6e-07 and 8.7e-07. *)
Theorem fig9_step_size_is_a_float :
  forall {L} (lib : request -> heap_t -> L -> reply * L) (fuel : nat) (st st' : state),
    (9 <= fuel)%nat ->
    reachable lib st ->
    run_cell lib fuel fig9 st = (Ok None, st') ->
    fig9_done st st'
    /\ fig9_step_size = SFdiv prec emax (float_of_literal 5 (-1)) (float_of_Z 581012)
    /\ exists n d, float_ratio fig9_step_size = Some (n, d)
                   /\ 86 * d < n * 10 ^ 8 < 87 * d.
Proof.
  intros L lib fuel st st' Hf Hst Hrun.
  pose proof (reachable_top_level lib st Hst) as Hl.
  pose proof (reachable_unbound lib "False" st cells_do_not_bind_False Hst) as Hfalse.
  split; [|split; [symmetry; apply fig9_step_size_eq|]].
  - exact (runs_to_done lib _ st st' _ (fig9_runs lib fuel st Hf Hl Hfalse) Hrun).
  - eexists _, _. split; [vm_compute; reflexivity|]. split; reflexivity.
Qed.

Lemma fig9_step_size_is_a_float_witness :
  fig9_done (fresh 0%N) (snd (run_cell counting_lib 9 fig9 (fresh 0%N))).
Proof.
  refine (proj1 (fig9_step_size_is_a_float counting_lib 9 (fresh 0%N) _ _ _ _)).
  - lia.
  - apply reach_fresh.
  - vm_compute. reflexivity.
Defined.

(** A completed run of the statements of the variational EM cell before its
    loop, started where [beta], [z] and [x] are bound to library objects and
    [x] to another one than [beta] and [z], has made 17 requests, in this
    order.  The shape given to [np.zeros] is the list of the values of [N]
    and [D] when the cell runs.  The two inference objects are built over
    the same objects: the [qz] that [ed.VariationalInference] infers is the
    [qz] in the data of [ed.MAP], the [qbeta] that [ed.MAP] infers is the
    [qbeta] in the data of [ed.VariationalInference], and both get the same
    [x_train] for the object bound to [x] when the cell runs.  Then
    [inference_e] is initialised, then [inference_m], then the variables.
    (The keys of the dicts are library objects, whose hashing and equality
    are the library's: a display with two different objects as keys has two
    items.) *)
Theorem variational_em_shares_the_approximations :
  forall {L} (lib : request -> heap_t -> L -> reply * L) (fuel : nat) (st st' : state)
         (vN vD vK : value) (ob oz ox : libref),
    (9 <= fuel)%nat ->
    locals st = None ->
    model_bound vN vD vK (VLib ob) (VLib oz) (VLib ox) st ->
    ox <> ob ->
    ox <> oz ->
    run_block (exec lib fuel) variational_em_setup st = (Ok None, st') ->
    em_setup_done vN vD vK (VLib ob) (VLib oz) (VLib ox) st st'.
Proof.
  intros L lib fuel st st' vN vD vK ob oz ox Hf Hl Hm _ _ Hrun.
  exact (runs_to_done lib _ st st' _
           (em_setup_trace lib fuel st vN vD vK _ _ _ Hf Hl Hm) Hrun).
Qed.

Lemma variational_em_shares_the_approximations_witness :
  em_setup_done (VInt 10000) (VInt 2) (VInt 5) (VLib (LObj 4)) (VLib (LObj 6))
    (VLib (LObj 9)) after_fig5 after_em_setup.
Proof.
  apply (variational_em_shares_the_approximations counting_lib 9 after_fig5
           after_em_setup (VInt 10000) (VInt 2) (VInt 5) (LObj 4) (LObj 6) (LObj 9)).
  - lia.
  - vm_compute. reflexivity.
  - repeat split; vm_compute; reflexivity.
  - intros K. discriminate K.
  - intros K. discriminate K.
  - vm_compute. reflexivity.
Defined.

(** The Figure 7 cell rebinds [N] and [x], which the cells after Figure 5
    read.  Let the Figure 7 cell run where [beta] and [z] are bound to
    library objects, and bind [x] to another object than these two.  When
    the statements of the variational EM cell before its loop run next, as
    they do in notebook order, [x_train] is [np.zeros] of a list whose first
    item is 55000, the [N] of Figure 7, and the data of both inference
    objects have as the key for [x_train] the output of
    [generative_network], to which Figure 7 has bound [x]; [D], [K], [beta]
    and [z] are those that were bound before Figure 7. *)
Theorem variational_em_after_fig7_reads_its_names :
  forall {L} (lib : request -> heap_t -> L -> reply * L) (fuel : nat)
         (st st7 st8 : state) (vN vD vK vx : value) (ob oz : libref),
    (9 <= fuel)%nat ->
    locals st = None ->
    model_bound vN vD vK (VLib ob) (VLib oz) vx st ->
    run_cell lib fuel fig7 st = (Ok None, st7) ->
    env_get "x" (globals st7) <> Some (VLib ob) ->
    env_get "x" (globals st7) <> Some (VLib oz) ->
    run_block (exec lib fuel) variational_em_setup st7 = (Ok None, st8) ->
    fig7_done st st7
    /\ exists hx,
         env_get "x" (globals st7) = Some (VLib (LObj hx))
         /\ em_setup_done (VInt 55000) vD vK (VLib ob) (VLib oz) (VLib (LObj hx)) st7 st8.
Proof.
  intros L lib fuel st st7 st8 vN vD vK vx ob oz Hf Hl (HN & HD & HK & Hb & Hz & Hx)
    H7 _ _ H8.
  pose proof (runs_to_done lib _ st st7 _ (fig7_runs lib fuel st Hf Hl) H7) as Hdone.
  split; [exact Hdone|].
  destruct Hdone as (oed & onp & otf & om & ok & hxt & h0 & h1 & heps & hd1 & hh & hd2
                     & hx & hinf & _ & _ & Hl7 & HN7 & Hx7 & _).
  exists hx. split; [exact Hx7|].
  assert (forall y, ~ In y (bound_names fig7) ->
                    env_get y (globals st7) = env_get y (globals st)) as Hkept.
  { intros y Hy. pose proof (kept lib y fuel fig7 st Hy) as K.
    rewrite H7 in K. exact K. }
  assert (model_bound (VInt 55000) vD vK (VLib ob) (VLib oz) (VLib (LObj hx)) st7) as Hm7.
  { unfold model_bound.
    rewrite (Hkept "D"), (Hkept "K"), (Hkept "beta"), (Hkept "z")
      by (let K := fresh in intros K; vm_compute in K; intuition discriminate).
    repeat split; assumption. }
  exact (runs_to_done lib _ st7 st8 _
           (em_setup_trace lib fuel st7 _ _ _ _ _ _ Hf Hl7 Hm7) H8).
Qed.

Lemma variational_em_after_fig7_reads_its_names_witness :
  exists hx,
    env_get "x" (globals after_fig7) = Some (VLib (LObj hx))
    /\ em_setup_done (VInt 55000) (VInt 2) (VInt 5) (VLib (LObj 4)) (VLib (LObj 6))
         (VLib (LObj hx)) after_fig7
         (snd (run_block (exec counting_lib 9) variational_em_setup after_fig7)).
Proof.
  refine (proj2 (variational_em_after_fig7_reads_its_names counting_lib 9
                   after_fig5 after_fig7 _
                   (VInt 10000) (VInt 2) (VInt 5) (VLib (LObj 9)) (LObj 4) (LObj 6)
                   _ _ _ _ _ _ _)).
  - lia.
  - vm_compute. reflexivity.
  - repeat split; vm_compute; reflexivity.
  - vm_compute. reflexivity.
  - vm_compute. intros K. discriminate K.
  - vm_compute. intros K. discriminate K.
  - vm_compute. reflexivity.
Defined.

(** The loop of the variational EM cell, when the two updates never throw:
    it completes; [range(10000)] has added one list of 10000 items to the
    heap; the loop variable [_] is left bound to 9999; every other global
    is as it was. *)
Theorem variational_em_loop_leaves :
  forall {L} (lib : request -> heap_t -> L -> reply * L) (fuel : nat) (st : state)
         (oe om : libref),
    (5 <= fuel)%nat ->
    locals st = None ->
    env_get "range" (globals st) = None ->
    env_get "inference_e" (globals st) = Some (VLib oe) ->
    env_get "inference_m" (globals st) = Some (VLib om) ->
    (forall hp l, exists h l', lib (update_of oe) hp l = (Returned h, l')) ->
    (forall hp l, exists h l', lib (update_of om) hp l = (Returned h, l')) ->
    exists st',
      exec lib fuel variational_em_loop st = (Ok None, st')
      /\ heap st' = heap st ++ [range_list 10000]
      /\ length (range_list 10000) = Z.to_nat 10000
      /\ env_get "_" (globals st') = Some (VInt 9999)
      /\ forall x, x <> "_" -> env_get x (globals st') = env_get x (globals st).
Proof.
  intros L lib fuel st oe om Hf Hl Hr He Hm Te Tm.
  pose proof (em_loop_runs lib fuel oe om st Hf Hl Hr He Hm) as Hloop.
  pose proof (em_loop_state lib fuel oe om st Hf Hl Hr He Hm) as Hstate.
  unfold wp in Hloop, Hstate.
  destruct (exec lib fuel variational_em_loop st) as [r st'] eqn:E.
  cbn [fst snd] in *.
  destruct Hloop as (evs & _ & Hrun).
  pose proof (em_run_total lib oe om _ r evs Te Tm Hrun) as ->.
  destruct (Hstate eq_refl) as (_ & Hh & Hu & Hx).
  exists st'. split; [reflexivity|]. split; [exact Hh|].
  split; [apply length_range_list|]. split; [exact Hu|exact Hx].
Qed.

Lemma variational_em_loop_leaves_witness :
  exists st',
    exec counting_lib 5 variational_em_loop after_em_setup = (Ok None, st')
    /\ heap st' = heap after_em_setup ++ [range_list 10000]
    /\ length (range_list 10000) = Z.to_nat 10000
    /\ env_get "_" (globals st') = Some (VInt 9999)
    /\ forall x, x <> "_" ->
         env_get x (globals st') = env_get x (globals after_em_setup).
Proof.
  apply (variational_em_loop_leaves counting_lib 5 after_em_setup (LObj 21) (LObj 22)).
  - lia.
  - vm_compute. reflexivity.
  - vm_compute. reflexivity.
  - vm_compute. reflexivity.
  - vm_compute. reflexivity.
  - intros hp l. eexists _, _. reflexivity.
  - intros hp l. eexists _, _. reflexivity.
Defined.

(** ** Running the notebook from top to bottom *)

(** The cells up to Figure 11, in notebook order. *)
Definition cells_to_fig11 : list block := firstn 12 cells.

(** A name that a cell does not bind. *)
Ltac not_bound := let K := fresh in intros K; vm_compute in K; intuition discriminate.

Section RunAll.
Context {L : Type} (lib : request -> heap_t -> L -> reply * L).

Lemma cells_to_fig11_end (l : L) (fuel : nat) :
  (9 <= fuel)%nat -> ends_at_fig11 lib (run_cells lib fuel cells_to_fig11 (fresh l)).
Proof.
  intros Hf.
  change cells_to_fig11
    with [fig1; fig2; fig3; fig5; fig6_left; fig6_right; fig7; variational_em;
          data_subsampling; fig9; fig10; fig11].
  pose proof (reach_fresh lib l) as R0.
  (* Figure 1 *)
  eapply run_cells_step;
    [apply fig1_runs; [exact Hf | exact (reachable_top_level lib _ R0)]|].
  intros st1 E1 _.
  pose proof (reachable_next lib fuel fig1 _ _ _ R0 ltac:(in_cells) E1) as R1.
  (* Figure 2 *)
  eapply run_cells_step;
    [apply fig2_runs; [exact Hf | exact (reachable_top_level lib _ R1)]|].
  intros st2 E2 _.
  pose proof (reachable_next lib fuel fig2 _ _ _ R1 ltac:(in_cells) E2) as R2.
  (* Figure 3 *)
  eapply run_cells_step;
    [apply fig3_runs; [exact Hf | exact (reachable_top_level lib _ R2)]|].
  intros st3 E3 _.
  pose proof (reachable_next lib fuel fig3 _ _ _ R2 ltac:(in_cells) E3) as R3.
  (* Figure 5 *)
  eapply run_cells_step;
    [apply fig5_runs; [exact Hf | exact (reachable_top_level lib _ R3)]|].
  intros st4 E4 P4.
  pose proof (reachable_next lib fuel fig5 _ _ _ R3 ltac:(in_cells) E4) as R4.
  destruct P4 as (otf & om & h0 & h1 & hb & h2 & hz & h3 & h4 & hx & _ & _ & _
                  & HN & HD & HK & Hb & Hz & Hx).
  assert (model_bound (VInt 10000) (VInt 2) (VInt 5) (VLib (LObj hb)) (VLib (LObj hz))
            (VLib (LObj hx)) st4) as M4 by (repeat split; assumption).
  (* Figure 6 (left) *)
  eapply run_cells_step;
    [exact (fig6_left_runs lib fuel st4 _ _ _ _ _ _ Hf (reachable_top_level lib _ R4) M4)|].
  intros st5 E5 _.
  pose proof (reachable_next lib fuel fig6_left _ _ _ R4 ltac:(in_cells) E5) as R5.
  pose proof (model_bound_kept lib fuel fig6_left st4 _ _ _ _ _ _
                ltac:(forall_list ltac:(idtac; not_bound)) M4) as M5.
  rewrite E5 in M5. cbn [snd] in M5.
  (* Figure 6 (right) *)
  eapply run_cells_step;
    [exact (fig6_right_runs lib fuel st5 _ _ _ _ _ _ Hf (reachable_top_level lib _ R5) M5)|].
  intros st6 E6 _.
  pose proof (reachable_next lib fuel fig6_right _ _ _ R5 ltac:(in_cells) E6) as R6.
  pose proof (model_bound_kept lib fuel fig6_right st5 _ _ _ _ _ _
                ltac:(forall_list ltac:(idtac; not_bound)) M5) as M6.
  rewrite E6 in M6. cbn [snd] in M6.
  (* Figure 7 *)
  eapply run_cells_step;
    [apply fig7_runs; [exact Hf | exact (reachable_top_level lib _ R6)]|].
  intros st7 E7 P7.
  pose proof (reachable_next lib fuel fig7 _ _ _ R6 ltac:(in_cells) E7) as R7.
  destruct P7 as (oed & onp & otf7 & om7 & ok & hxt & g0 & g1 & heps & hd1 & hh & hd2
                  & hx7 & hinf & _ & _ & _ & HN7 & Hx7 & _).
  assert (model_bound (VInt 55000) (VInt 2) (VInt 5) (VLib (LObj hb)) (VLib (LObj hz))
            (VLib (LObj hx7)) st7) as M7.
  { destruct M6 as (_ & HD6 & HK6 & Hb6 & Hz6 & _).
    assert (forall y, ~ In y (bound_names fig7) ->
                      env_get y (globals st7) = env_get y (globals st6)) as Hkept.
    { intros y Hy. pose proof (kept lib y fuel fig7 st6 Hy) as K.
      rewrite E7 in K. exact K. }
    unfold model_bound.
    rewrite (Hkept "D"), (Hkept "K"), (Hkept "beta"), (Hkept "z") by not_bound.
    repeat split; assumption. }
  (* Variational EM *)
  eapply run_cells_step;
    [exact (variational_em_runs lib fuel st7 _ _ _ _ _ _ Hf (reachable_top_level lib _ R7)
              (reachable_unbound lib "range" _ cells_do_not_bind_range R7) M7)|].
  intros st8 E8 _.
  pose proof (reachable_next lib fuel variational_em _ _ _ R7 ltac:(in_cells) E8) as R8.
  (* Data subsampling *)
  eapply run_cells_step;
    [exact (data_subsampling_runs lib fuel st8 Hf (reachable_top_level lib _ R8)
              (reachable_unbound lib "float" _ cells_do_not_bind_float R8))|].
  intros st9 E9 _.
  pose proof (reachable_next lib fuel data_subsampling _ _ _ R8 ltac:(in_cells) E9) as R9.
  (* Figure 9 *)
  eapply run_cells_step;
    [exact (fig9_runs lib fuel st9 Hf (reachable_top_level lib _ R9)
              (reachable_unbound lib "False" _ cells_do_not_bind_False R9))|].
  intros st10 E10 _.
  pose proof (reachable_next lib fuel fig9 _ _ _ R9 ltac:(in_cells) E10) as R10.
  (* Figure 10 *)
  eapply run_cells_step;
    [apply fig10_runs; [exact Hf | exact (reachable_top_level lib _ R10)]|].
  intros st11 E11 _.
  pose proof (reachable_next lib fuel fig10 _ _ _ R10 ltac:(in_cells) E11) as R11.
  (* Figure 11 *)
  apply run_cells_last. apply fig11_ends; [exact Hf | exact (reachable_top_level lib _ R11)].
Qed.

End RunAll.

(** Running the cells from top to bottom in a fresh interpreter, stopping at
    the first cell that does not complete: whatever the libraries answer, the
    run never gets past the Figure 11 cell.  It ends in the TypeError of
    Figure 11 or, earlier, in an exception that the library threw; when the
    library never throws, it ends in the TypeError.  The cells of Figures 12
    and 13 are not run: the outcome and the final state are those of running
    the first twelve cells only. *)
Theorem run_all_ends_at_fig11 :
  forall {L} (lib : request -> heap_t -> L -> reply * L) (l : L) (fuel : nat),
    (9 <= fuel)%nat ->
    let out := run_cells lib fuel cells (fresh l) in
    out = run_cells lib fuel cells_to_fig11 (fresh l)
    /\ last cells_to_fig11 = Some fig11
    /\ skipn 12 cells = [fig12; fig13]
    /\ (exists e, fst out = Exc e
                  /\ (e = Exn "TypeError" "can't multiply sequence by non-int of type 'list'"
                      \/ library_threw lib e (snd out)))
    /\ ((forall req hp l0, exists h l1, lib req hp l0 = (Returned h, l1)) ->
        fst out = Exc (Exn "TypeError" "can't multiply sequence by non-int of type 'list'")).
Proof.
  intros L lib l fuel Hf out.
  pose proof (cells_to_fig11_end lib l fuel Hf) as H.
  assert (out = run_cells lib fuel cells_to_fig11 (fresh l)) as E.
  { unfold out. rewrite <- (firstn_skipn 12 cells) at 1.
    apply run_cells_app. exact H. }
  split; [exact E|]. split; [reflexivity|]. split; [reflexivity|].
  rewrite E. destruct H as (e & He & Hor).
  split; [exists e; split; [exact He|exact Hor]|].
  intros Htotal. rewrite He. destruct Hor as [->|(req & tr & hp & l0 & l1 & _ & Hlib)].
  - reflexivity.
  - destruct (Htotal req hp l0) as (h & l2 & Hret). congruence.
Qed.

Lemma run_all_ends_at_fig11_witness :
  fst (run_cells counting_lib 9 cells (fresh 0%N))
  = Exc (Exn "TypeError" "can't multiply sequence by non-int of type 'list'").
Proof.
  refine (proj2 (proj2 (proj2 (proj2
            (run_all_ends_at_fig11 counting_lib 0%N 9 _)))) _).
  - lia.
  - intros req hp l0. eexists _, _. reflexivity.
Defined.

(** ** The cells that read the model *)


Section NeedsTheModel.
Context {L : Type} (lib : request -> heap_t -> L -> reply * L).






End NeedsTheModel.

